(** * Reports.processedData: the reporting pipeline of the CRM, and the
      filter predicate engine that the list views call.

    The pipeline is the [useMemo] that computes [processedData] in the
    [Reports] component: filter, group, metric, label, order.  It is
    written in TypeScript over values of type [any], so the embedding starts
    with the fragment of the JavaScript value language the pipeline touches:
    primitive values, arrays, plain data objects, and the coercions that
    [+], [/], [===], [new Date(...)], template literals and property keys
    perform on them.

    Modelling conventions, fixed once here:
    - a number is a double: NaN, one of the two infinities, or a finite
      value held as the rational it denotes.  [+], [/] and [*] round their
      exact result to the nearest double, ties to even, and overflow to an
      infinity, as IEEE 754 has it.  The two zeros are one value: nothing
      the modelled code does tells them apart ([===], ToString, ToBoolean
      and the property key agree on them, and the only divisors are array
      lengths);
    - a string is a list of 8-bit characters, so [length] agrees with the
      JavaScript [length] on ASCII text;
    - an object is the ordered list of its own properties, the way the
      engine enumerates them; arrays and objects carry a reference so that
      [===] can compare identities;
    - data objects are plain: they do not define [toString] or [valueOf] of
      their own, and the field selectors the component uses ([dateKey],
      [groupBy], the filter keys, [amount], [tasks], [id], [name]) are read
      as own properties.  The accumulator [{}] of the group stage is indexed
      by data, so there the members inherited from [Object.prototype] are
      modelled;
    - what ECMAScript leaves to the host (time zone, the parse of strings
      outside the date-only ISO form, Intl formatting and collation, the
      digits of a non-integral number) is a field of the record [Host]. *)

From Stdlib Require Import ZArith QArith Qround Qcanon List String Ascii Bool Lia.
From Stdlib Require Import Permutation Sorted DecimalString.
Import ListNotations.

Set Warnings "-register-all".

Open Scope string_scope.
Open Scope Z_scope.

(** ** Completions: a call either returns or throws. *)

Inductive Completion (A : Type) : Type :=
| Normal (a : A)
| Throw (msg : string).
Arguments Normal {A} a.
Arguments Throw {A} msg.

Definition bind {A B} (c : Completion A) (k : A -> Completion B) : Completion B :=
  match c with
  | Normal a => k a
  | Throw m => Throw m
  end.

Notation "x <- c ;; k" := (bind c (fun x => k))
  (at level 61, c at next level, right associativity).

Definition returns {A} (c : Completion A) : Prop := exists a, c = Normal a.

(** ** Values *)

Module Js.

Inductive Num : Type :=
| NaN
| Fin (q : Q)
| Inf (negative : bool).

Inductive Val : Type :=
| Undefined
| Null
| Bool (b : bool)
| Number (n : Num)
| Str (s : string)
| Arr (ref : positive) (elems : list Val)
| Obj (ref : positive) (props : list (string * Val)).

(** The own properties of a plain object. *)
Definition Props : Type := list (string * Val).

Definition int (z : Z) : Val := Number (Fin (inject_Z z)).

Fixpoint lookup {A} (k : string) (ps : list (string * A)) : option A :=
  match ps with
  | [] => None
  | (k', v) :: ps' => if String.eqb k k' then Some v else lookup k ps'
  end.

(** [o[k]] on a plain data object. *)
Definition get (o : Props) (k : string) : Val :=
  match lookup k o with
  | Some v => v
  | None => Undefined
  end.

(** [Object.keys(o)], and the object left by [const { k, ...rest } = o]. *)
Definition keys {A} (o : list (string * A)) : list string := map fst o.

Definition without {A} (k : string) (o : list (string * A)) : list (string * A) :=
  filter (fun kv => negb (String.eqb k (fst kv))) o.

(** [v?.k] for the two names the pipeline reads this way ([start] and
    [end]): undefined on undefined and null, the own property on an
    object, undefined on every other value (no primitive wrapper and no
    array defines these names). *)
Definition opt_get (v : Val) (k : string) : Val :=
  match v with
  | Obj _ ps => get ps k
  | _ => Undefined
  end.

(** ToBoolean. *)
Definition truthy (v : Val) : bool :=
  match v with
  | Undefined | Null => false
  | Bool b => b
  | Number NaN => false
  | Number (Fin q) => negb (Qeq_bool q 0)
  | Number (Inf _) => true
  | Str s => negb (String.eqb s "")
  | Arr _ _ | Obj _ _ => true
  end.

(** [typeof v === 'string'] *)
Definition is_string (v : Val) : bool :=
  match v with Str _ => true | _ => false end.

(** [v === undefined || v === null] *)
Definition nullish (v : Val) : bool :=
  match v with Undefined | Null => true | _ => false end.

(** IsStrictlyEqual: same type and same value; NaN differs from itself;
    arrays and objects are equal when they are the same object. *)
Definition strict_eq (a b : Val) : bool :=
  match a, b with
  | Undefined, Undefined => true
  | Null, Null => true
  | Bool x, Bool y => Bool.eqb x y
  | Number (Fin x), Number (Fin y) => Qeq_bool x y
  | Number (Inf x), Number (Inf y) => Bool.eqb x y
  | Str x, Str y => String.eqb x y
  | Arr r _, Arr r' _ => Pos.eqb r r'
  | Obj r _, Obj r' _ => Pos.eqb r r'
  | _, _ => false
  end.

(** *** Rounding to a double

    [rne_div n d] is the integer nearest to [n / d], a tie going to the
    even one.  [round_double q] is the double nearest to [q]: [q] is
    counted in units of 2^-1074, the smallest positive double, so that the
    doubles are the multiples of [2 ^ e] units of at most 53 bits, with
    [e = 0] for the subnormal numbers and the first binade of the normal
    ones; what rounds to 2^1024 or beyond is an infinity. *)
Definition rne_div (n d : Z) : Z :=
  let f := n / d in
  match 2 * (n mod d) ?= d with
  | Lt => f
  | Gt => f + 1
  | Eq => if Z.even f then f else f + 1
  end.

Definition round_double (q : Q) : Num :=
  let r := Qred q in
  let n := Qnum r * 2 ^ 1074 in
  let d := Z.pos (Qden r) in
  let e := Z.max 0 (Z.log2 (Z.abs n / d) - 52) in
  let m := rne_div n (d * 2 ^ e) in
  if 2 ^ 2098 <=? Z.abs m * 2 ^ e then Inf (m <? 0)
  else Fin (Qred (m * 2 ^ e # 2 ^ 1074)).

Arguments round_double : simpl never.

(** The value of a decimal literal, and of a number of a JSON text: the
    double nearest to it.  [literal (1 # 10)] is the number that [0.1]
    denotes. *)
Definition literal (q : Q) : Val := Number (round_double q).

(** *** What the host decides

    [LocalTZA t] is the offset of local time from UTC, in milliseconds, at
    the instant [t].  [parse_fallback] is [Date.parse] on every string that
    is not a date-only ISO string.  [format_month_year] is
    [toLocaleString('default', { month: 'short', year: 'numeric' })] on a
    valid date.  [localeCompare] is the collation of the default locale, as
    a sign.  [number_to_string] is Number::toString on a finite number that
    is not an integer below 10^21 and [string_to_number] is StringToNumber:
    ECMAScript fixes both, and the model takes them as given. *)
Record Host : Type := {
  LocalTZA : Z -> Z;
  parse_fallback : string -> option Z;
  format_month_year : Z -> string;
  localeCompare : string -> string -> Z;
  number_to_string : Q -> string;
  string_to_number : string -> Num
}.

Section Coercions.

Variable h : Host.

Definition Z_to_string (z : Z) : string := NilZero.string_of_int (Z.to_int z).

(** Number::toString in radix 10. *)
Definition num_to_string (n : Num) : string :=
  match n with
  | NaN => "NaN"
  | Fin q =>
      let r := Qred q in
      if (Pos.eqb (Qden r) 1 && (Z.abs (Qnum r) <? 10 ^ 21))%bool
      then Z_to_string (Qnum r)
      else number_to_string h r
  | Inf false => "Infinity"
  | Inf true => "-Infinity"
  end.

(** ToString.  An array prints its elements separated by commas, with
    undefined and null elements printed as the empty string; a plain
    object prints as [[object Object]]. *)
Fixpoint to_string (v : Val) : string :=
  match v with
  | Undefined => "undefined"
  | Null => "null"
  | Bool true => "true"
  | Bool false => "false"
  | Number n => num_to_string n
  | Str s => s
  | Arr _ elems =>
      String.concat ","
        (map (fun e => if nullish e then "" else to_string e) elems)
  | Obj _ _ => "[object Object]"
  end.

(** ToPrimitive: arrays and plain objects become their string. *)
Definition to_primitive (v : Val) : Val :=
  match v with
  | Arr _ _ | Obj _ _ => Str (to_string v)
  | _ => v
  end.

(** ToNumber. *)
Definition to_number (v : Val) : Num :=
  match to_primitive v with
  | Undefined => NaN
  | Null => Fin 0
  | Bool true => Fin 1
  | Bool false => Fin 0
  | Number n => n
  | Str s => string_to_number h s
  | _ => NaN
  end.

(** Number::add: the rounded sum of two finite numbers; an infinity
    absorbs a finite number and its like, and cancels its opposite to
    NaN. *)
Definition num_add (a b : Num) : Num :=
  match a, b with
  | Fin x, Fin y => round_double (x + y)
  | Inf s, Fin _ | Fin _, Inf s => Inf s
  | Inf s, Inf s' => if Bool.eqb s s' then Inf s else NaN
  | _, _ => NaN
  end.

(** Number::divide by an array length, a non-negative integer below
    2^32: the rounded quotient by a positive length; by the length 0, NaN
    on zero and the infinity of its sign on any other number. *)
Definition num_div_len (a : Num) (len : nat) : Num :=
  match a, len with
  | NaN, _ => NaN
  | Inf s, _ => Inf s
  | Fin x, O => if Qeq_bool x 0 then NaN else Inf (Qnum x <? 0)
  | Fin x, S _ => round_double (x / inject_Z (Z.of_nat len))
  end.

(** The [+] operator: concatenation as soon as one operand is a string
    after ToPrimitive, numeric addition otherwise. *)
Definition add (a b : Val) : Val :=
  let pa := to_primitive a in
  let pb := to_primitive b in
  if (is_string pa || is_string pb)%bool
  then Str (to_string pa ++ to_string pb)
  else Number (num_add (to_number pa) (to_number pb)).

(** [v / len] where [len] is an array length. *)
Definition div_len (v : Val) (len : nat) : Val :=
  Number (num_div_len (to_number v) len).

(** [String.prototype.padStart(n, '0')] *)
Fixpoint zeros (n : nat) : string :=
  match n with
  | O => ""
  | S n' => String "0" (zeros n')
  end.

Definition padStart0 (s : string) (n : nat) : string :=
  zeros (n - String.length s) ++ s.

(** [v.length], for [v] the value of a field: a TypeError on undefined and
    null, the element count of an array, the length of a string, the own
    property of an object, undefined on a boolean or a number. *)
Definition get_length (v : Val) : Completion Val :=
  match v with
  | Undefined | Null => Throw "TypeError: cannot read properties of undefined"
  | Arr _ elems => Normal (int (Z.of_nat (List.length elems)))
  | Str s => Normal (int (Z.of_nat (String.length s)))
  | Obj _ ps => Normal (get ps "length")
  | Bool _ | Number _ => Normal Undefined
  end.

End Coercions.

End Js.

(** ** Dates

    A Date object is its time value: milliseconds since the epoch in UTC,
    or NaN for an invalid date ([None]). *)

Module JsDate.

Import Js.

Definition TimeValue : Type := option Z.

Definition msPerDay : Z := 86400000.

Definition is_leap (y : Z) : bool :=
  ((y mod 4 =? 0) && negb (y mod 100 =? 0) || (y mod 400 =? 0))%bool.

Definition days_in_month (y m : Z) : Z :=
  if m =? 2 then (if is_leap y then 29 else 28)
  else if ((m =? 4) || (m =? 6) || (m =? 9) || (m =? 11))%bool then 30
  else 31.

(** Day number (days since 1970-01-01) of a day of the proleptic Gregorian
    calendar, month in 1..12; this is MakeDay. *)
Definition days_from_civil (y m d : Z) : Z :=
  let y' := if m <=? 2 then y - 1 else y in
  let era := y' / 400 in
  let yoe := y' - era * 400 in
  let mp := if 2 <? m then m - 3 else m + 9 in
  let doy := (153 * mp + 2) / 5 + d - 1 in
  let doe := yoe * 365 + yoe / 4 - yoe / 100 + doy in
  era * 146097 + doe - 719468.

(** The year and the month (1..12) of a day number; YearFromTime and
    MonthFromTime read these two components.  The calendar repeats every
    146097 days: [era] counts these periods and [doe] is the day within. *)
Definition civil_from_doe (era doe : Z) : Z * Z :=
  let yoe := (doe - doe / 1460 + doe / 36524 - doe / 146096) / 365 in
  let doy := doe - (365 * yoe + yoe / 4 - yoe / 100) in
  let mp := (5 * doy + 2) / 153 in
  let m := if mp <? 10 then mp + 3 else mp - 9 in
  let y := yoe + era * 400 in
  (if m <=? 2 then y + 1 else y, m).

Definition civil_from_days (days : Z) : Z * Z :=
  let z := days + 719468 in
  let era := z / 146097 in
  civil_from_doe era (z - era * 146097).

Definition Day (t : Z) : Z := t / msPerDay.

Definition YearFromTime (t : Z) : Z := fst (civil_from_days (Day t)).

(** MonthFromTime counts months from 0. *)
Definition MonthFromTime (t : Z) : Z := snd (civil_from_days (Day t)) - 1.

(** *** Date.parse *)

Definition digit (c : ascii) : option Z :=
  let n := Z.of_nat (nat_of_ascii c) in
  if ((48 <=? n) && (n <=? 57))%bool then Some (n - 48) else None.

Definition digits2 (a b : ascii) : option Z :=
  match digit a, digit b with
  | Some x, Some y => Some (10 * x + y)
  | _, _ => None
  end.

Definition digits4 (a b c d : ascii) : option Z :=
  match digits2 a b, digits2 c d with
  | Some x, Some y => Some (100 * x + y)
  | _, _ => None
  end.

(** The date-only form [YYYY-MM-DD] of the ECMAScript date-time string
    format, which is read as midnight UTC of a day that exists. *)
Definition parse_date_only (s : string) : option Z :=
  match s with
  | String y1 (String y2 (String y3 (String y4 (String "-"
      (String m1 (String m2 (String "-"
      (String d1 (String d2 EmptyString))))))))) =>
      match digits4 y1 y2 y3 y4, digits2 m1 m2, digits2 d1 d2 with
      | Some y, Some m, Some d =>
          if ((1 <=? m) && (m <=? 12) && (1 <=? d) && (d <=? days_in_month y m))%bool
          then Some (days_from_civil y m d * msPerDay)
          else None
      | _, _, _ => None
      end
  | _ => None
  end.

Section WithHost.

Variable h : Host.

Definition Date_parse (s : string) : TimeValue :=
  match parse_date_only s with
  | Some t => Some t
  | None => parse_fallback h s
  end.

(** TimeClip after ToNumber: NaN stays NaN, a time further than
    8.64e15 ms from the epoch is NaN, a fraction is truncated. *)
Definition TimeClip (n : Num) : TimeValue :=
  match n with
  | NaN | Inf _ => None
  | Fin q =>
      if Z.abs (Qnum q) <=? 8640000000000000 * Zpos (Qden q)
      then Some (Qnum q ÷ Zpos (Qden q))
      else None
  end.

(** [new Date(v)] *)
Definition new_Date (v : Val) : TimeValue :=
  match to_primitive h v with
  | Str s => Date_parse s
  | p => TimeClip (to_number h p)
  end.

Definition LocalTime (t : Z) : Z := t + LocalTZA h t.

(** [date.getFullYear()] and [date.getMonth()]: NaN on an invalid date. *)
Definition getFullYear (d : TimeValue) : Num :=
  match d with
  | None => NaN
  | Some t => Fin (inject_Z (YearFromTime (LocalTime t)))
  end.

Definition getMonth (d : TimeValue) : Num :=
  match d with
  | None => NaN
  | Some t => Fin (inject_Z (MonthFromTime (LocalTime t)))
  end.

(** [a >= b] and [a <= b] on two Date objects: both become their time
    values, and a comparison with NaN is false. *)
Definition date_ge (a b : TimeValue) : bool :=
  match a, b with
  | Some x, Some y => y <=? x
  | _, _ => false
  end.

Definition date_le (a b : TimeValue) : bool :=
  match a, b with
  | Some x, Some y => x <=? y
  | _, _ => false
  end.

(** [d.toLocaleString('default', { month: 'short', year: 'numeric' })]:
    the fixed text [Invalid Date] on an invalid date, the host's
    formatting otherwise. *)
Definition toLocaleString_month_year (d : TimeValue) : string :=
  match d with
  | None => "Invalid Date"
  | Some t => format_month_year h t
  end.

End WithHost.

End JsDate.

(** ** Array helpers *)

Section ArrayHelpers.

Context {A B : Type}.

(** [Array.prototype.reduce] with a callback that may throw. *)
Fixpoint reduce (f : B -> A -> Completion B) (l : list A) (acc : B) : Completion B :=
  match l with
  | [] => Normal acc
  | x :: l' => acc' <- f acc x ;; reduce f l' acc'
  end.

(** [Array.prototype.map] with a callback that may throw. *)
Fixpoint mapM (f : A -> Completion B) (l : list A) : Completion (list B) :=
  match l with
  | [] => Normal []
  | x :: l' => y <- f x ;; ys <- mapM f l' ;; Normal (y :: ys)
  end.

(** [Array.prototype.sort(cmp)].  ECMAScript asks for a stable sort, so the
    result is determined whenever [cmp] is a consistent comparator; for the
    other comparators the order is the engine's choice, and this insertion
    sort is one such engine. *)
Fixpoint sort_insert (cmp : A -> A -> Z) (x : A) (l : list A) : list A :=
  match l with
  | [] => [x]
  | y :: l' => if 0 <? cmp x y then y :: sort_insert cmp x l' else x :: l
  end.

Fixpoint Array_sort (cmp : A -> A -> Z) (l : list A) : list A :=
  match l with
  | [] => []
  | x :: l' => sort_insert cmp x (Array_sort cmp l')
  end.

End ArrayHelpers.

(** ** The reporting pipeline *)

Module Group.
(** [{ name: key, items: [] }] *)
Record t : Type := { name : Js.Val; items : list Js.Props }.
End Group.

Module Point.
(** [{ name, value }] *)
Record t : Type := { name : Js.Val; value : Js.Val }.
End Point.

Module Reports.

Import Js JsDate.

Inductive ReportMode : Type := database | file.

Inductive DataSource : Type := donations | activities | projects | cases.

(** The property list of the accumulator of the group stage, in creation
    order. *)
Definition Grouped : Type := list (string * Group.t).

(** The names every plain object inherits from [Object.prototype]; each is
    bound to a function (or, for [__proto__], to the prototype), which is
    truthy and has no [items]. *)
Definition proto_member (k : string) : bool :=
  existsb (String.eqb k)
    ["constructor"; "__defineGetter__"; "__defineSetter__"; "hasOwnProperty";
     "__lookupGetter__"; "__lookupSetter__"; "isPrototypeOf";
     "propertyIsEnumerable"; "toString"; "valueOf"; "__proto__";
     "toLocaleString"].

(** *** Enumeration order of an object

    A property key that is an array index (the canonical decimal form of an
    integer from 0 to 2^32 - 2) is enumerated before every other key, in
    ascending numeric order; the other keys follow in creation order. *)
Fixpoint all_digits (s : string) (acc : Z) : option Z :=
  match s with
  | EmptyString => Some acc
  | String c s' =>
      match digit c with
      | Some d => all_digits s' (10 * acc + d)
      | None => None
      end
  end.

Definition array_index (k : string) : option Z :=
  match k with
  | EmptyString => None
  | _ =>
      match all_digits k 0 with
      | Some n =>
          if (String.eqb (Z_to_string n) k && (n <=? 4294967294))%bool
          then Some n else None
      | None => None
      end
  end.

Definition index_of {V} (kv : string * V) : Z :=
  match array_index (fst kv) with Some n => n | None => 0 end.

Definition is_index {V} (kv : string * V) : bool :=
  match array_index (fst kv) with Some _ => true | None => false end.

Definition own_entries {V} (o : list (string * V)) : list (string * V) :=
  (Array_sort (fun a b => index_of a - index_of b) (filter is_index o)
   ++ filter (fun kv => negb (is_index kv)) o)%list.

(** [Object.values(o)] *)
Definition Object_values {V} (o : list (string * V)) : list V :=
  map snd (own_entries o).

(** [o[k] = v] on a key that [o] already owns. *)
Fixpoint assign {V} (k : string) (v : V) (o : list (string * V)) : list (string * V) :=
  match o with
  | [] => []
  | (k', v') :: o' =>
      if String.eqb k k' then (k', v) :: o' else (k', v') :: assign k v o'
  end.

Section Pipeline.

Variable h : Host.

Definition baseData_of (dataSource : DataSource)
    (donations_ activities_ projects_ cases_ : list Props) : list Props :=
  match dataSource with
  | donations => donations_
  | activities => activities_
  | projects => projects_
  | cases => cases_
  end.

Definition dateKey_of (dataSource : DataSource) : string :=
  match dataSource with
  | donations => "donationDate"
  | activities => "activityDate"
  | projects => "startDate"
  | cases => "createdAt"
  end.

(** **** 1. Filter *)

(** One turn of [for (const key in otherFilters)]. *)
Definition filter_step (otherFilters item : Props) (passes : bool) (key : string) : bool :=
  if (truthy (get otherFilters key)
      && negb (strict_eq (get otherFilters key) (Str "all")))%bool
  then (passes && strict_eq (get item key) (get otherFilters key))%bool
  else passes.

(** The callback of [baseData.filter]. *)
Definition passes_filters (filters : Props) (dateKey : string) (item : Props) : bool :=
  let dateRange := get filters "dateRange" in
  let otherFilters := without "dateRange" filters in
  let passes := true in
  let passes :=
    if (truthy (opt_get dateRange "start") && negb (String.eqb dateKey ""))%bool
    then (passes && date_ge (new_Date h (get item dateKey))
                            (new_Date h (opt_get dateRange "start")))%bool
    else passes in
  let passes :=
    if (truthy (opt_get dateRange "end") && negb (String.eqb dateKey ""))%bool
    then (passes && date_le (new_Date h (get item dateKey))
                            (new_Date h (opt_get dateRange "end")))%bool
    else passes in
  fold_left (filter_step otherFilters item) (keys otherFilters) passes.

Definition filteredData (filters : Props) (dateKey : string) (baseData : list Props) : list Props :=
  filter (passes_filters filters dateKey) baseData.

(** **** 2. Group *)

(** [`${date.getFullYear()}-${String(date.getMonth() + 1).padStart(2, '0')}`] *)
Definition month_key (dateKey : string) (item : Props) : string :=
  let date := new_Date h (get item dateKey) in
  to_string h (Number (getFullYear h date)) ++ "-"
  ++ padStart0 (to_string h (add h (Number (getMonth h date)) (int 1))) 2.

Definition group_key (groupBy dateKey : string) (item : Props) : Val :=
  if String.eqb groupBy "month" then Str (month_key dateKey item)
  else get item groupBy.

(** The callback of [filteredData.reduce].  [acc[key]] turns the key into a
    property key.  When [acc] owns it the item is pushed to that bucket.
    When it does not and the name is inherited from [Object.prototype],
    [!acc[key]] is false, no bucket is made, and [acc[key].items.push]
    reads [push] of undefined. *)
Definition group_step (groupBy dateKey : string) (acc : Grouped) (item : Props) : Completion Grouped :=
  let key := group_key groupBy dateKey item in
  if nullish key then Normal acc
  else
    let k := to_string h key in
    match lookup k acc with
    | Some g =>
        Normal (assign k {| Group.name := Group.name g;
                            Group.items := (Group.items g ++ [item])%list |} acc)
    | None =>
        if proto_member k
        then Throw "TypeError: cannot read properties of undefined (reading 'push')"
        else Normal (acc ++ [(k, {| Group.name := key; Group.items := [item] |})])%list
    end.

Definition grouped (groupBy dateKey : string) (data : list Props) : Completion Grouped :=
  reduce (group_step groupBy dateKey) data [].

(** **** 3. Metric *)

(** [items.reduce((sum, i) => sum + i.amount, 0)] *)
Definition sum_amount (items : list Props) : Val :=
  fold_left (fun sum i => add h sum (get i "amount")) items (int 0).

(** [items.reduce((sum, i) => sum + i.tasks.length, 0)] *)
Definition sum_tasks (items : list Props) : Completion Val :=
  reduce (fun sum i => len <- get_length (get i "tasks") ;; Normal (add h sum len))
         items (int 0).

Definition metric_value (metric : string) (items : list Props) : Completion Val :=
  if String.eqb metric "count" then Normal (int (Z.of_nat (List.length items)))
  else if String.eqb metric "totalAmount" then Normal (sum_amount items)
  else if String.eqb metric "avgAmount" then
    Normal (if (0 <? List.length items)%nat
            then div_len h (sum_amount items) (List.length items)
            else int 0)
  else if String.eqb metric "taskCount" then sum_tasks items
  else Normal (int (Z.of_nat (List.length items))).

(** **** 4. Label *)

(** [a || b] *)
Definition or_else (a b : Val) : Val := if truthy a then a else b.

(** [people.find(p => p.id === name)?.name || name] *)
Definition lookup_name (people : list Props) (name : Val) : Val :=
  or_else
    (match find (fun p => strict_eq (get p "id") name) people with
     | Some p => get p "name"
     | None => Undefined
     end)
    name.

Definition month_label (name : Val) : string :=
  toLocaleString_month_year h (Date_parse h (to_string h name ++ "-02")).

Definition display_name (groupBy : string) (clients teamMembers : list Props)
    (group : Group.t) : Val :=
  let name := Group.name group in
  let name :=
    if String.eqb groupBy "clientId" then lookup_name clients name else name in
  let name :=
    if (String.eqb groupBy "createdById" || String.eqb groupBy "assignedToId")%bool
    then lookup_name teamMembers name else name in
  let name :=
    if String.eqb groupBy "month" then Str (month_label name) else name in
  name.

Definition to_point (groupBy metric : string) (clients teamMembers : list Props)
    (group : Group.t) : Completion Point.t :=
  let name := display_name groupBy clients teamMembers group in
  value <- metric_value metric (Group.items group) ;;
  Normal {| Point.name := name; Point.value := value |}.

(** **** 5. Order *)

(** The comparator handed to [sort]. *)
Definition compare_points (a b : Point.t) : Z :=
  match Point.name a, Point.name b with
  | Str x, Str y => localeCompare h x y
  | _, _ => 0
  end.

Definition processedData (reportMode : ReportMode) (dataSource : DataSource)
    (filters : Props) (groupBy metric : string)
    (donations_ activities_ projects_ cases_ clients teamMembers : list Props)
    : Completion (list Point.t) :=
  match reportMode with
  | file => Normal []
  | database =>
      let baseData := baseData_of dataSource donations_ activities_ projects_ cases_ in
      let dateKey := dateKey_of dataSource in
      let filtered := filteredData filters dateKey baseData in
      if String.eqb groupBy "" then Normal []
      else
        groups <- grouped groupBy dateKey filtered ;;
        points <- mapM (to_point groupBy metric clients teamMembers)
                       (Object_values groups) ;;
        Normal (Array_sort compare_points points)
  end.

End Pipeline.

End Reports.

(** ** The filter predicate engine

    [applyFilterLogic] is imported by the project list from
    [./filters/filterLogic], a file that is not part of the sources at
    hand; only the call [applyFilterLogic(projects, activeFilter)] is.  The
    definitions of this module follow the written description of the
    engine. *)

Module FilterLogic.

Import Js JsDate.

(** Modelled from the spec: the operators of a [FilterCondition] of
    [filterLogic]; [other] stands for any name the engine does not know. *)
Inductive Operator : Type :=
| equals | notEquals | contains | greaterThan | lessThan
| before | after | isEmpty | isNotEmpty
| other (name : string).

Inductive Combinator : Type := AND | OR.

(** Modelled from the spec: [{ field, operator, value }] of
    [filterLogic]. *)
Record FilterCondition : Type := {
  field : string;
  operator : Operator;
  value : Val
}.

(** Modelled from the spec: a filter group of [filterLogic] is a node of
    the expression tree, [Node = Condition | Group(combinator, [Node])]. *)
Inductive Node : Type :=
| Condition (c : FilterCondition)
| Group (combinator : Combinator) (conditions : list Node).

Definition lower (c : ascii) : ascii :=
  let n := nat_of_ascii c in
  if ((65 <=? n) && (n <=? 90))%nat then ascii_of_nat (n + 32) else c.

Fixpoint lowercase (s : string) : string :=
  match s with
  | EmptyString => EmptyString
  | String c s' => String (lower c) (lowercase s')
  end.

Fixpoint includes (needle s : string) : bool :=
  if String.prefix needle s then true
  else match s with
       | EmptyString => false
       | String _ s' => includes needle s'
       end.

Section Evaluate.

Variable h : Host.

(** Both sides as comparable numbers: a number as it is, anything else
    through its date. *)
Definition comparable (v : Val) : option Z :=
  match v with
  | Number (Fin q) => Some (Qfloor q)
  | Number NaN | Undefined | Null | Bool _ => None
  | _ => new_Date h v
  end.

(** The calendar day of a value read as a date, time of day left out. *)
Definition calendar_day (v : Val) : option Z :=
  match new_Date h v with
  | Some t => Some (Day (LocalTime h t))
  | None => None
  end.

Definition holds2 (rel : Z -> Z -> bool) (a b : option Z) : bool :=
  match a, b with
  | Some x, Some y => rel x y
  | _, _ => false
  end.

Definition is_empty (v : Val) : bool :=
  match v with
  | Undefined | Null => true
  | Str s => String.eqb s ""
  | _ => false
  end.

(** Modelled from the spec: the leaf evaluation of [filterLogic], one case
    per operator, an operator the engine does not know being a non-match. *)
Definition evaluate_condition (record : Props) (c : FilterCondition) : bool :=
  let v := get record (field c) in
  match operator c with
  | equals => strict_eq (to_primitive h v) (to_primitive h (value c))
  | notEquals => negb (strict_eq (to_primitive h v) (to_primitive h (value c)))
  | contains =>
      includes (lowercase (to_string h (value c))) (lowercase (to_string h v))
  | greaterThan => holds2 Z.gtb (comparable v) (comparable (value c))
  | lessThan => holds2 Z.ltb (comparable v) (comparable (value c))
  | before => holds2 Z.ltb (calendar_day v) (calendar_day (value c))
  | after => holds2 Z.gtb (calendar_day v) (calendar_day (value c))
  | isEmpty => is_empty v
  | isNotEmpty => negb (is_empty v)
  | other _ => false
  end.

(** Modelled from the spec: the recursive evaluation of [filterLogic].  AND
    stops at the first child that fails and OR at the first that holds; a
    group without children holds. *)
Fixpoint evaluate_node (record : Props) (n : Node) : bool :=
  match n with
  | Condition c => evaluate_condition record c
  | Group AND conditions =>
      (fix all (l : list Node) : bool :=
         match l with
         | [] => true
         | c :: l' => if evaluate_node record c then all l' else false
         end) conditions
  | Group OR [] => true
  | Group OR conditions =>
      (fix any (l : list Node) : bool :=
         match l with
         | [] => false
         | c :: l' => if evaluate_node record c then true else any l'
         end) conditions
  end.

(** Modelled from the spec: [evaluate(record, group)] of [filterLogic]; an
    absent group lets every record pass. *)
Definition evaluate (record : Props) (group : option Node) : bool :=
  match group with
  | None => true
  | Some g => evaluate_node record g
  end.

(** Modelled from the spec: [applyFilterLogic(records, group)] of
    [filterLogic], which keeps the matching records in their order. *)
Definition applyFilterLogic (records : list Props) (group : option Node) : list Props :=
  filter (fun record => evaluate record group) records.

End Evaluate.

End FilterLogic.

(** ** What the specification says, in its own words

    The predicates below restate the sentences of the specification that
    the theorems compare with the code. *)

Module Spec.

Import Js JsDate Reports.

Section Words.

Variable h : Host.

(** A bound or a filter value is set when it is truthy. *)
Definition is_set (v : Val) : Prop := truthy v = true.

(** The date [d] is on or after (on or before) the bound: both are dates
    and the instants compare, the bound included. *)
Definition on_or_after (d bound : Val) : Prop :=
  exists t b, new_Date h d = Some t /\ new_Date h bound = Some b /\ b <= t.

Definition on_or_before (d bound : Val) : Prop :=
  exists t b, new_Date h d = Some t /\ new_Date h bound = Some b /\ t <= b.

(** A filter entry constrains when its value is set and is not ['all']. *)
Definition constrains (v : Val) : Prop := is_set v /\ v <> Str "all".

(** The record meets the filters configuration. *)
Definition meets_filters (filters : Props) (dateKey : string) (item : Props) : Prop :=
  let dateRange := get filters "dateRange" in
  (is_set (opt_get dateRange "start") ->
     on_or_after (get item dateKey) (opt_get dateRange "start"))
  /\ (is_set (opt_get dateRange "end") ->
     on_or_before (get item dateKey) (opt_get dateRange "end"))
  /\ (forall key, key <> "dateRange" -> constrains (get filters key) ->
     strict_eq (get item key) (get filters key) = true).

(** No bound is set and no entry constrains. *)
Definition unconstrained (filters : Props) : Prop :=
  let dateRange := get filters "dateRange" in
  ~ is_set (opt_get dateRange "start")
  /\ ~ is_set (opt_get dateRange "end")
  /\ (forall key, key <> "dateRange" -> ~ constrains (get filters key)).

(** The [amount] of a record as a rational, where it has one.  [null]
    counts as 0, the way [+] reads it. *)
Definition amount_of (i : Props) : option Q :=
  match get i "amount" with
  | Number (Fin q) => Some q
  | Null => Some 0%Q
  | _ => None
  end.

Definition total (items : list Props) : Q :=
  fold_left (fun s i => match amount_of i with Some q => s + q | None => s end)%Q
            items 0%Q.

Definition mean (items : list Props) : Q :=
  (total items / inject_Z (Z.of_nat (List.length items)))%Q.

(** The sum as [+] accumulates it, from 0 and from left to right, each
    step rounded to a double, and its quotient by the number of records. *)
Definition double_total (items : list Props) : Num :=
  fold_left (fun s i => match amount_of i with
                        | Some q => num_add s (Fin q)
                        | None => s
                        end)
            items (Fin 0).

Definition double_mean (items : list Props) : Num :=
  num_div_len (double_total items) (List.length items).

(** The amount as an integer, where it is one, and the sum of the
    magnitudes of the integers of a bucket.  While this sum is at most
    2^53 every partial sum is an integer that a double holds. *)
Definition amount_Z (i : Props) : option Z :=
  match amount_of i with
  | Some q => if Pos.eqb (Qden (Qred q)) 1 then Some (Qnum (Qred q)) else None
  | None => None
  end.

Definition magnitude (items : list Props) : Z :=
  fold_right (fun i s => match amount_Z i with
                         | Some z => Z.abs z + s
                         | None => s
                         end)
             0 items.

Definition safe_integers (items : list Props) : Prop :=
  Forall (fun i => amount_Z i <> None) items /\ magnitude items <= 2 ^ 53.

(** The amount is a number or null (the values [+] adds as numbers), and
    the amount is a finite number. *)
Definition amount_adds (i : Props) : Prop := amount_of i <> None.

Definition amount_numeric (i : Props) : Prop :=
  exists q, get i "amount" = Number (Fin q).

(** The amount is undefined, null, a boolean or a number: the values that
    [+] adds to a number as a number. *)
Definition amount_number_like (i : Props) : Prop :=
  match get i "amount" with
  | Undefined | Null | Bool _ | Number _ => True
  | _ => False
  end.

Definition amount_missing (i : Props) : Prop := get i "amount" = Undefined.

(** The records of [data] that the group stage keeps, and the property
    keys of their group keys in the order of first encounter. *)
Definition has_key (groupBy dateKey : string) (item : Props) : bool :=
  negb (nullish (group_key h groupBy dateKey item)).

Definition keyed (groupBy dateKey : string) (data : list Props) : list Props :=
  filter (has_key groupBy dateKey) data.

Fixpoint first_seen (ks seen : list string) : list string :=
  match ks with
  | [] => []
  | k :: ks' =>
      if existsb (String.eqb k) seen then first_seen ks' seen
      else k :: first_seen ks' (seen ++ [k])%list
  end.

(** The property key of the group key of a record. *)
Definition key_string (groupBy dateKey : string) (item : Props) : string :=
  to_string h (group_key h groupBy dateKey item).

Definition first_seen_keys (groupBy dateKey : string) (data : list Props) : list string :=
  first_seen (map (key_string groupBy dateKey) (keyed groupBy dateKey data)) [].

(** Adjacent points whose names are both strings are in ascending order
    of the collation. *)
Definition adjacent_ascending (pts : list Point.t) : Prop :=
  forall l1 a b l2 x y,
    pts = (l1 ++ a :: b :: l2)%list ->
    Point.name a = Str x -> Point.name b = Str y ->
    localeCompare h x y <= 0.

Definition no_string_name (pts : list Point.t) : Prop :=
  Forall (fun p => is_string (Point.name p) = false) pts.

(** The collation never ranks two strings each above the other. *)
Definition collation_antisymmetric : Prop :=
  forall x y, 0 < localeCompare h x y -> localeCompare h y x <= 0.

(** The order in which an object enumerates its own properties: the
    entries whose key is an array index, by ascending index, then the other
    entries as they were created. *)
Definition enumeration {V} (o e : list (string * V)) : Prop :=
  exists idx,
    e = (idx ++ filter (fun kv => negb (is_index kv)) o)%list
    /\ Permutation idx (filter is_index o)
    /\ Sorted (fun a b => index_of a <= index_of b) idx.

(** The metric counts records: it is [count] or a selector the switch does
    not know. *)
Definition counts_records (metric : string) : Prop :=
  metric <> "totalAmount" /\ metric <> "avgAmount" /\ metric <> "taskCount".

(** [check] holds on the [n] integers from [z] on. *)
Fixpoint holds_from (check : Z -> bool) (n : nat) (z : Z) : bool :=
  match n with
  | O => true
  | S n' => (check z && holds_from check n' (z + 1))%bool
  end.

(** The month of a day of the 146097-day period is one of the twelve. *)
Definition month_in_year (doe : Z) : bool :=
  let m := snd (civil_from_doe 0 doe) in ((1 <=? m) && (m <=? 12))%bool.

(** How many records the buckets of a grouped object hold. *)
Definition held (groups : Grouped) : nat :=
  list_sum (map (fun kv => List.length (Group.items (snd kv))) groups).

(** The bucket keyed [k] holds records whose group key is defined and
    reads [k], and at least one of them. *)
Definition bucket_sound (groupBy dateKey : string) (kv : string * Group.t) : Prop :=
  Group.items (snd kv) <> []
  /\ forall i, In i (Group.items (snd kv)) ->
       has_key groupBy dateKey i = true /\ key_string groupBy dateKey i = fst kv.

End Words.

End Spec.

(** ** Hosts and records used as concrete instances *)

Module Examples.

Import Js JsDate Reports.

(** Code-unit order, the collation of a locale without tailoring on ASCII
    text of one case. *)
Definition code_unit_order (a b : string) : Z :=
  match String.compare a b with
  | Lt => -1
  | Eq => 0
  | Gt => 1
  end.

Definition month_names : list string :=
  ["Jan"; "Feb"; "Mar"; "Apr"; "May"; "Jun";
   "Jul"; "Aug"; "Sep"; "Oct"; "Nov"; "Dec"].

(** The en-US rendering of [{ month: 'short', year: 'numeric' }] in a zone
    at a fixed offset. *)
Definition en_US_month_year (offset t : Z) : string :=
  nth (Z.to_nat (MonthFromTime (t + offset))) month_names ""
  ++ " " ++ Z_to_string (YearFromTime (t + offset)).

(** Decimal digits of a rational, sixteen places after the point. *)
Fixpoint fraction_digits (n : nat) (r den : Z) : string :=
  match n with
  | O => ""
  | S n' =>
      if r =? 0 then ""
      else Z_to_string ((10 * r) / den) ++ fraction_digits n' ((10 * r) mod den) den
  end.

Definition decimal_digits (q : Q) : string :=
  let den := Zpos (Qden q) in
  let a := Z.abs (Qnum q) in
  (if Qnum q <? 0 then "-" else "")
  ++ Z_to_string (a / den) ++ "." ++ fraction_digits 16 (a mod den) den.

(** StringToNumber on unsigned decimal integers; the empty string is 0. *)
Definition decimal_number (s : string) : Num :=
  match all_digits s 0 with
  | Some n => round_double (inject_Z n)
  | None => NaN
  end.

Definition host (offset : Z) (fallback : string -> option Z) : Host :=
  {| LocalTZA := fun _ => offset;
     parse_fallback := fallback;
     format_month_year := en_US_month_year offset;
     localeCompare := code_unit_order;
     number_to_string := decimal_digits;
     string_to_number := decimal_number |}.

(** A host in UTC whose parser knows the ISO format only. *)
Definition utc_host : Host := host 0 (fun _ => None).

(** The same host five hours west of UTC (New York in winter). *)
Definition new_york_host : Host := host (-18000000) (fun _ => None).

(** A parser with a legacy fallback that skips the words it does not know
    and reads a lone trailing number as a month of 2001, so that
    [NaN-NaN-02] is the first of February 2001. *)
Definition legacy_fallback (s : string) : option Z :=
  if String.eqb s "NaN-NaN-02" then Some (days_from_civil 2001 2 1 * msPerDay)
  else None.

Definition lenient_host : Host := host 0 legacy_fallback.

(** [{ dateRange: { start: '', end: '' } }], the initial filters. *)
Definition no_filters : Props :=
  [("dateRange", Obj 1 [("start", Str ""); ("end", Str "")])].

Definition donation (date : string) (amount : Z) : Props :=
  [("donationDate", Str date); ("amount", int amount)].

Definition jan15 : Props := donation "2024-01-15" 100.

(** Donations of 0.1, 0.2 and 0.3: the doubles that these literals
    denote. *)
Definition gift (amount : Q) : Props := [("amount", literal amount)].
Definition a_tenth : Props := gift (1 # 10).
Definition a_fifth : Props := gift (2 # 10).
Definition three_tenths : Props := gift (3 # 10).
Definition jan31 : Props := donation "2024-01-31" 300.
Definition feb01 : Props := donation "2024-02-01" 50.

(** A donation whose amount was never entered, one whose date is not a
    date, and one for a campaign named like a member of every object. *)
Definition no_amount : Props := [("donationDate", Str "2024-01-15")].
Definition no_date : Props := [("donationDate", Str "soon"); ("amount", int 10)].
Definition campaign_constructor : Props :=
  [("donationDate", Str "2024-01-15"); ("amount", int 10);
   ("campaign", Str "constructor")].

(** Two cases whose priority is stored as a number. *)
Definition priority2 : Props := [("createdAt", Str "2024-01-15"); ("priority", int 2)].
Definition priority1 : Props := [("createdAt", Str "2024-01-16"); ("priority", int 1)].

End Examples.

(** ** The controls of the report builder

    The rest of the [Reports] component around [processedData]: the
    options it offers for each data source, the effects that reset the
    selection, the handlers of the filter controls, the formatter of the
    chart and of the table, and the request for insights. *)

Module ReportsView.

Import Js JsDate Reports.

Inductive ChartType : Type := bar | pie | line.

(** [{ value, label }] *)
Record SelectOption : Type := { value : string; label : string }.

(** [{ key, type: 'date' }] and [{ key, type: 'select', options }] *)
Inductive FilterControl : Type :=
| date_control (key : string)
| select_control (key : string) (options : list SelectOption).

Definition control_key (f : FilterControl) : string :=
  match f with
  | date_control key => key
  | select_control key _ => key
  end.

(** [{ ...o, [k]: v }]: the properties of [o] in their order, with [k]
    rewritten in place when [o] has it and added last when it has not. *)
Definition set (k : string) (v : Val) (o : Props) : Props :=
  match lookup k o with
  | Some _ => assign k v o
  | None => (o ++ [(k, v)])%list
  end.

(** The own enumerable properties that [{ ...v }] copies: those of an
    object, the elements of an array and the characters of a string under
    their indices, none of any other value. *)
Fixpoint indexed {A} (f : A -> Val) (l : list A) (i : Z) : Props :=
  match l with
  | [] => []
  | x :: l' => (Z_to_string i, f x) :: indexed f l' (i + 1)
  end.

Definition spread (v : Val) : Props :=
  match v with
  | Obj _ ps => ps
  | Arr _ elems => indexed (fun e => e) elems 0
  | Str s => indexed (fun c => Str (String c EmptyString)) (list_ascii_of_string s) 0
  | _ => []
  end.

Section Config.

(** [Object.values] of the enumerations [ActivityType], [ProjectStatus]
    and [CasePriority] of [../types], a module the sources at hand do not
    include. *)
Variables ActivityType ProjectStatus CasePriority : list string.

Definition enum_options (values : list string) : list SelectOption :=
  map (fun t => {| label := t; value := t |}) values.

Definition dateFilter : FilterControl := date_control "dateRange".

(** The [useMemo] that computes [groupOptions], [metricOptions] and
    [filterControls]. *)
Definition groupOptions (reportMode : ReportMode) (dataSource : DataSource)
    : list SelectOption :=
  match reportMode with
  | file => []
  | database =>
      match dataSource with
      | donations =>
          [{| value := "campaign"; label := "Campaign" |};
           {| value := "clientId"; label := "Client" |};
           {| value := "month"; label := "Month" |}]
      | activities =>
          [{| value := "type"; label := "Type" |};
           {| value := "createdById"; label := "Team Member" |};
           {| value := "clientId"; label := "Client" |};
           {| value := "month"; label := "Month" |}]
      | projects =>
          [{| value := "status"; label := "Status" |};
           {| value := "clientId"; label := "Client" |}]
      | cases =>
          [{| value := "status"; label := "Status" |};
           {| value := "priority"; label := "Priority" |};
           {| value := "assignedToId"; label := "Assignee" |};
           {| value := "month"; label := "Month" |}]
      end
  end.

Definition metricOptions (reportMode : ReportMode) (dataSource : DataSource)
    : list SelectOption :=
  match reportMode with
  | file => []
  | database =>
      match dataSource with
      | donations =>
          [{| value := "totalAmount"; label := "Total Amount" |};
           {| value := "count"; label := "Number of Donations" |};
           {| value := "avgAmount"; label := "Average Amount" |}]
      | activities => [{| value := "count"; label := "Number of Activities" |}]
      | projects =>
          [{| value := "count"; label := "Number of Projects" |};
           {| value := "taskCount"; label := "Total Tasks" |}]
      | cases => [{| value := "count"; label := "Number of Cases" |}]
      end
  end.

Definition filterControls (reportMode : ReportMode) (dataSource : DataSource)
    : option (list FilterControl) :=
  match reportMode with
  | file => None
  | database =>
      Some match dataSource with
           | donations => [dateFilter]
           | activities =>
               [dateFilter; select_control "type" (enum_options ActivityType)]
           | projects => [select_control "status" (enum_options ProjectStatus)]
           | cases =>
               [dateFilter; select_control "priority" (enum_options CasePriority)]
           end
  end.

End Config.

(** The part of the component state that the effects, the handlers and
    [processedData] read or write. *)
Record State : Type := {
  reportMode : ReportMode;
  dataSource : DataSource;
  filters : Props;
  groupBy : string;
  metric : string;
  chartType : ChartType;
  aiSummary : string;
  aiInsights : string;
  selectedFile : option (string * list Props)
}.

(** [group[0]?.value || ''] *)
Definition first_value (options : list SelectOption) : string :=
  match options with
  | o :: _ => value o
  | [] => ""
  end.

(** [{ dateRange: { start: '', end: '' } }]; the reference names the
    object this literal creates. *)
Definition initial_filters (ref : positive) : Props :=
  [("dateRange", Obj ref [("start", Str ""); ("end", Str "")])].

(** [groupBy === 'month' ? 'line' : 'bar'] *)
Definition chart_for (groupBy : string) : ChartType :=
  if String.eqb groupBy "month" then line else bar.

(** The effect that runs when the data source or the mode changes.  The
    chart type it sets is computed from the [groupBy] of the render that
    scheduled the effect. *)
Definition reset_selection (ref : positive) (s : State) : State :=
  {| reportMode := reportMode s;
     dataSource := dataSource s;
     filters := initial_filters ref;
     groupBy := first_value (groupOptions (reportMode s) (dataSource s));
     metric := first_value (metricOptions (reportMode s) (dataSource s));
     chartType := chart_for (groupBy s);
     aiSummary := "";
     aiInsights := "";
     selectedFile := None |}.

(** The effect that runs when [groupBy] changes. *)
Definition sync_chartType (s : State) : State :=
  {| reportMode := reportMode s;
     dataSource := dataSource s;
     filters := filters s;
     groupBy := groupBy s;
     metric := metric s;
     chartType := chart_for (groupBy s);
     aiSummary := aiSummary s;
     aiInsights := aiInsights s;
     selectedFile := selectedFile s |}.

(** [setFilters(prev => ({ ...prev, [key]: value }))] *)
Definition handleFilterChange (key : string) (v : Val) (prev : Props) : Props :=
  set key v prev.

(** The value a [Select] of the filters shows: [filters[f.key] || 'all']. *)
Definition select_value (filters_ : Props) (key : string) : Val :=
  or_else (get filters_ key) (Str "all").

(** The two inputs of [DateRangeFilter]: [onChange({ ...value, start })]
    and [onChange({ ...value, end })], which the component hands to
    [handleFilterChange('dateRange', val)]. *)
Definition edit_range (ref : positive) (bound text : string) (range : Val) : Val :=
  Obj ref (set bound (Str text) (spread range)).

Definition handleRangeChange (ref : positive) (bound text : string) (prev : Props) : Props :=
  handleFilterChange "dateRange" (edit_range ref bound text (get prev "dateRange")) prev.

(** What the user can do to the filters with the controls that
    [filterControls.map] renders: choose an option of a select, which
    calls [handleFilterChange(f.key, e.target.value)] with the value of
    one of the options [All ...] and [f.options], or type in one of the
    two inputs of the date range. *)
Inductive Bound : Type := start_input | end_input.

Definition bound_name (b : Bound) : string :=
  match b with start_input => "start" | end_input => "end" end.

Inductive ControlEvent : Type :=
| select_changed (key chosen : string)
| date_changed (ref : positive) (bound : Bound) (text : string).

(** [[{label: `All ${f.key}s`, value: 'all'}, ...f.options]] *)
Definition rendered_options (key : string) (options : list SelectOption)
    : list SelectOption :=
  {| label := "All " ++ key ++ "s"; value := "all" |} :: options.

Definition offered (controls : list FilterControl) (ev : ControlEvent) : bool :=
  match ev with
  | select_changed key chosen =>
      existsb (fun f =>
                 match f with
                 | select_control key' options =>
                     (String.eqb key key'
                      && existsb (fun o => String.eqb chosen (value o))
                           (rendered_options key' options))%bool
                 | date_control _ => false
                 end) controls
  | date_changed _ _ _ =>
      existsb (fun f => match f with date_control _ => true | _ => false end) controls
  end.

Definition on_event (filters_ : Props) (ev : ControlEvent) : Props :=
  match ev with
  | select_changed key chosen => handleFilterChange key (Str chosen) filters_
  | date_changed ref bound text => handleRangeChange ref (bound_name bound) text filters_
  end.

Definition after_events (events : list ControlEvent) (filters_ : Props) : Props :=
  fold_left on_event events filters_.

(** [processedData] on a state and the collections of the props. *)
Definition processedData_of (h : Host) (s : State)
    (donations_ activities_ projects_ cases_ clients teamMembers : list Props)
    : Completion (list Point.t) :=
  processedData h (reportMode s) (dataSource s) (filters s) (groupBy s) (metric s)
    donations_ activities_ projects_ cases_ clients teamMembers.

(** *** Formatting a value

    [typeof value === 'number' && (metric.toLowerCase().includes('amount')
    || metric.toLowerCase().includes('total')) ? currencyFormatter(value)
    : value], in the tooltips and axes of the chart and in the cells of
    the table. *)
Definition is_number (v : Val) : bool :=
  match v with Number _ => true | _ => false end.

Definition names_money (metric_ : string) : bool :=
  (FilterLogic.includes "amount" (FilterLogic.lowercase metric_)
   || FilterLogic.includes "total" (FilterLogic.lowercase metric_))%bool.

Inductive Shown : Type :=
| as_currency (n : Num)
| as_it_is (v : Val).

Definition format_value (metric_ : string) (v : Val) : Shown :=
  match v with
  | Number n => if names_money metric_ then as_currency n else as_it_is v
  | _ => as_it_is v
  end.

(** [options.find(o => o.value === v)?.label || fallback] *)
Definition label_or (options : list SelectOption) (v fallback : string) : string :=
  match find (fun o => String.eqb (value o) v) options with
  | Some o => if String.eqb (label o) "" then fallback else label o
  | None => fallback
  end.

(** The chart is given the metric selector, the table the label of the
    selected metric, or [''] when there is none. *)
Definition chart_shows (metric_ : string) (v : Val) : Shown := format_value metric_ v.

Definition table_shows (reportMode_ : ReportMode) (dataSource_ : DataSource)
    (metric_ : string) (v : Val) : Shown :=
  format_value (label_or (metricOptions reportMode_ dataSource_) metric_ "") v.

(** [COLORS[index % COLORS.length]], the fill of the slice at [index]. *)
Definition COLORS : list string :=
  ["#4F46E5"; "#7C3AED"; "#0EA5E9"; "#14B8A6"; "#F59E0B"; "#EF4444"; "#64748B"].

Definition slice_fill (index : nat) : option string :=
  nth_error COLORS (index mod List.length COLORS).

(** *** The request for insights

    [handleGenerateInsights] returns at once on empty data; otherwise it
    calls [generateChartInsights(processedData, dataSource, groupLabel,
    metricLabel)]. *)
Record InsightsRequest : Type := {
  chartData : list Point.t;
  dataSourceName : DataSource;
  groupLabel : string;
  metricLabel : string
}.

Definition insights_request (s : State) (data : list Point.t) : option InsightsRequest :=
  match data with
  | [] => None
  | _ =>
      Some {| chartData := data;
              dataSourceName := dataSource s;
              groupLabel :=
                label_or (groupOptions (reportMode s) (dataSource s))
                         (groupBy s) (groupBy s);
              metricLabel :=
                label_or (metricOptions (reportMode s) (dataSource s))
                         (metric s) (metric s) |}
  end.

(** What the filters hold under the controls of a data source: the date
    range is an object with a text at [start] and at [end], and every
    other key is unset or holds the value of an option that a select of
    the data source renders for it. *)
Definition filters_in_shape (controls : list FilterControl) (filters_ : Props) : Prop :=
  (exists r a b, get filters_ "dateRange" = Obj r [("start", Str a); ("end", Str b)])
  /\ (forall key, key <> "dateRange" ->
        get filters_ key = Undefined
        \/ exists chosen options,
             get filters_ key = Str chosen
             /\ In (select_control key options) controls
             /\ In chosen
                  (map value (rendered_options key options))).

End ReportsView.

(** ** Projects, activities and chats

    The list views compute what they show from their props in the render
    itself; these are the computations. *)

Section MoreArrays.

Context {A : Type}.

(** [Array.prototype.filter] with a callback that may throw. *)
Fixpoint filterM (f : A -> Completion bool) (l : list A) : Completion (list A) :=
  match l with
  | [] => Normal []
  | x :: l' =>
      keep <- f x ;;
      rest <- filterM f l' ;;
      Normal (if keep then x :: rest else rest)
  end.

End MoreArrays.

Module Numbers.

Import Js.

(** Number::multiply: the rounded product of two finite numbers; an
    infinity times zero is NaN, and times any other number the infinity of
    the product of the signs. *)
Definition num_sign (n : Num) : option bool :=
  match n with
  | NaN => None
  | Fin x => if Qeq_bool x 0 then None else Some (Qnum x <? 0)
  | Inf s => Some s
  end.

Definition num_mul (a b : Num) : Num :=
  match a, b with
  | Fin x, Fin y => round_double (x * y)
  | NaN, _ | _, NaN => NaN
  | _, _ =>
      match num_sign a, num_sign b with
      | Some s, Some s' => Inf (xorb s s')
      | _, _ => NaN
      end
  end.

(** [a * b] on two numbers. *)
Definition mul (h : Host) (a b : Val) : Val :=
  Number (num_mul (to_number h a) (to_number h b)).

(** [v > 0]: false when [v] is not a number after ToNumber. *)
Definition gt_zero (h : Host) (v : Val) : bool :=
  match to_number h v with
  | Fin q => negb (Qle_bool q 0)
  | Inf s => negb s
  | NaN => false
  end.

(** [Math.round]: the integer nearest to the number, a half going up. *)
Definition Math_round (n : Num) : Num :=
  match n with
  | Fin q => Fin (inject_Z (Qfloor (q + (1 # 2))))
  | Inf s => Inf s
  | NaN => NaN
  end.

(** [v.k] for a name no primitive defines: a TypeError on undefined and
    null, the own property of an object, undefined on any other value. *)
Definition read (v : Val) (k : string) : Completion Val :=
  match v with
  | Undefined | Null => Throw "TypeError: cannot read properties of undefined"
  | Obj _ ps => Normal (get ps k)
  | _ => Normal Undefined
  end.

(** The white space and the line terminators that [String.prototype.trim]
    removes, among the characters of 8 bits read as code units: tab to
    carriage return, the space and the no-break space. *)
Definition is_space (c : ascii) : bool :=
  let n := nat_of_ascii c in
  ((n =? 32) || ((9 <=? n) && (n <=? 13)) || (n =? 160))%nat%bool.

Fixpoint trimStart (s : string) : string :=
  match s with
  | String c s' => if is_space c then trimStart s' else s
  | EmptyString => EmptyString
  end.

Fixpoint trimEnd (s : string) : string :=
  match s with
  | String c s' =>
      match trimEnd s' with
      | EmptyString => if is_space c then EmptyString else String c EmptyString
      | rest => String c rest
      end
  | EmptyString => EmptyString
  end.

Definition trim (s : string) : string := trimEnd (trimStart s).

(** The text begins (ends) with a character that [trim] removes. *)
Definition begins_with_space (s : string) : bool :=
  match s with
  | String c _ => is_space c
  | EmptyString => false
  end.

Fixpoint ends_with_space (s : string) : bool :=
  match s with
  | EmptyString => false
  | String c EmptyString => is_space c
  | String _ s' => ends_with_space s'
  end.

End Numbers.

Module ProjectCards.

Import Js Reports Numbers.

Section WithHost.

Variable h : Host.

(** [project.tasks.length > 0
      ? (project.tasks.filter(t => t.status === 'Done').length
         / project.tasks.length) * 100
      : 0], in [ProjectCard] of both project lists and in [ProjectDetail]. *)
Definition completionPercentage (project : Props) : Completion Val :=
  let tasks := get project "tasks" in
  len <- get_length tasks ;;
  if gt_zero h len then
    match tasks with
    | Arr _ elems =>
        finished <-
          filterM (fun t => s <- read t "status" ;; Normal (strict_eq s (Str "Done")))
                  elems ;;
        Normal (mul h (div_len h (int (Z.of_nat (List.length finished)))
                                 (List.length elems))
                      (int 100))
    | _ => Throw "TypeError: project.tasks.filter is not a function"
    end
  else Normal (int 0).

(** [Math.round(completionPercentage)], the figure beside the bar. *)
Definition shown_percentage (project : Props) : Completion Num :=
  p <- completionPercentage project ;;
  Normal (Math_round (to_number h p)).

End WithHost.

(** [projects.filter(project => ...)] of the project list with the two
    selects: ['all'] lets every status, or every client, through. *)
Definition filteredProjects (statusFilter clientFilter : string) (projects_ : list Props)
    : list Props :=
  filter (fun project =>
            let statusMatch :=
              (String.eqb statusFilter "all"
               || strict_eq (get project "status") (Str statusFilter))%bool in
            let clientMatch :=
              (String.eqb clientFilter "all"
               || strict_eq (get project "clientId") (Str clientFilter))%bool in
            (statusMatch && clientMatch)%bool)
         projects_.

(** [clients.find(c => c.id === clientId)?.name || 'Unknown Client'] *)
Definition getClientName (clients : list Props) (clientId : Val) : Val :=
  or_else
    (match find (fun c => strict_eq (get c "id") clientId) clients with
     | Some c => get c "name"
     | None => Undefined
     end)
    (Str "Unknown Client").

End ProjectCards.

Module ActivityFeed.

Import Js Reports.

Inductive EntityType : Type := client | project | teamMember.

(** [findName(id, type)]: [''] without id, otherwise the name of the
    first client, project or team member with this id, if there is one. *)
Definition findName (clients projects_ teamMembers : list Props)
    (id : Val) (type : EntityType) : Val :=
  if negb (truthy id) then Str ""
  else
    let named (l : list Props) :=
      match find (fun e => strict_eq (get e "id") id) l with
      | Some e => get e "name"
      | None => Undefined
      end in
    match type with
    | client => named clients
    | project => named projects_
    | teamMember => named teamMembers
    end.

(** [activities.filter(activity => ...)] with the two selects. *)
Definition filteredActivities (typeFilter memberFilter : string) (activities_ : list Props)
    : list Props :=
  filter (fun activity =>
            let typeMatch :=
              (String.eqb typeFilter "all"
               || strict_eq (get activity "type") (Str typeFilter))%bool in
            let memberMatch :=
              (String.eqb memberFilter "all"
               || strict_eq (get activity "createdById") (Str memberFilter))%bool in
            (typeMatch && memberMatch)%bool)
         activities_.

End ActivityFeed.

Module TeamChat.

Import Js JsDate Numbers.

Section WithHost.

Variable h : Host.

(** [new Date(a.timestamp).getTime() - new Date(b.timestamp).getTime()];
    [sort] reads a NaN from its comparator as 0. *)
Definition by_time (a b : Props) : Z :=
  match new_Date h (get a "timestamp"), new_Date h (get b "timestamp") with
  | Some x, Some y => x - y
  | _, _ => 0
  end.

(** [messages.filter(m => m.roomId === activeRoomId).sort(...)] *)
Definition filteredMessages (activeRoomId : string) (messages : list Props) : list Props :=
  Array_sort by_time
    (filter (fun m => strict_eq (get m "roomId") (Str activeRoomId)) messages).

End WithHost.

(** [newMessage.trim() && activeRoomId]: what [handleSubmit] sends, if it
    sends, and the text left in the input. *)
Definition handleSubmit (activeRoomId newMessage : string)
    : option (string * string) * string :=
  if (negb (String.eqb (trim newMessage) "") && negb (String.eqb activeRoomId ""))%bool
  then (Some (activeRoomId, trim newMessage), "")
  else (None, newMessage).

End TeamChat.

Module AiChatBot.

Import Js Numbers.

(** [{ id, roomId, senderId, text, timestamp }] *)
Record ChatMessage : Type := {
  id : string;
  roomId : string;
  senderId : string;
  text : string;
  timestamp : string
}.

Record State : Type := {
  messages : list ChatMessage;
  userInput : string;
  isLoading : bool
}.

(** [chatWithBot(messages, userMessage.text)] *)
Record BotCall : Type := { history : list ChatMessage; message : string }.

(** [handleSendMessage] up to the call of the bot.  [now] is [Date.now()]
    and [iso] is [new Date().toISOString()], both read when the message is
    built.  Nothing happens on blank input or while a reply is awaited. *)
Definition send (now : Z) (iso : string) (s : State) : State * option BotCall :=
  if (String.eqb (trim (userInput s)) "" || isLoading s)%bool then (s, None)
  else
    let userMessage :=
      {| id := "msg-" ++ Z_to_string now;
         roomId := "ai-chat";
         senderId := "USER";
         text := trim (userInput s);
         timestamp := iso |} in
    ({| messages := (messages s ++ [userMessage])%list;
        userInput := "";
        isLoading := true |},
     Some {| history := messages s; message := text userMessage |}).


(** [onChange={(e) => setUserInput(e.target.value)}]: the input is not
    disabled while a reply is awaited. *)
Definition type_in (text_ : string) (s : State) : State :=
  {| messages := messages s;
     userInput := text_;
     isLoading := isLoading s |}.

(** What the user can do with the form, and a run of such events: the
    state they leave and the calls of the bot they start. *)
Inductive Event : Type :=
| typed (text_ : string)
| submitted (now : Z) (iso : string).

Definition on_event (s : State) (ev : Event) : State * option BotCall :=
  match ev with
  | typed text_ => (type_in text_ s, None)
  | submitted now iso => send now iso s
  end.



End AiChatBot.

(** * Properties *)

Import Js JsDate Reports.

(** ** Completions *)

Lemma returns_Normal {A} (a : A) : returns (Normal a).
Proof. exists a; reflexivity. Qed.

(** ** Rounding

    What the properties below use of the rounding: it is exact on the
    integers of at most 53 bits, and it keeps a non-negative number below
    every double above it. *)

Lemma rne_div_upper (n d K : Z) : 0 < d -> n <= K * d -> rne_div n d <= K.
Proof.
  intros Hd Hn. unfold rne_div.
  pose proof (Z.div_mod n d ltac:(lia)) as Hdm.
  pose proof (Z.mod_pos_bound n d Hd) as Hr.
  assert (Hf : n / d <= K) by nia.
  destruct (Z.eq_dec (n / d) K) as [Hk | Hk].
  - assert (Hr0 : n mod d = 0) by nia.
    rewrite Hr0. replace (2 * 0 ?= d) with Lt by (symmetry; apply Z.compare_lt_iff; lia).
    lia.
  - destruct (2 * (n mod d) ?= d); [destruct (Z.even (n / d)) | |]; lia.
Qed.

Lemma rne_div_nonneg (n d : Z) : 0 < d -> 0 <= n -> 0 <= rne_div n d.
Proof.
  intros Hd Hn. unfold rne_div.
  assert (Hf : 0 <= n / d) by (apply Z.div_pos; lia).
  destruct (2 * (n mod d) ?= d); [destruct (Z.even (n / d)) | |]; lia.
Qed.

Lemma rne_div_exact (K d : Z) : 0 < d -> rne_div (K * d) d = K.
Proof.
  intros Hd. unfold rne_div.
  rewrite Z.mod_mul by lia. rewrite Z.div_mul by lia.
  replace (2 * 0 ?= d) with Lt by (symmetry; apply Z.compare_lt_iff; lia).
  reflexivity.
Qed.

Lemma Qred_inject_Z (z : Z) : Qred (inject_Z z) = inject_Z z.
Proof.
  apply Qred_iff. simpl. apply Z.gcd_1_r.
Qed.

(** The result of rounding when the scaled quotient is known. *)
Lemma round_double_eq (q : Q) (m e : Z) :
  e = Z.max 0 (Z.log2 (Z.abs (Qnum (Qred q) * 2 ^ 1074) / Z.pos (Qden (Qred q))) - 52) ->
  m = rne_div (Qnum (Qred q) * 2 ^ 1074) (Z.pos (Qden (Qred q)) * 2 ^ e) ->
  Z.abs m * 2 ^ e < 2 ^ 2098 ->
  round_double q = Fin (Qred (m * 2 ^ e # 2 ^ 1074)).
Proof.
  intros He Hm Hlt. unfold round_double. rewrite <- He, <- Hm.
  destruct (Z.leb_spec (2 ^ 2098) (Z.abs m * 2 ^ e)); [lia | reflexivity].
Qed.

Lemma pos_pow_1074 : Z.pos (2 ^ 1074) = 2 ^ 1074.
Proof. apply Pos2Z.inj_pow. Qed.

(** Integers up to 2^53 in magnitude are doubles. *)
Lemma round_double_int (q : Q) (z : Z) :
  (q == inject_Z z)%Q -> Z.abs z <= 2 ^ 53 -> round_double q = Fin (inject_Z z).
Proof.
  intros Hq Hz.
  assert (Hred : Qred q = inject_Z z).
  { rewrite (Qred_complete _ _ Hq). apply Qred_inject_Z. }
  assert (HB : 0 < 2 ^ 1074) by (apply Z.pow_pos_nonneg; lia).
  set (e := Z.max 0 (Z.log2 (Z.abs (z * 2 ^ 1074) / 1) - 52)).
  assert (He0 : 0 <= e) by (unfold e; lia).
  assert (Hdiv : exists K, z * 2 ^ 1074 = K * 2 ^ e).
  { destruct (Z.eq_dec e 0) as [-> | Hne].
    - exists (z * 2 ^ 1074). rewrite Z.pow_0_r. lia.
    - assert (Hz0 : z <> 0).
      { intros ->. unfold e in Hne. simpl in Hne. lia. }
      assert (Hlog : Z.log2 (Z.abs (z * 2 ^ 1074) / 1) = 1074 + Z.log2 (Z.abs z)).
      { rewrite Z.div_1_r, Z.abs_mul, (Z.abs_eq (2 ^ 1074)) by lia.
        apply Z.log2_mul_pow2; lia. }
      assert (Hl53 : Z.log2 (Z.abs z) <= 53).
      { rewrite <- (Z.log2_pow2 53) by lia. apply Z.log2_le_mono. exact Hz. }
      assert (Hl0 : 0 <= Z.log2 (Z.abs z)) by apply Z.log2_nonneg.
      assert (Hee : e = 1022 + Z.log2 (Z.abs z)) by (unfold e in *; lia).
      destruct (Z.eq_dec (Z.log2 (Z.abs z)) 53) as [H53 | H53].
      + assert (Habs : Z.abs z = 2 ^ 53).
        { pose proof (Z.log2_spec (Z.abs z) ltac:(lia)) as [Hlo _].
          rewrite H53 in Hlo. lia. }
        rewrite Hee, H53. change (1022 + 53) with (1 + 1074).
        rewrite Z.pow_add_r by lia.
        destruct (Z.abs_spec z) as [[_ Ha] | [_ Ha]]; rewrite Ha in Habs.
        * exists (2 ^ 52). rewrite Habs. change (2 ^ 53) with (2 ^ 52 * 2 ^ 1). lia.
        * exists (- 2 ^ 52).
          replace z with (- 2 ^ 53) by lia. change (2 ^ 53) with (2 ^ 52 * 2 ^ 1). lia.
      + exists (z * 2 ^ (1074 - e)).
        rewrite <- Z.mul_assoc, <- Z.pow_add_r by lia. f_equal. f_equal. lia. }
  destruct Hdiv as [K HK].
  assert (Hpe : 0 < 2 ^ e) by (apply Z.pow_pos_nonneg; lia).
  rewrite (round_double_eq q K e).
  - f_equal. rewrite <- HK, <- Qred_inject_Z. apply Qred_complete.
    unfold Qeq, inject_Z. cbn [Qnum Qden]. rewrite pos_pow_1074. lia.
  - rewrite Hred. reflexivity.
  - rewrite Hred. cbn [Qnum Qden inject_Z]. rewrite HK, Z.mul_1_l.
    symmetry. apply rne_div_exact. exact Hpe.
  - rewrite <- (Z.abs_eq (2 ^ e)) by lia. rewrite <- Z.abs_mul, <- HK.
    rewrite Z.abs_mul, (Z.abs_eq (2 ^ 1074)) by lia.
    change (2 ^ 2098) with (2 ^ (1024 + 1074)). rewrite Z.pow_add_r by lia.
    apply Z.mul_lt_mono_pos_r; [exact HB |].
    apply Z.le_lt_trans with (2 ^ 53); [exact Hz |].
    apply Z.pow_lt_mono_r; lia.
Qed.

(** Rounding a non-negative number stays below every double above it:
    [k / 2^J] with [k] of at most 53 bits is one. *)
Lemma round_double_within (q : Q) (k J : Z) :
  0 <= J <= 1074 -> 0 <= k <= 2 ^ 53 ->
  (0 <= q)%Q -> (q * inject_Z (2 ^ J) <= inject_Z k)%Q ->
  exists v, round_double q = Fin v
            /\ (0 <= v)%Q /\ (v * inject_Z (2 ^ J) <= inject_Z k)%Q.
Proof.
  intros HJ Hk Hq0 Hqk.
  rewrite <- (Qred_correct q) in Hq0, Hqk.
  destruct (Qred q) as [n d] eqn:Hred.
  assert (Hn : 0 <= n).
  { unfold Qle in Hq0. cbn [Qnum Qden] in Hq0. lia. }
  assert (HpJ : 0 < 2 ^ J) by (apply Z.pow_pos_nonneg; lia).
  assert (Hnk : n * 2 ^ J <= k * Z.pos d).
  { unfold Qle, Qmult, inject_Z in Hqk. cbn [Qnum Qden] in Hqk.
    rewrite Pos.mul_1_r in Hqk. lia. }
  set (g := 1074 - J).
  assert (HB : 2 ^ 1074 = 2 ^ g * 2 ^ J).
  { rewrite <- Z.pow_add_r by (unfold g; lia). f_equal. unfold g. lia. }
  assert (Hpg : 0 < 2 ^ g) by (apply Z.pow_pos_nonneg; unfold g; lia).
  set (N := n * 2 ^ 1074).
  assert (HN : N <= k * 2 ^ g * Z.pos d).
  { unfold N. rewrite HB. nia. }
  assert (HN0 : 0 <= N) by (unfold N; rewrite HB; nia).
  set (t := Z.abs N / Z.pos d).
  assert (Ht : t <= k * 2 ^ g).
  { unfold t. rewrite Z.abs_eq by exact HN0.
    apply Z.div_le_upper_bound; lia. }
  assert (Ht0 : 0 <= t).
  { unfold t. apply Z.div_pos; lia. }
  assert (Hk53 : k * 2 ^ g <= 2 ^ (53 + g)).
  { rewrite Z.pow_add_r by (unfold g; lia). nia. }
  set (e := Z.max 0 (Z.log2 t - 52)).
  assert (He0 : 0 <= e) by (unfold e; lia).
  assert (Hpe : 0 < 2 ^ e) by (apply Z.pow_pos_nonneg; lia).
  assert (Hlog : Z.log2 t <= 53 + g).
  { rewrite <- (Z.log2_pow2 (53 + g)) by (unfold g; lia).
    apply Z.log2_le_mono. lia. }
  assert (Hm : rne_div N (Z.pos d * 2 ^ e) * 2 ^ e <= k * 2 ^ g
               /\ 0 <= rne_div N (Z.pos d * 2 ^ e)).
  { split; [| apply rne_div_nonneg; lia].
    destruct (Z_le_gt_dec e g) as [Heg | Heg].
    - assert (Hsplit : 2 ^ g = 2 ^ (g - e) * 2 ^ e).
      { rewrite <- Z.pow_add_r by lia. f_equal. lia. }
      assert (Hup : rne_div N (Z.pos d * 2 ^ e) <= k * 2 ^ (g - e)).
      { apply rne_div_upper; [lia |]. rewrite Hsplit in HN. lia. }
      rewrite Hsplit. nia.
    - assert (Hee : e = g + 1) by (unfold e in *; lia).
      assert (Hlt : Z.log2 t = 53 + g) by (unfold e in *; lia).
      assert (Htpos : 0 < t).
      { destruct (Z.eq_dec t 0) as [H0 | H0]; [| lia].
        rewrite H0 in Hlt. change (Z.log2 0) with 0 in Hlt. unfold g in Hlt. lia. }
      pose proof (Z.log2_spec t Htpos) as [Hlo _]. rewrite Hlt in Hlo.
      assert (Htk : t = 2 ^ (53 + g)) by lia.
      assert (Hkk : k * 2 ^ g = 2 ^ (53 + g)) by lia.
      assert (HNd : N = 2 ^ (53 + g) * Z.pos d).
      { assert (Hge : t * Z.pos d <= N).
        { unfold t. rewrite Z.abs_eq by exact HN0.
          rewrite Z.mul_comm. apply Z.mul_div_le. lia. }
        rewrite Hkk in HN. rewrite Htk in Hge. lia. }
      assert (H52 : 2 ^ (53 + g) = 2 ^ 52 * 2 ^ e).
      { rewrite Hee, <- Z.pow_add_r by (unfold g; lia). f_equal. lia. }
      replace N with (2 ^ 52 * (Z.pos d * 2 ^ e)) by (rewrite HNd, H52; lia).
      rewrite rne_div_exact by lia. rewrite Hkk, H52. lia. }
  destruct Hm as [Hmk Hm0].
  set (m := rne_div N (Z.pos d * 2 ^ e)) in *.
  assert (Hlt2098 : Z.abs m * 2 ^ e < 2 ^ 2098).
  { rewrite Z.abs_eq by exact Hm0.
    apply Z.le_lt_trans with (2 ^ (53 + g)); [lia |].
    apply Z.pow_lt_mono_r; unfold g; lia. }
  exists (Qred (m * 2 ^ e # 2 ^ 1074)). split.
  - apply round_double_eq; rewrite ?Hred; cbn [Qnum Qden]; try reflexivity. exact Hlt2098.
  - rewrite Qred_correct. unfold Qle, Qmult, inject_Z. cbn [Qnum Qden].
    rewrite Pos.mul_1_r, pos_pow_1074, HB. split; nia.
Qed.

(** Sums and quotients as every engine computes them: 0.1 + 0.2 is
    0.30000000000000004, twice 2^1023 is Infinity, 0 / 0 is NaN and 1 / 0
    is Infinity. *)
Lemma doubles_as_the_engines_compute :
  num_add (round_double (1 # 10)) (round_double (2 # 10))
  = round_double (30000000000000004 # 100000000000000000)
  /\ round_double (30000000000000004 # 100000000000000000) <> round_double (3 # 10)
  /\ num_add (Fin (inject_Z (2 ^ 1023))) (Fin (inject_Z (2 ^ 1023))) = Inf false
  /\ num_div_len (Fin 0) 0 = NaN
  /\ num_div_len (Fin 1) 0 = Inf false.
Proof.
  split; [vm_compute; reflexivity |]. split; [vm_compute; discriminate |].
  split; [vm_compute; reflexivity |]. split; reflexivity.
Qed.

Lemma round_double_proper (q q' : Q) : (q == q')%Q -> round_double q = round_double q'.
Proof.
  intros Hq. unfold round_double. now rewrite (Qred_complete _ _ Hq).
Qed.

(** ** C4 *)

(** C4: with an empty [groupBy] the compute function returns the empty
    list, whatever the collections, the filters and the metric; it does
    not throw and it returns no partial data. *)
Theorem empty_groupBy_yields_no_data :
  forall h reportMode dataSource filters metric
         donations_ activities_ projects_ cases_ clients teamMembers,
    processedData h reportMode dataSource filters "" metric
      donations_ activities_ projects_ cases_ clients teamMembers = Normal [].
Proof.
  intros h reportMode; intros.
  unfold processedData.
  destruct reportMode; reflexivity.
Qed.

(** ** C8 *)

(** C8: for every record collection [R], [applyFilterLogic(R, null)] is
    [R], the same records in the same order. *)
Theorem applyFilterLogic_null_is_identity :
  forall h (records : list Props),
    FilterLogic.applyFilterLogic h records None = records.
Proof.
  intros h records.
  unfold FilterLogic.applyFilterLogic.
  induction records as [| r records IH]; cbn in *.
  - reflexivity.
  - congruence.
Qed.

(** ** Objects as property lists *)

Lemma lookup_without {A} (d k : string) (o : list (string * A)) :
  k <> d -> lookup k (without d o) = lookup k o.
Proof.
  intros Hkd.
  induction o as [| [k' v] o IH]; simpl.
  - reflexivity.
  - destruct (String.eqb d k') eqn:Hd; simpl.
    + apply String.eqb_eq in Hd; subst k'.
      destruct (String.eqb k d) eqn:Hk.
      * apply String.eqb_eq in Hk; contradiction.
      * exact IH.
    + destruct (String.eqb k k'); [reflexivity | exact IH].
Qed.

Lemma get_without (d k : string) (o : Props) :
  k <> d -> get (without d o) k = get o k.
Proof.
  intros Hkd. unfold get. now rewrite lookup_without.
Qed.

Lemma in_keys_without {A} (d k : string) (o : list (string * A)) :
  In k (keys (without d o)) <-> In k (keys o) /\ k <> d.
Proof.
  unfold keys, without.
  rewrite !in_map_iff.
  split.
  - intros [[k' v] [Hk Hin]]. simpl in Hk; subst k'.
    apply filter_In in Hin. destruct Hin as [Hin Hne]. simpl in Hne.
    split.
    + exists (k, v); auto.
    + intros ->. rewrite String.eqb_refl in Hne. discriminate.
  - intros [[[k' v] [Hk Hin]] Hne]. simpl in Hk; subst k'.
    exists (k, v); split; [reflexivity |].
    apply filter_In; split; [assumption |]. simpl.
    destruct (String.eqb d k) eqn:E; [| reflexivity].
    apply String.eqb_eq in E. congruence.
Qed.

Lemma lookup_not_in_keys {A} (k : string) (o : list (string * A)) :
  ~ In k (keys o) -> lookup k o = None.
Proof.
  induction o as [| [k' v] o IH]; simpl; intros Hnin.
  - reflexivity.
  - destruct (String.eqb k k') eqn:E.
    + apply String.eqb_eq in E. subst. tauto.
    + apply IH. tauto.
Qed.

Lemma get_not_in_keys (k : string) (o : Props) :
  ~ In k (keys o) -> get o k = Undefined.
Proof.
  intros H. unfold get. now rewrite lookup_not_in_keys.
Qed.

Lemma strict_eq_all (v : Val) :
  strict_eq v (Str "all") = false <-> v <> Str "all".
Proof.
  destruct v as [| | b | n | s | r l | r ps]; simpl;
    try (split; [intros _; discriminate | reflexivity]).
  - destruct n; simpl; (split; [intros _; discriminate | reflexivity]).
  - split.
    + intros E Hs. injection Hs as ->. discriminate.
    + intros Hne. destruct (String.eqb s "all") eqn:E; [| reflexivity].
      apply String.eqb_eq in E. subst. congruence.
Qed.

(** ** C1: the filter stage *)

Lemma dateKey_of_nonempty (dataSource : DataSource) :
  String.eqb (dateKey_of dataSource) "" = false.
Proof. destruct dataSource; reflexivity. Qed.

Lemma date_ge_on_or_after h (d bound : Val) :
  date_ge (new_Date h d) (new_Date h bound) = true <-> Spec.on_or_after h d bound.
Proof.
  unfold Spec.on_or_after, date_ge.
  destruct (new_Date h d) as [t |], (new_Date h bound) as [b |].
  - rewrite Z.leb_le. split.
    + intros Hle. exists t, b. auto.
    + intros (t' & b' & Ht & Hb & Hle). congruence.
  - split; [discriminate | intros (t' & b' & _ & Hb & _); discriminate].
  - split; [discriminate | intros (t' & b' & Ht & _); discriminate].
  - split; [discriminate | intros (t' & b' & Ht & _); discriminate].
Qed.

Lemma date_le_on_or_before h (d bound : Val) :
  date_le (new_Date h d) (new_Date h bound) = true <-> Spec.on_or_before h d bound.
Proof.
  unfold Spec.on_or_before, date_le.
  destruct (new_Date h d) as [t |], (new_Date h bound) as [b |].
  - rewrite Z.leb_le. split.
    + intros Hle. exists t, b. auto.
    + intros (t' & b' & Ht & Hb & Hle). congruence.
  - split; [discriminate | intros (t' & b' & _ & Hb & _); discriminate].
  - split; [discriminate | intros (t' & b' & Ht & _); discriminate].
  - split; [discriminate | intros (t' & b' & Ht & _); discriminate].
Qed.

(** The loop over the other filters is a conjunction over their keys. *)
Lemma filter_loop_spec (otherFilters item : Props) (ks : list string) (passes : bool) :
  fold_left (filter_step otherFilters item) ks passes = true <->
  passes = true /\
  forall key, In key ks ->
    Spec.constrains (get otherFilters key) ->
    strict_eq (get item key) (get otherFilters key) = true.
Proof.
  revert passes.
  induction ks as [| k ks IH]; intros passes; simpl.
  - split; [intros ->; split; [reflexivity | contradiction] | tauto].
  - rewrite IH. unfold filter_step at 1, Spec.constrains, Spec.is_set.
    destruct (truthy (get otherFilters k)) eqn:Ht; simpl.
    + destruct (strict_eq (get otherFilters k) (Str "all")) eqn:Ha; simpl.
      * split.
        -- intros [Hp Hall]. split; [assumption |].
           intros key [<- | Hin] Hc; [| now apply Hall].
           destruct Hc as [_ Hne]. apply strict_eq_all in Hne. congruence.
        -- intros [Hp Hall]. split; [assumption |]. intros key Hin. apply Hall; auto.
      * apply strict_eq_all in Ha.
        split.
        -- intros [Hp Hall]. apply andb_true_iff in Hp. destruct Hp as [Hp He].
           split; [assumption |].
           intros key [<- | Hin] Hc; [assumption | now apply Hall].
        -- intros [Hp Hall]. split.
           ++ apply andb_true_iff; split; [assumption |]. apply Hall; auto.
           ++ intros key Hin. apply Hall; auto.
    + split.
      * intros [Hp Hall]. split; [assumption |].
        intros key [<- | Hin] Hc; [| now apply Hall].
        destruct Hc as [Hs _]. congruence.
      * intros [Hp Hall]. split; [assumption |]. intros key Hin. apply Hall; auto.
Qed.

Lemma passes_filters_spec h (dataSource : DataSource) (filters item : Props) :
  passes_filters h filters (dateKey_of dataSource) item = true <->
  Spec.meets_filters h filters (dateKey_of dataSource) item.
Proof.
  unfold passes_filters, Spec.meets_filters.
  rewrite dateKey_of_nonempty. simpl negb. rewrite !andb_true_r.
  set (dk := dateKey_of dataSource).
  set (startv := opt_get (get filters "dateRange") "start").
  set (endv := opt_get (get filters "dateRange") "end").
  rewrite filter_loop_spec.
  assert (Hother :
    (forall key, In key (keys (without "dateRange" filters)) ->
       Spec.constrains (get (without "dateRange" filters) key) ->
       strict_eq (get item key) (get (without "dateRange" filters) key) = true)
    <->
    (forall key, key <> "dateRange" -> Spec.constrains (get filters key) ->
       strict_eq (get item key) (get filters key) = true)).
  { split.
    - intros Hall key Hne Hc.
      destruct (in_dec string_dec key (keys filters)) as [Hin | Hnin].
      + rewrite <- (get_without "dateRange" key filters Hne).
        apply Hall.
        * apply in_keys_without; auto.
        * now rewrite get_without.
      + rewrite (get_not_in_keys key filters Hnin) in Hc.
        destruct Hc as [Hs _]. discriminate.
    - intros Hall key Hin Hc.
      apply in_keys_without in Hin. destruct Hin as [_ Hne].
      rewrite get_without in * by assumption.
      now apply Hall. }
  rewrite Hother. unfold Spec.is_set.
  destruct (truthy startv) eqn:Hs, (truthy endv) eqn:He; simpl;
    rewrite ?andb_true_iff, ?date_ge_on_or_after, ?date_le_on_or_before.
  - tauto.
  - intuition discriminate.
  - intuition discriminate.
  - intuition discriminate.
Qed.

(** C1: the filter stage keeps a record exactly when the record meets the
    filters configuration: its date field is on or after a start that is
    set, on or before an end that is set, and strictly equal to every other
    filter value that is set and is not ['all'].  With nothing set every
    record survives. *)
Theorem filter_stage_keeps_exactly :
  forall h dataSource filters baseData,
    (forall item,
        In item (filteredData h filters (dateKey_of dataSource) baseData) <->
        In item baseData /\
        Spec.meets_filters h filters (dateKey_of dataSource) item)
    /\ (Spec.unconstrained filters ->
        filteredData h filters (dateKey_of dataSource) baseData = baseData).
Proof.
  intros h dataSource filters baseData. split.
  - intros item. unfold filteredData.
    rewrite filter_In, passes_filters_spec. reflexivity.
  - intros (Hs & He & Hk).
    unfold filteredData.
    induction baseData as [| item baseData IH]; simpl.
    + reflexivity.
    + assert (Hp : passes_filters h filters (dateKey_of dataSource) item = true).
      { apply passes_filters_spec. unfold Spec.meets_filters.
        repeat split; try contradiction.
        intros key Hne Hc. exfalso. exact (Hk key Hne Hc). }
      rewrite Hp. now rewrite IH.
Qed.

(** ** The metric stage *)

Section Metric.

Variable h : Host.

Lemma add_numbers (a b : Q) :
  add h (Number (Fin a)) (Number (Fin b)) = Number (round_double (a + b)).
Proof. reflexivity. Qed.

Lemma add_null (a : Q) :
  add h (Number (Fin a)) Null = Number (round_double (a + 0)).
Proof. reflexivity. Qed.

Lemma add_number_like (n : Num) (v : Val) :
  match v with Undefined | Null | Bool _ | Number _ => True | _ => False end ->
  exists m, add h (Number n) v = Number m /\ (n = NaN -> m = NaN)
            /\ (v = Undefined -> m = NaN).
Proof.
  destruct v as [| | b | m | s | r l | r ps]; try contradiction; intros _.
  - exists NaN. repeat split. destruct n; reflexivity.
  - exists (num_add n (Fin 0)). repeat split; [| discriminate].
    intros ->. reflexivity.
  - exists (num_add n (if b then Fin 1 else Fin 0)).
    split; [destruct b; reflexivity |]. split; [| discriminate].
    intros ->. reflexivity.
  - exists (num_add n m). repeat split; [| discriminate].
    intros ->. reflexivity.
Qed.

(** The running sum over amounts that are numbers or null is the sum of
    the doubles. *)
Lemma sum_amount_from (items : list Props) (n : Num) :
  Forall Spec.amount_adds items ->
  fold_left (fun sum i => add h sum (get i "amount")) items (Number n)
  = Number (fold_left (fun s i => match Spec.amount_of i with
                                  | Some q => num_add s (Fin q)
                                  | None => s
                                  end) items n).
Proof.
  revert n.
  induction items as [| i items IH]; intros n Hall; [reflexivity |].
  inversion Hall as [| i' items' Hi Hrest]; subst.
  cbn [fold_left]. unfold Spec.amount_adds, Spec.amount_of in Hi |- *.
  destruct (get i "amount") as [| | b | [| x | s0] | s | r l | r ps] eqn:Hg;
    try (exfalso; apply Hi; reflexivity).
  - change (add h (Number n) Null) with (Number (num_add n (Fin 0))).
    now apply IH.
  - change (add h (Number n) (Number (Fin x))) with (Number (num_add n (Fin x))).
    now apply IH.
Qed.

Lemma sum_amount_double (items : list Props) :
  Forall Spec.amount_adds items ->
  sum_amount h items = Number (Spec.double_total items).
Proof.
  intros Hall. unfold sum_amount, Spec.double_total, int.
  now apply sum_amount_from.
Qed.

Lemma amount_Z_of (i : Props) (z : Z) :
  Spec.amount_Z i = Some z ->
  exists q, Spec.amount_of i = Some q /\ (q == inject_Z z)%Q.
Proof.
  unfold Spec.amount_Z. destruct (Spec.amount_of i) as [q |]; [| discriminate].
  destruct (Pos.eqb_spec (Qden (Qred q)) 1) as [Hd |]; [| discriminate].
  intros [= <-]. exists q. split; [reflexivity |].
  rewrite <- (Qred_correct q) at 1.
  destruct (Qred q) as [n d]. cbn [Qnum Qden] in *. subst d. reflexivity.
Qed.

Lemma total_from_proper (items : list Props) (x y : Q) :
  (x == y)%Q ->
  (fold_left (fun s j => match Spec.amount_of j with
                         | Some x0 => s + x0
                         | None => s
                         end) items x
   == fold_left (fun s j => match Spec.amount_of j with
                            | Some x0 => s + x0
                            | None => s
                            end) items y)%Q.
Proof.
  revert x y.
  induction items as [| j l IHl]; intros x y Hxy; cbn [fold_left]; [exact Hxy |].
  apply IHl. destruct (Spec.amount_of j); [now rewrite Hxy | exact Hxy].
Qed.

Lemma magnitude_nonneg (items : list Props) : 0 <= Spec.magnitude items.
Proof.
  induction items as [| i items IH]; cbn [Spec.magnitude fold_right]; [lia |].
  fold (Spec.magnitude items). destruct (Spec.amount_Z i); lia.
Qed.

(** While the magnitudes sum to at most 2^53 no step of the sum rounds. *)
Lemma double_sum_exact (items : list Props) (za : Z) :
  Forall (fun i => Spec.amount_Z i <> None) items ->
  Z.abs za + Spec.magnitude items <= 2 ^ 53 ->
  exists zt,
    fold_left (fun s i => match Spec.amount_of i with
                          | Some q => num_add s (Fin q)
                          | None => s
                          end) items (Fin (inject_Z za))
    = Fin (inject_Z zt)
    /\ (fold_left (fun s i => match Spec.amount_of i with
                               | Some x => s + x
                               | None => s
                               end) items (inject_Z za) == inject_Z zt)%Q
    /\ Z.abs zt <= Z.abs za + Spec.magnitude items.
Proof.
  revert za.
  induction items as [| i items IH]; intros za Hall Hmag.
  - exists za. cbn [fold_left Spec.magnitude fold_right].
    split; [reflexivity |]. split; [reflexivity | lia].
  - inversion Hall as [| i' items' Hi Hrest]; subst.
    cbn [Spec.magnitude fold_right] in Hmag.
    fold (Spec.magnitude items) in Hmag.
    destruct (Spec.amount_Z i) as [z |] eqn:Hz; [| congruence].
    pose proof (magnitude_nonneg items) as Hm0.
    destruct (amount_Z_of i z Hz) as (q & Hq & Hqz).
    cbn [fold_left]. rewrite Hq.
    assert (Hsum : (inject_Z za + q == inject_Z (za + z))%Q)
      by (rewrite Hqz; now rewrite inject_Z_plus).
    cbn [num_add].
    rewrite (round_double_int (inject_Z za + q) (za + z) Hsum) by lia.
    destruct (IH (za + z) Hrest ltac:(lia)) as (zt & Hfold & Htot & Habs).
    exists zt. split; [exact Hfold |]. split.
    + rewrite <- Htot. now apply total_from_proper.
    + cbn [Spec.magnitude fold_right]. fold (Spec.magnitude items).
      rewrite Hz. lia.
Qed.

Lemma safe_integers_add (items : list Props) :
  Spec.safe_integers items -> Forall Spec.amount_adds items.
Proof.
  intros [Hall _]. eapply Forall_impl; [| exact Hall].
  intros i Hi. unfold Spec.amount_adds. unfold Spec.amount_Z in Hi.
  destruct (Spec.amount_of i); [discriminate | congruence].
Qed.

(** On safe integers the double sum is the sum. *)
Lemma double_total_exact (items : list Props) :
  Spec.safe_integers items ->
  exists zt, Spec.double_total items = Fin (inject_Z zt)
             /\ (Spec.total items == inject_Z zt)%Q
             /\ Z.abs zt <= 2 ^ 53.
Proof.
  intros [Hall Hmag].
  destruct (double_sum_exact items 0 Hall ltac:(simpl Z.abs; lia))
    as (zt & Hfold & Htot & Habs).
  exists zt. repeat split; [exact Hfold | exact Htot |].
  simpl Z.abs in Habs. lia.
Qed.

(** A missing amount among number-like amounts leaves NaN. *)
Lemma sum_amount_poisoned_from (items : list Props) (n : Num) :
  Forall Spec.amount_number_like items ->
  (n = NaN \/ Exists Spec.amount_missing items) ->
  fold_left (fun sum i => add h sum (get i "amount")) items (Number n)
  = Number NaN.
Proof.
  revert n.
  induction items as [| i items IH]; intros n Hall Hex; simpl.
  - destruct Hex as [-> | Hex]; [reflexivity | inversion Hex].
  - inversion Hall as [| i' items' Hi Hrest]; subst.
    destruct (add_number_like n (get i "amount") Hi) as (m & -> & Hn & Hu).
    apply IH; [assumption |].
    destruct Hex as [-> | Hex]; [left; now apply Hn |].
    inversion Hex as [i' l' Hm | i' l' Hm]; subst.
    + left. now apply Hu.
    + now right.
Qed.

Lemma metric_totalAmount (items : list Props) :
  metric_value h "totalAmount" items = Normal (sum_amount h items).
Proof. reflexivity. Qed.

Lemma metric_avgAmount (items : list Props) :
  metric_value h "avgAmount" items =
  Normal (if (0 <? List.length items)%nat
          then div_len h (sum_amount h items) (List.length items)
          else int 0).
Proof. reflexivity. Qed.

Lemma length_pos_nonempty {A} (l : list A) :
  l <> [] -> (0 <? List.length l)%nat = true.
Proof.
  destruct l; [congruence | reflexivity].
Qed.

Lemma avgAmount_double (items : list Props) :
  Forall Spec.amount_adds items -> items <> [] ->
  metric_value h "avgAmount" items = Normal (Number (Spec.double_mean items)).
Proof.
  intros Hall Hne.
  rewrite metric_avgAmount, (length_pos_nonempty items Hne).
  now rewrite (sum_amount_double items Hall).
Qed.

(** On safe integers the quotient is the double nearest to the mean, and
    the mean itself when that is an integer. *)
Lemma double_mean_exact (items : list Props) :
  Spec.safe_integers items -> items <> [] ->
  Spec.double_mean items = round_double (Spec.mean items)
  /\ (forall z, (Spec.mean items == inject_Z z)%Q ->
                 Spec.double_mean items = Fin (inject_Z z)).
Proof.
  intros Hsafe Hne.
  destruct (double_total_exact items Hsafe) as (zt & Hd & Ht & Habs).
  unfold Spec.double_mean, Spec.mean. rewrite Hd.
  destruct items as [| i items]; [congruence |].
  set (l := i :: items) in *.
  change (List.length l) with (S (List.length items)).
  cbn [num_div_len].
  assert (Hmean : (inject_Z zt / inject_Z (Z.of_nat (S (List.length items)))
                   == Spec.total l / inject_Z (Z.of_nat (S (List.length items))))%Q)
    by now rewrite Ht.
  split; [now apply round_double_proper |].
  intros z Hz. apply round_double_int.
  - rewrite Hmean. exact Hz.
  - rewrite <- Hmean in Hz.
    assert (Hzt : zt = z * Z.of_nat (S (List.length items))).
    { unfold Qeq, Qdiv, Qmult, Qinv, inject_Z in Hz.
      rewrite Nat2Z.inj_succ in *. unfold Z.succ in *.
      destruct (Z.of_nat (List.length items) + 1) as [| p | p] eqn:Hp; try lia.
      cbn [Qnum Qden] in Hz. lia. }
    assert (Hpos : 1 <= Z.of_nat (S (List.length items))) by lia.
    rewrite Hzt, Z.abs_mul in Habs.
    rewrite (Z.abs_eq (Z.of_nat (S (List.length items)))) in Habs by lia.
    nia.
Qed.

End Metric.

(** ** The group stage *)

Lemma lookup_In {A} (k : string) (o : list (string * A)) (v : A) :
  lookup k o = Some v -> In (k, v) o.
Proof.
  induction o as [| [k' v'] o IH]; simpl; [discriminate |].
  destruct (String.eqb k k') eqn:E.
  - apply String.eqb_eq in E. subst. intros [= ->]. now left.
  - intros Hl. right. now apply IH.
Qed.

Lemma lookup_keys {A} (k : string) (o : list (string * A)) :
  existsb (String.eqb k) (keys o) = match lookup k o with Some _ => true | None => false end.
Proof.
  induction o as [| [k' v'] o IH]; simpl; [reflexivity |].
  destruct (String.eqb k k'); [reflexivity | exact IH].
Qed.

Lemma keys_assign {A} (k : string) (v : A) (o : list (string * A)) :
  keys (assign k v o) = keys o.
Proof.
  induction o as [| [k' v'] o IH]; simpl; [reflexivity |].
  destruct (String.eqb k k'); simpl; [reflexivity | now rewrite IH].
Qed.

Lemma In_assign {A} (k : string) (v : A) (o : list (string * A)) (kv : string * A) :
  In kv (assign k v o) -> kv = (k, v) \/ In kv o.
Proof.
  induction o as [| [k' v'] o IH]; simpl; [tauto |].
  destruct (String.eqb k k') eqn:E; simpl.
  - apply String.eqb_eq in E. subst k'. intros [<- | Hin]; auto.
  - intros [<- | Hin]; auto. destruct (IH Hin); auto.
Qed.

Lemma lookup_assign_same {A} (k : string) (v v0 : A) (o : list (string * A)) :
  lookup k o = Some v0 -> lookup k (assign k v o) = Some v.
Proof.
  induction o as [| [k' v'] o IH]; simpl; [discriminate |].
  destruct (String.eqb k k') eqn:E; simpl; rewrite E; auto.
Qed.

Lemma lookup_app_new {A} (k : string) (v : A) (o : list (string * A)) :
  lookup k o = None -> lookup k (o ++ [(k, v)])%list = Some v.
Proof.
  induction o as [| [k' v'] o IH]; simpl.
  - now rewrite String.eqb_refl.
  - destruct (String.eqb k k'); [discriminate | exact IH].
Qed.

Section Grouping.

Variable h : Host.
Variables groupBy dateKey : string.

Local Abbreviation step := (group_step h groupBy dateKey).
Local Abbreviation key_of := (group_key h groupBy dateKey).
Local Abbreviation key_string := (Spec.key_string h groupBy dateKey).
Local Abbreviation has_key := (Spec.has_key h groupBy dateKey).
Local Abbreviation keyed := (Spec.keyed h groupBy dateKey).

(** The four ways a turn of the reduction ends. *)
Lemma group_step_dropped (acc : Grouped) (item : Props) :
  has_key item = false -> step acc item = Normal acc.
Proof.
  unfold has_key, Spec.has_key, step, group_step. intros Hk.
  apply negb_false_iff in Hk. now rewrite Hk.
Qed.

Lemma group_step_pushed (acc : Grouped) (item : Props) (g : Group.t) :
  has_key item = true ->
  lookup (key_string item) acc = Some g ->
  step acc item =
  Normal (assign (key_string item)
            {| Group.name := Group.name g;
               Group.items := (Group.items g ++ [item])%list |} acc).
Proof.
  unfold has_key, Spec.has_key, step, group_step, key_string, Spec.key_string.
  intros Hk Hl. apply negb_true_iff in Hk. now rewrite Hk, Hl.
Qed.

Lemma group_step_created (acc : Grouped) (item : Props) :
  has_key item = true ->
  lookup (key_string item) acc = None ->
  proto_member (key_string item) = false ->
  step acc item =
  Normal (acc ++ [(key_string item,
                   {| Group.name := key_of item; Group.items := [item] |})])%list.
Proof.
  unfold has_key, Spec.has_key, step, group_step, key_string, Spec.key_string.
  intros Hk Hl Hp. apply negb_true_iff in Hk. now rewrite Hk, Hl, Hp.
Qed.

Lemma group_step_throws (acc : Grouped) (item : Props) :
  has_key item = true ->
  lookup (key_string item) acc = None ->
  proto_member (key_string item) = true ->
  exists msg, step acc item = Throw msg.
Proof.
  unfold has_key, Spec.has_key, step, group_step, key_string, Spec.key_string.
  intros Hk Hl Hp. apply negb_true_iff in Hk. rewrite Hk, Hl, Hp. eauto.
Qed.

(** What one turn that returns does to the grouped object. *)
Lemma group_step_cases (acc acc' : Grouped) (item : Props) :
  step acc item = Normal acc' ->
  (has_key item = false /\ acc' = acc)
  \/ (has_key item = true /\
      exists g, lookup (key_string item) acc = Some g /\
        acc' = assign (key_string item)
                 {| Group.name := Group.name g;
                    Group.items := (Group.items g ++ [item])%list |} acc)
  \/ (has_key item = true /\ lookup (key_string item) acc = None /\
      proto_member (key_string item) = false /\
      acc' = (acc ++ [(key_string item,
                       {| Group.name := key_of item; Group.items := [item] |})])%list).
Proof.
  intros Hs.
  destruct (has_key item) eqn:Hk.
  - destruct (lookup (key_string item) acc) as [g |] eqn:Hl.
    + rewrite (group_step_pushed acc item g Hk Hl) in Hs.
      injection Hs as <-. right; left. split; [reflexivity |]. eauto.
    + destruct (proto_member (key_string item)) eqn:Hp.
      * destruct (group_step_throws acc item Hk Hl Hp) as [msg Hm].
        rewrite Hm in Hs. discriminate.
      * rewrite (group_step_created acc item Hk Hl Hp) in Hs.
        injection Hs as <-. right; right. auto.
  - rewrite (group_step_dropped acc item Hk) in Hs. injection Hs as <-. auto.
Qed.

(** The keys of the grouped object are created in the order in which the
    records first show them. *)
Lemma reduce_keys (data : list Props) (acc acc' : Grouped) :
  reduce step data acc = Normal acc' ->
  keys acc' = (keys acc ++ Spec.first_seen (map key_string (keyed data)) (keys acc))%list.
Proof.
  revert acc.
  induction data as [| item data IH]; intros acc Hr; simpl in Hr.
  - injection Hr as <-. simpl. now rewrite app_nil_r.
  - destruct (step acc item) as [acc1 | msg] eqn:Hs; simpl in Hr; [| discriminate].
    apply IH in Hr. rewrite Hr. clear Hr IH.
    unfold keyed, Spec.keyed. simpl. fold (has_key item).
    destruct (group_step_cases acc acc1 item Hs)
      as [[Hk ->] | [[Hk (g & Hl & ->)] | (Hk & Hl & Hp & ->)]]; rewrite Hk.
    + reflexivity.
    + simpl. rewrite lookup_keys, Hl, keys_assign. reflexivity.
    + simpl. rewrite lookup_keys, Hl.
      unfold keys. rewrite map_app. simpl. now rewrite <- app_assoc.
Qed.

(** Every bucket holds records of its own key, and at least one. *)
Lemma reduce_sound (data : list Props) (acc acc' : Grouped) :
  Forall (Spec.bucket_sound h groupBy dateKey) acc ->
  reduce step data acc = Normal acc' ->
  Forall (Spec.bucket_sound h groupBy dateKey) acc'.
Proof.
  revert acc.
  induction data as [| item data IH]; intros acc Hacc Hr; simpl in Hr.
  - now injection Hr as <-.
  - destruct (step acc item) as [acc1 | msg] eqn:Hs; simpl in Hr; [| discriminate].
    apply IH in Hr; [assumption |]. clear Hr IH.
    destruct (group_step_cases acc acc1 item Hs)
      as [[Hk ->] | [[Hk (g & Hl & ->)] | (Hk & Hl & Hp & ->)]].
    + assumption.
    + apply Forall_forall. intros kv Hin.
      apply In_assign in Hin. destruct Hin as [-> | Hin].
      * apply lookup_In in Hl.
        rewrite Forall_forall in Hacc. specialize (Hacc _ Hl).
        destruct Hacc as [Hne Hall]. simpl in *.
        split.
        -- destruct (Group.items g); discriminate.
        -- intros i Hi. apply in_app_or in Hi. destruct Hi as [Hi | [<- | []]].
           ++ now apply Hall.
           ++ split; [exact Hk | reflexivity].
      * rewrite Forall_forall in Hacc. now apply Hacc.
    + apply Forall_app. split; [assumption |].
      constructor; [| constructor].
      split; simpl; [discriminate |].
      intros i [<- | []]. split; [exact Hk | reflexivity].
Qed.

(** Every record with a key lands in one bucket: the buckets hold one
    record more after each such turn. *)
Lemma held_assign (k : string) (g g' : Group.t) (acc : Grouped) :
  lookup k acc = Some g ->
  List.length (Group.items g') = S (List.length (Group.items g)) ->
  Spec.held (assign k g' acc) = S (Spec.held acc).
Proof.
  unfold Spec.held.
  induction acc as [| [k' g0] acc IH]; simpl; [discriminate |].
  destruct (String.eqb k k'); simpl.
  - intros [= ->] Hlen. rewrite Hlen. reflexivity.
  - intros Hl Hlen. rewrite (IH Hl Hlen). lia.
Qed.

Lemma held_app (acc acc2 : Grouped) :
  Spec.held (acc ++ acc2)%list = (Spec.held acc + Spec.held acc2)%nat.
Proof.
  unfold Spec.held. now rewrite map_app, list_sum_app.
Qed.

Lemma reduce_held (data : list Props) (acc acc' : Grouped) :
  reduce step data acc = Normal acc' ->
  Spec.held acc' = (Spec.held acc + List.length (keyed data))%nat.
Proof.
  revert acc.
  induction data as [| item data IH]; intros acc Hr; simpl in Hr.
  - injection Hr as <-. simpl. lia.
  - destruct (step acc item) as [acc1 | msg] eqn:Hs; simpl in Hr; [| discriminate].
    apply IH in Hr. rewrite Hr. clear Hr IH.
    unfold keyed, Spec.keyed. simpl. fold (has_key item).
    destruct (group_step_cases acc acc1 item Hs)
      as [[Hk ->] | [[Hk (g & Hl & ->)] | (Hk & Hl & Hp & ->)]]; rewrite Hk; simpl.
    + reflexivity.
    + rewrite (held_assign _ g _ acc Hl).
      * lia.
      * simpl. rewrite length_app. simpl. lia.
    + rewrite held_app. unfold Spec.held at 2. simpl. lia.
Qed.

(** The reduction returns unless a key that is not yet a bucket is a name
    inherited from [Object.prototype]. *)
Lemma reduce_returns (data : list Props) (acc : Grouped) :
  Forall (fun i => proto_member (key_string i) = false) (keyed data) ->
  returns (reduce step data acc).
Proof.
  revert acc.
  induction data as [| item data IH]; intros acc Hall; simpl.
  - apply returns_Normal.
  - unfold keyed, Spec.keyed in Hall. simpl in Hall. fold (has_key item) in Hall.
    destruct (has_key item) eqn:Hk.
    + inversion Hall as [| i l Hp Hrest]; subst.
      destruct (lookup (key_string item) acc) as [g |] eqn:Hl.
      * rewrite (group_step_pushed acc item g Hk Hl). simpl. now apply IH.
      * rewrite (group_step_created acc item Hk Hl Hp). simpl. now apply IH.
    + rewrite (group_step_dropped acc item Hk). simpl. now apply IH.
Qed.

(** Records without a key do not take part in the reduction. *)
Lemma reduce_keyed (data : list Props) (acc : Grouped) :
  reduce step data acc = reduce step (keyed data) acc.
Proof.
  revert acc.
  induction data as [| item data IH]; intros acc; simpl.
  - reflexivity.
  - unfold keyed, Spec.keyed. simpl. fold (has_key item).
    destruct (has_key item) eqn:Hk; simpl.
    + destruct (step acc item); simpl; [apply IH | reflexivity].
    + rewrite (group_step_dropped acc item Hk). simpl. apply IH.
Qed.

End Grouping.

(** ** Sorting and enumeration *)

Section Sorting.

Context {A : Type}.
Variable cmp : A -> A -> Z.

Lemma sort_insert_perm (x : A) (l : list A) :
  Permutation (x :: l) (sort_insert cmp x l).
Proof.
  induction l as [| y l IH]; simpl.
  - apply Permutation_refl.
  - destruct (0 <? cmp x y).
    + eapply perm_trans; [apply perm_swap |]. now apply perm_skip.
    + apply Permutation_refl.
Qed.

Lemma Array_sort_perm (l : list A) : Permutation l (Array_sort cmp l).
Proof.
  induction l as [| x l IH]; simpl.
  - apply perm_nil.
  - eapply perm_trans; [apply perm_skip, IH | apply sort_insert_perm].
Qed.

(** A comparator that never ranks two elements each above the other. *)
Hypothesis cmp_antisym : forall x y, 0 < cmp x y -> cmp y x <= 0.

Lemma sort_insert_sorted (x : A) (l : list A) :
  Sorted (fun a b => cmp a b <= 0) l ->
  Sorted (fun a b => cmp a b <= 0) (sort_insert cmp x l).
Proof.
  induction l as [| y l IH]; simpl; intros Hs.
  - repeat constructor.
  - destruct (0 <? cmp x y) eqn:E.
    + apply Z.ltb_lt in E.
      inversion Hs as [| y' l' Hs' Hhd]; subst.
      constructor; [now apply IH |].
      destruct l as [| z l]; simpl.
      * constructor. now apply cmp_antisym.
      * destruct (0 <? cmp x z).
        -- inversion Hhd; subst. now constructor.
        -- constructor. now apply cmp_antisym.
    + apply Z.ltb_ge in E. constructor; [assumption |]. now constructor.
Qed.

Lemma Array_sort_sorted (l : list A) :
  Sorted (fun a b => cmp a b <= 0) (Array_sort cmp l).
Proof.
  induction l as [| x l IH]; simpl.
  - constructor.
  - now apply sort_insert_sorted.
Qed.

End Sorting.

Lemma Sorted_adjacent {A} (R : A -> A -> Prop) (l l1 l2 : list A) (a b : A) :
  Sorted R l -> l = (l1 ++ a :: b :: l2)%list -> R a b.
Proof.
  revert l.
  induction l1 as [| c l1 IH]; intros l Hs ->; simpl in Hs.
  - inversion Hs as [| a' l' _ Hhd]; subst. now inversion Hhd.
  - inversion Hs as [| c' l' Hs' _]; subst. eapply IH; [exact Hs' | reflexivity].
Qed.

(** A comparator that is never positive on a list leaves it as it is. *)
Lemma Array_sort_unmoved {A} (cmp : A -> A -> Z) (l : list A) :
  (forall x y, In x l -> In y l -> cmp x y <= 0) ->
  Array_sort cmp l = l.
Proof.
  induction l as [| x l IH]; intros Hc; simpl.
  - reflexivity.
  - rewrite IH by (intros; apply Hc; now right).
    destruct l as [| y l]; simpl; [reflexivity |].
    assert (E : (0 <? cmp x y) = false).
    { apply Z.ltb_ge. apply Hc; [now left | right; now left]. }
    now rewrite E.
Qed.

Lemma own_entries_enumeration {V} (o : list (string * V)) :
  Spec.enumeration o (own_entries o).
Proof.
  unfold Spec.enumeration, own_entries.
  exists (Array_sort (fun a b => index_of a - index_of b) (filter is_index o)).
  split; [reflexivity |]. split.
  - apply Permutation_sym, Array_sort_perm.
  - eapply Sorted_ind with
      (P := fun l => Sorted (fun a b : string * V => index_of a <= index_of b) l);
      [constructor | | apply (Array_sort_sorted (fun a b : string * V => index_of a - index_of b))].
    + intros a l _ IH Hhd. constructor; [exact IH |].
      destruct Hhd; constructor. lia.
    + intros x y Hxy. lia.
Qed.

Lemma filter_partition_perm {A} (f : A -> bool) (l : list A) :
  Permutation l (filter f l ++ filter (fun x => negb (f x)) l).
Proof.
  induction l as [| x l IH]; simpl.
  - apply perm_nil.
  - destruct (f x); simpl.
    + now apply perm_skip.
    + eapply perm_trans; [apply perm_skip, IH |]. apply Permutation_middle.
Qed.

Lemma own_entries_perm {V} (o : list (string * V)) :
  Permutation o (own_entries o).
Proof.
  unfold own_entries.
  eapply perm_trans; [apply (filter_partition_perm is_index) |].
  apply Permutation_app_tail, Array_sort_perm.
Qed.

(** Without array indices among the keys the enumeration is the creation
    order. *)
Lemma own_entries_no_index {V} (o : list (string * V)) :
  Forall (fun kv => is_index kv = false) o -> own_entries o = o.
Proof.
  intros Hall. unfold own_entries.
  assert (H : filter is_index o = []
              /\ filter (fun kv => negb (is_index kv)) o = o).
  { induction Hall as [| kv l Hkv _ [IH1 IH2]]; simpl; [split; reflexivity |].
    rewrite Hkv. simpl. now rewrite IH1, IH2. }
  destruct H as [-> ->]. reflexivity.
Qed.

(** ** C5 *)

(** C5, as the code has it: on a bucket of numeric amounts [avgAmount] is
    the quotient, in double arithmetic, of the sum that [+] accumulates
    from left to right by the number of records.  Where the amounts are
    integers whose magnitudes sum to at most 2^53 this is the double
    nearest to the arithmetic mean, and the mean itself when that is an
    integer, as for 100 and 300, which give 200.  On an empty bucket the
    guard yields 0, where the quotient alone is NaN; the guard is there
    although no bucket of the group stage is empty. *)
Theorem avgAmount_is_rounded_mean :
  forall h,
    (forall items,
        Forall Spec.amount_numeric items -> items <> [] ->
        metric_value h "avgAmount" items = Normal (Number (Spec.double_mean items))
        /\ (Spec.safe_integers items ->
            metric_value h "avgAmount" items
            = Normal (Number (round_double (Spec.mean items)))
            /\ forall z, (Spec.mean items == inject_Z z)%Q ->
                         metric_value h "avgAmount" items = Normal (int z)))
    /\ (metric_value h "avgAmount" [] = Normal (int 0)
        /\ div_len h (sum_amount h []) 0 = Number NaN)
    /\ metric_value h "avgAmount" [Examples.jan15; Examples.jan31] = Normal (int 200)
    /\ (forall groupBy dateKey data groups,
           grouped h groupBy dateKey data = Normal groups ->
           Forall (fun kv => Group.items (snd kv) <> []) groups).
Proof.
  intros h. split; [| split; [| split]].
  - intros items Hnum Hne.
    assert (Hadds : Forall Spec.amount_adds items).
    { eapply Forall_impl; [| exact Hnum].
      intros i [q Hq]. unfold Spec.amount_adds, Spec.amount_of. rewrite Hq. discriminate. }
    rewrite (avgAmount_double h items Hadds Hne).
    split; [reflexivity |].
    intros Hsafe. destruct (double_mean_exact items Hsafe Hne) as [Hround Hint].
    split; [now rewrite Hround |].
    intros z Hz. now rewrite (Hint z Hz).
  - split; reflexivity.
  - vm_compute. reflexivity.
  - intros groupBy dateKey data groups Hg.
    eapply Forall_impl; [| eapply reduce_sound; [constructor | exact Hg]].
    intros kv [Hne _]. exact Hne.
Qed.

(** The mean of 100 and 300, through the general statement. *)
Lemma avgAmount_is_rounded_mean_witness :
  metric_value Examples.utc_host "avgAmount" [Examples.jan15; Examples.jan31]
  = Normal (Number (round_double (Spec.mean [Examples.jan15; Examples.jan31])))
  /\ round_double (Spec.mean [Examples.jan15; Examples.jan31]) = Fin (inject_Z 200).
Proof.
  destruct (proj1 (avgAmount_is_rounded_mean Examples.utc_host)
              [Examples.jan15; Examples.jan31]) as [_ Hsafe].
  - repeat constructor; eexists; reflexivity.
  - discriminate.
  - destruct Hsafe as [Hround _].
    + split; [repeat constructor; discriminate | vm_compute; discriminate].
    + split; [exact Hround | vm_compute; reflexivity].
Defined.

(** C5 as stated fails on ordinary amounts: for donations of 0.1, 0.2 and
    0.3 the code returns 0.20000000000000004, which is neither the mean
    of the three amounts nor the double nearest to it, 0.2: the sum has
    rounded twice before the division. *)
Lemma avgAmount_of_three_small_gifts :
  metric_value Examples.utc_host "avgAmount"
    [Examples.a_tenth; Examples.a_fifth; Examples.three_tenths]
  = Normal (literal (20000000000000004 # 100000000000000000))
  /\ Number (round_double
               (Spec.mean [Examples.a_tenth; Examples.a_fifth; Examples.three_tenths]))
     = literal (2 # 10)
  /\ literal (20000000000000004 # 100000000000000000) <> literal (2 # 10).
Proof.
  split; [vm_compute; reflexivity |]. split; [vm_compute; reflexivity |].
  vm_compute. discriminate.
Qed.

(** ** C3 *)

(** C3, as the code has it: for [totalAmount] and [avgAmount] the metric
    stage never throws; a null amount adds 0, and over amounts that are
    numbers or null the value is their sum in double arithmetic, or its
    quotient by the number of records: the exact sum, and the double
    nearest to the mean, where the amounts are integers whose magnitudes
    sum to at most 2^53.  Nothing guards the other amounts, and one
    missing amount among number-like amounts makes the value of the
    bucket NaN. *)
Theorem amount_metrics_have_no_guard :
  forall h items,
    (returns (metric_value h "totalAmount" items)
     /\ returns (metric_value h "avgAmount" items))
    /\ (Forall Spec.amount_adds items ->
        metric_value h "totalAmount" items = Normal (Number (Spec.double_total items))
        /\ (items <> [] ->
            metric_value h "avgAmount" items = Normal (Number (Spec.double_mean items))))
    /\ (Spec.safe_integers items ->
        (exists q, metric_value h "totalAmount" items = Normal (Number (Fin q))
                   /\ (q == Spec.total items)%Q)
        /\ (items <> [] ->
            metric_value h "avgAmount" items
            = Normal (Number (round_double (Spec.mean items)))))
    /\ (Forall Spec.amount_number_like items ->
        Exists Spec.amount_missing items ->
        metric_value h "totalAmount" items = Normal (Number NaN)
        /\ metric_value h "avgAmount" items = Normal (Number NaN)).
Proof.
  intros h items. split; [| split; [| split]].
  - split; [rewrite metric_totalAmount | rewrite metric_avgAmount];
      apply returns_Normal.
  - intros Hall. split.
    + rewrite metric_totalAmount. now rewrite (sum_amount_double h items Hall).
    + now apply avgAmount_double.
  - intros Hsafe.
    pose proof (safe_integers_add items Hsafe) as Hall.
    split.
    + rewrite metric_totalAmount, (sum_amount_double h items Hall).
      destruct (double_total_exact items Hsafe) as (zt & -> & Ht & _).
      exists (inject_Z zt). split; [reflexivity | now rewrite Ht].
    + intros Hne. rewrite (avgAmount_double h items Hall Hne).
      now rewrite (proj1 (double_mean_exact items Hsafe Hne)).
  - intros Hall Hex.
    assert (Hsum : sum_amount h items = Number NaN).
    { unfold sum_amount, int. apply sum_amount_poisoned_from; auto. }
    rewrite metric_totalAmount, metric_avgAmount, Hsum.
    split; [reflexivity |].
    destruct items; [inversion Hex | reflexivity].
Qed.

(** A bucket of one amount of 100 and one null amount totals 100. *)
Lemma amount_metrics_have_no_guard_witness :
  exists q, metric_value Examples.utc_host "totalAmount"
              [Examples.jan15; [("amount", Null)]] = Normal (Number (Fin q))
            /\ (q == 100)%Q.
Proof.
  assert (Hsafe : Spec.safe_integers [Examples.jan15; [("amount", Null)]])
    by (split; [repeat constructor; discriminate | vm_compute; discriminate]).
  destruct (proj1 (proj1 (proj2 (proj2 (amount_metrics_have_no_guard Examples.utc_host
              [Examples.jan15; [("amount", Null)]]))) Hsafe)) as (q & Hq & Hm).
  exists q. split; [exact Hq |]. rewrite Hm. reflexivity.
Defined.

(** C3 as stated fails: a record without amount does not add 0 to a bucket
    that holds 100, it makes the total and the mean NaN. *)
Lemma missing_amount_poisons_bucket :
  metric_value Examples.utc_host "totalAmount"
    [Examples.jan15; Examples.no_amount] = Normal (Number NaN)
  /\ metric_value Examples.utc_host "avgAmount"
    [Examples.jan15; Examples.no_amount] = Normal (Number NaN)
  /\ metric_value Examples.utc_host "totalAmount" [Examples.jan15] = Normal (int 100).
Proof. repeat split. Qed.

(** ** The pipeline as a whole *)

Lemma mapM_Forall2 {A B} (f : A -> Completion B) (l : list A) (ys : list B) :
  mapM f l = Normal ys -> Forall2 (fun x y => f x = Normal y) l ys.
Proof.
  revert ys.
  induction l as [| x l IH]; intros ys Hm; simpl in Hm.
  - injection Hm as <-. constructor.
  - destruct (f x) as [y | msg] eqn:Hx; simpl in Hm; [| discriminate].
    destruct (mapM f l) as [ys' | msg] eqn:Hl; simpl in Hm; [| discriminate].
    injection Hm as <-. constructor; [assumption | now apply IH].
Qed.

Lemma mapM_pure {A B} (f : A -> Completion B) (g : A -> B) (l : list A) :
  (forall x, In x l -> f x = Normal (g x)) -> mapM f l = Normal (map g l).
Proof.
  induction l as [| x l IH]; intros Hf; simpl.
  - reflexivity.
  - rewrite Hf by now left. simpl. rewrite IH by (intros; apply Hf; now right).
    reflexivity.
Qed.

Lemma filter_comm {A} (f g : A -> bool) (l : list A) :
  filter f (filter g l) = filter g (filter f l).
Proof.
  induction l as [| x l IH]; simpl; [reflexivity |].
  destruct (g x) eqn:Hg, (f x) eqn:Hf; simpl; rewrite ?Hg, ?Hf, IH; reflexivity.
Qed.

Lemma list_sum_perm (l l' : list nat) :
  Permutation l l' -> list_sum l = list_sum l'.
Proof.
  induction 1; simpl; lia.
Qed.

Lemma to_point_name h groupBy metric clients teamMembers (g : Group.t) (p : Point.t) :
  to_point h groupBy metric clients teamMembers g = Normal p ->
  Point.name p = display_name h groupBy clients teamMembers g.
Proof.
  unfold to_point.
  destruct (metric_value h metric (Group.items g)); simpl; [| discriminate].
  now intros [= <-].
Qed.

Lemma metric_counts h (metric : string) (items : list Props) :
  Spec.counts_records metric ->
  metric_value h metric items = Normal (int (Z.of_nat (List.length items))).
Proof.
  intros (Ht & Ha & Hk). unfold metric_value.
  destruct (String.eqb metric "count"); [reflexivity |].
  destruct (String.eqb_spec metric "totalAmount"); [contradiction |].
  destruct (String.eqb_spec metric "avgAmount"); [contradiction |].
  destruct (String.eqb_spec metric "taskCount"); [contradiction |].
  reflexivity.
Qed.

Lemma compare_points_antisym h :
  Spec.collation_antisymmetric h ->
  forall a b, 0 < compare_points h a b -> compare_points h b a <= 0.
Proof.
  intros Hc a b. unfold compare_points.
  destruct (Point.name a) as [| | ? | ? | x | ? ? | ? ?],
           (Point.name b) as [| | ? | ? | y | ? ? | ? ?]; try lia.
  apply Hc.
Qed.

Lemma groupBy_nonempty (groupBy : string) :
  groupBy <> "" -> String.eqb groupBy "" = false.
Proof.
  intros Hne. destruct (String.eqb_spec groupBy ""); [contradiction | reflexivity].
Qed.

(** ** C6 *)

(** C6: a record that survives the filter stage and whose group key is
    null or undefined leaves the grouped object as it is; the group stage,
    and the whole pipeline, give the same result with these records
    removed; and every bucket holds only records whose key is defined and
    is the key of the bucket, so none collects the records without key. *)
Theorem null_key_records_are_dropped :
  forall h groupBy dateKey data,
    (forall acc item,
        nullish (group_key h groupBy dateKey item) = true ->
        group_step h groupBy dateKey acc item = Normal acc)
    /\ grouped h groupBy dateKey data
       = grouped h groupBy dateKey (Spec.keyed h groupBy dateKey data)
    /\ (forall groups,
           grouped h groupBy dateKey data = Normal groups ->
           Forall (Spec.bucket_sound h groupBy dateKey) groups)
    /\ (forall reportMode dataSource filters metric
               donations_ activities_ projects_ cases_ clients teamMembers,
           dateKey = dateKey_of dataSource ->
           processedData h reportMode dataSource filters groupBy metric
             donations_ activities_ projects_ cases_ clients teamMembers
           = processedData h reportMode dataSource filters groupBy metric
               (Spec.keyed h groupBy dateKey donations_)
               (Spec.keyed h groupBy dateKey activities_)
               (Spec.keyed h groupBy dateKey projects_)
               (Spec.keyed h groupBy dateKey cases_) clients teamMembers).
Proof.
  intros h groupBy dateKey data. split; [| split; [| split]].
  - intros acc item Hn. apply group_step_dropped.
    unfold Spec.has_key. now rewrite Hn.
  - apply reduce_keyed.
  - intros groups Hg. eapply reduce_sound; [constructor | exact Hg].
  - intros reportMode dataSource filters metric
           donations_ activities_ projects_ cases_ clients teamMembers ->.
    unfold processedData. destruct reportMode; [| reflexivity].
    destruct (String.eqb groupBy ""); [reflexivity |].
    assert (Hbase :
      filteredData h filters (dateKey_of dataSource)
        (baseData_of dataSource
           (Spec.keyed h groupBy (dateKey_of dataSource) donations_)
           (Spec.keyed h groupBy (dateKey_of dataSource) activities_)
           (Spec.keyed h groupBy (dateKey_of dataSource) projects_)
           (Spec.keyed h groupBy (dateKey_of dataSource) cases_))
      = Spec.keyed h groupBy (dateKey_of dataSource)
          (filteredData h filters (dateKey_of dataSource)
             (baseData_of dataSource donations_ activities_ projects_ cases_))).
    { unfold filteredData, Spec.keyed.
      destruct dataSource; simpl; apply filter_comm. }
    rewrite Hbase. unfold grouped.
    now rewrite <- (reduce_keyed h groupBy (dateKey_of dataSource)).
Qed.

(** A case without priority, grouped by priority, is dropped. *)
Lemma null_key_records_are_dropped_witness :
  processedData Examples.utc_host database cases Examples.no_filters
    "priority" "count" [] [] [] [Examples.jan15; Examples.priority1] [] []
  = Normal [{| Point.name := int 1; Point.value := int 1 |}].
Proof.
  rewrite (proj2 (proj2 (proj2 (null_key_records_are_dropped
             Examples.utc_host "priority" "createdAt" [])))
             database cases Examples.no_filters "count"
             [] [] [] [Examples.jan15; Examples.priority1] [] [] eq_refl).
  reflexivity.
Defined.

(** ** C7 *)

(** C7, as the code has it: in the list the pipeline returns, two adjacent
    points whose names are both strings are in ascending order of the
    collation; when no name is a string the comparator is 0 throughout and
    the points stand in the order in which [Object.values] enumerates the
    grouped object, that is the buckets whose key is an array index first,
    by ascending index, then the other buckets in the order in which their
    keys were first encountered. *)
Theorem order_stage_sorted_or_enumerated :
  forall h,
    Spec.collation_antisymmetric h ->
    forall dataSource filters groupBy metric
           donations_ activities_ projects_ cases_ clients teamMembers pts,
      groupBy <> "" ->
      processedData h database dataSource filters groupBy metric
        donations_ activities_ projects_ cases_ clients teamMembers = Normal pts ->
      Spec.adjacent_ascending h pts
      /\ (Spec.no_string_name pts ->
          exists groups e,
            grouped h groupBy (dateKey_of dataSource)
              (filteredData h filters (dateKey_of dataSource)
                 (baseData_of dataSource donations_ activities_ projects_ cases_))
            = Normal groups
            /\ keys groups
               = Spec.first_seen_keys h groupBy (dateKey_of dataSource)
                   (filteredData h filters (dateKey_of dataSource)
                      (baseData_of dataSource donations_ activities_ projects_ cases_))
            /\ Spec.enumeration groups e
            /\ map Point.name pts
               = map (fun kv => display_name h groupBy clients teamMembers (snd kv)) e).
Proof.
  intros h Hanti dataSource filters groupBy metric
         donations_ activities_ projects_ cases_ clients teamMembers pts Hne Hp.
  unfold processedData in Hp. rewrite (groupBy_nonempty groupBy Hne) in Hp.
  set (data := filteredData h filters (dateKey_of dataSource)
                 (baseData_of dataSource donations_ activities_ projects_ cases_)) in *.
  destruct (grouped h groupBy (dateKey_of dataSource) data) as [groups | msg] eqn:Hg;
    simpl in Hp; [| discriminate].
  destruct (mapM (to_point h groupBy metric clients teamMembers) (Object_values groups))
    as [pts0 | msg] eqn:Hm; simpl in Hp; [| discriminate].
  injection Hp as <-.
  split.
  - intros l1 a b l2 x y Hsplit Ha Hb.
    pose proof (Array_sort_sorted (compare_points h) (compare_points_antisym h Hanti) pts0)
      as Hsorted.
    pose proof (Sorted_adjacent _ _ l1 l2 a b Hsorted Hsplit) as Hab.
    simpl in Hab. unfold compare_points in Hab. now rewrite Ha, Hb in Hab.
  - intros Hnos.
    assert (Hnos0 : Spec.no_string_name pts0).
    { unfold Spec.no_string_name in *.
      eapply Permutation_Forall; [| exact Hnos].
      apply Permutation_sym, Array_sort_perm. }
    assert (Hid : Array_sort (compare_points h) pts0 = pts0).
    { apply Array_sort_unmoved. intros a b Ha _.
      unfold Spec.no_string_name in Hnos0. rewrite Forall_forall in Hnos0.
      specialize (Hnos0 a Ha). unfold compare_points.
      destruct (Point.name a); try discriminate; lia. }
    rewrite Hid.
    exists groups, (own_entries groups). repeat split.
    + unfold grouped in Hg. apply reduce_keys in Hg. exact Hg.
    + apply own_entries_enumeration.
    + apply mapM_Forall2 in Hm. unfold Object_values in Hm.
      clear - Hm. revert pts0 Hm.
      induction (own_entries groups) as [| kv e IH]; intros pts0 Hm;
        inversion Hm as [| g p gs ps Hgp Hrest]; subst; simpl.
      * reflexivity.
      * rewrite (to_point_name _ _ _ _ _ _ _ Hgp). f_equal. now apply IH.
Qed.

(** Two cases open and closed, grouped by status under code-unit order:
    the point named Closed comes first. *)
Lemma order_stage_sorted_or_enumerated_witness :
  Examples.code_unit_order "Closed" "Open" <= 0.
Proof.
  refine (proj1 (order_stage_sorted_or_enumerated Examples.utc_host _
            cases Examples.no_filters "status" "count" [] [] []
            [ [("status", Str "Open")]; [("status", Str "Closed")] ] [] []
            [{| Point.name := Str "Closed"; Point.value := int 1 |};
             {| Point.name := Str "Open"; Point.value := int 1 |}] _ _)
            [] _ _ [] "Closed" "Open" eq_refl eq_refl eq_refl).
  - intros x y. simpl. unfold Examples.code_unit_order.
    rewrite (String.compare_antisym x y).
    destruct (String.compare y x); simpl; lia.
  - discriminate.
  - reflexivity.
Defined.

(** C7 as stated fails: two cases of priority 2 and 1, met in that order,
    come out as 1 then 2 although no name is a string, because the keys
    ["2"] and ["1"] are array indices of the grouped object. *)
Lemma numeric_keys_leave_encounter_order :
  processedData Examples.utc_host database cases Examples.no_filters
    "priority" "count" [] [] [] [Examples.priority2; Examples.priority1] [] []
  = Normal [{| Point.name := int 1; Point.value := int 1 |};
            {| Point.name := int 2; Point.value := int 1 |}]
  /\ Spec.first_seen_keys Examples.utc_host "priority" "createdAt"
       [Examples.priority2; Examples.priority1] = ["2"; "1"].
Proof. split; reflexivity. Qed.

(** ** C9 *)

(** Where no key is a name that every object inherits, the pipeline
    returns and its counts add up to the records that have a key, each
    count being at least 1. *)
Lemma count_conservation :
  forall h dataSource filters groupBy metric
         donations_ activities_ projects_ cases_ clients teamMembers,
    let dateKey := dateKey_of dataSource in
    let data := filteredData h filters dateKey
                  (baseData_of dataSource donations_ activities_ projects_ cases_) in
    groupBy <> "" ->
    Spec.counts_records metric ->
    Forall (fun i => proto_member (Spec.key_string h groupBy dateKey i) = false)
           (Spec.keyed h groupBy dateKey data) ->
    exists pts counts,
      processedData h database dataSource filters groupBy metric
        donations_ activities_ projects_ cases_ clients teamMembers = Normal pts
      /\ map Point.value pts = map (fun n => int (Z.of_nat n)) counts
      /\ list_sum counts = List.length (Spec.keyed h groupBy dateKey data)
      /\ Forall (fun n => (1 <= n)%nat) counts.
Proof.
  intros h dataSource filters groupBy metric
         donations_ activities_ projects_ cases_ clients teamMembers dateKey data
         Hne Hmetric Hproto.
  unfold processedData. rewrite (groupBy_nonempty groupBy Hne).
  fold dateKey. fold data.
  destruct (reduce_returns h groupBy dateKey data [] Hproto) as [groups Hg].
  unfold grouped. rewrite Hg. simpl.
  set (mk := fun g : Group.t =>
               {| Point.name := display_name h groupBy clients teamMembers g;
                  Point.value := int (Z.of_nat (List.length (Group.items g))) |}).
  rewrite (mapM_pure _ mk).
  2:{ intros g _. unfold to_point. now rewrite (metric_counts h metric _ Hmetric). }
  simpl.
  set (pts0 := map mk (Object_values groups)).
  set (lens := map (fun kv : string * Group.t => List.length (Group.items (snd kv)))
                   (own_entries groups)).
  assert (Hvals : map Point.value pts0 = map (fun n => int (Z.of_nat n)) lens).
  { unfold pts0, lens, Object_values. rewrite !map_map. reflexivity. }
  pose proof (Array_sort_perm (compare_points h) pts0) as Hperm.
  apply (Permutation_map Point.value) in Hperm. rewrite Hvals in Hperm.
  apply Permutation_sym in Hperm.
  destruct (Permutation_map_inv _ _ Hperm) as (counts & Hcounts & Hpc).
  exists (Array_sort (compare_points h) pts0), counts.
  split; [reflexivity |]. split; [exact Hcounts |].
  assert (Hown : Permutation groups (own_entries groups)) by apply own_entries_perm.
  split.
  - rewrite <- (list_sum_perm _ _ Hpc). unfold lens.
    rewrite <- (list_sum_perm _ _ (Permutation_map _ Hown)).
    pose proof (reduce_held h groupBy dateKey data [] groups Hg) as Hheld.
    exact Hheld.
  - eapply Permutation_Forall; [exact Hpc |].
    unfold lens. rewrite Forall_map.
    eapply Permutation_Forall; [exact Hown |].
    eapply Forall_impl; [| eapply reduce_sound; [constructor | exact Hg]].
    intros kv [Hnonempty _].
    destruct (Group.items (snd kv)); [congruence | simpl; lia].
Qed.

(** C9 at a donation whose campaign is named [constructor]: the record
    survives the filters and has a key, and the pipeline throws instead of
    returning a bucket that counts it. *)
Theorem inherited_key_breaks_count :
  Spec.keyed Examples.utc_host "campaign" "donationDate"
    (filteredData Examples.utc_host Examples.no_filters "donationDate"
       [Examples.campaign_constructor]) = [Examples.campaign_constructor]
  /\ processedData Examples.utc_host database donations Examples.no_filters
       "campaign" "count" [Examples.campaign_constructor] [] [] [] [] []
     = Throw "TypeError: cannot read properties of undefined (reading 'push')".
Proof. split; reflexivity. Qed.

(** ** C10 *)

Lemma month_key_invalid h (dateKey : string) (item : Props) :
  new_Date h (get item dateKey) = None -> month_key h dateKey item = "NaN-NaN".
Proof.
  intros Hd. unfold month_key. rewrite Hd. reflexivity.
Qed.

Lemma month_label_NaN h :
  month_label h (Str "NaN-NaN")
  = toLocaleString_month_year h (parse_fallback h "NaN-NaN-02").
Proof. reflexivity. Qed.

(** C10, as the code has it: a record whose date does not parse is not
    dropped when the grouping is by month; its key is the string
    [NaN-NaN], the turn of the reduction puts it in the bucket of that
    key, which all such records share; the label of that bucket is the
    rendering of the date the host reads in [NaN-NaN-02], and it is the
    invalid-date rendering on a host that reads no date there. *)
Theorem invalid_date_bucket :
  forall h dateKey item,
    new_Date h (get item dateKey) = None ->
    group_key h "month" dateKey item = Str "NaN-NaN"
    /\ (forall acc, exists acc' g,
           group_step h "month" dateKey acc item = Normal acc'
           /\ lookup "NaN-NaN" acc' = Some g
           /\ In item (Group.items g))
    /\ (forall clients teamMembers g,
           Group.name g = Str "NaN-NaN" ->
           display_name h "month" clients teamMembers g
           = Str (toLocaleString_month_year h (parse_fallback h "NaN-NaN-02")))
    /\ (parse_fallback h "NaN-NaN-02" = None ->
        forall clients teamMembers g,
          Group.name g = Str "NaN-NaN" ->
          display_name h "month" clients teamMembers g = Str "Invalid Date").
Proof.
  intros h dateKey item Hd.
  assert (Hkey : group_key h "month" dateKey item = Str "NaN-NaN").
  { unfold group_key. simpl. now rewrite month_key_invalid. }
  assert (Hlabel : forall clients teamMembers g,
             Group.name g = Str "NaN-NaN" ->
             display_name h "month" clients teamMembers g
             = Str (toLocaleString_month_year h (parse_fallback h "NaN-NaN-02"))).
  { intros clients teamMembers g Hn. unfold display_name. simpl.
    now rewrite Hn, month_label_NaN. }
  split; [exact Hkey |]. split; [| split; [exact Hlabel |]].
  - intros acc.
    assert (Hk : Spec.has_key h "month" dateKey item = true).
    { unfold Spec.has_key. now rewrite Hkey. }
    assert (Hs : Spec.key_string h "month" dateKey item = "NaN-NaN").
    { unfold Spec.key_string. now rewrite Hkey. }
    destruct (lookup "NaN-NaN" acc) as [g |] eqn:Hl.
    + rewrite <- Hs in Hl.
      rewrite (group_step_pushed h "month" dateKey acc item g Hk Hl). rewrite Hs in *.
      eexists _, _. split; [reflexivity |]. split.
      * eapply lookup_assign_same. exact Hl.
      * simpl. apply in_or_app. right. now left.
    + rewrite <- Hs in Hl.
      rewrite (group_step_created h "month" dateKey acc item Hk Hl)
        by (rewrite Hs; reflexivity).
      rewrite Hs in *.
      eexists _, _. split; [reflexivity |]. split.
      * now apply lookup_app_new.
      * simpl. now left.
  - intros Hf clients teamMembers g Hn.
    rewrite (Hlabel clients teamMembers g Hn), Hf. reflexivity.
Qed.

(** A donation dated [soon] on a host that reads ISO dates only. *)
Lemma invalid_date_bucket_witness :
  group_key Examples.utc_host "month" "donationDate" Examples.no_date = Str "NaN-NaN"
  /\ display_name Examples.utc_host "month" [] []
       {| Group.name := Str "NaN-NaN"; Group.items := [Examples.no_date] |}
     = Str "Invalid Date".
Proof.
  pose proof (invalid_date_bucket Examples.utc_host "donationDate" Examples.no_date
                eq_refl) as (Hkey & _ & _ & Hinvalid).
  split; [exact Hkey |].
  apply (Hinvalid eq_refl). reflexivity.
Defined.

(** C10 as stated fails on a host whose parser reads a date in
    [NaN-NaN-02]: the bucket of the records without valid date is labelled
    as a month of 2001, not as an invalid date. *)
Lemma invalid_date_label_on_lenient_host :
  processedData Examples.lenient_host database donations Examples.no_filters
    "month" "count" [Examples.no_date] [] [] [] [] []
  = Normal [{| Point.name := Str "Feb 2001"; Point.value := int 1 |}].
Proof. reflexivity. Qed.

(** ** C2 *)

(** In UTC the three donations of the example are keyed as the
    specification says. *)
Lemma month_key_in_utc :
  month_key Examples.utc_host "donationDate" Examples.jan15 = "2024-01"
  /\ month_key Examples.utc_host "donationDate" Examples.jan31 = "2024-01"
  /\ month_key Examples.utc_host "donationDate" Examples.feb01 = "2024-02".
Proof. repeat split. Qed.

(** C2 five hours west of UTC: the donation dated 2024-02-01 is read as
    midnight UTC, which is still the 31st of January there, so it is keyed
    [2024-01] and counted in the bucket of the two January donations. *)
Theorem february_first_lands_in_january :
  month_key Examples.new_york_host "donationDate" Examples.jan15 = "2024-01"
  /\ month_key Examples.new_york_host "donationDate" Examples.jan31 = "2024-01"
  /\ month_key Examples.new_york_host "donationDate" Examples.feb01 = "2024-01"
  /\ processedData Examples.new_york_host database donations Examples.no_filters
       "month" "count" [Examples.jan15; Examples.jan31; Examples.feb01] [] [] [] [] []
     = Normal [{| Point.name := Str "Jan 2024"; Point.value := int 3 |}].
Proof. repeat split. Qed.

(** ** The shape of a month key *)

Lemma holds_from_spec (check : Z -> bool) (n : nat) (z : Z) :
  Spec.holds_from check n z = true ->
  forall k, z <= k < z + Z.of_nat n -> check k = true.
Proof.
  revert z.
  induction n as [| n IH]; intros z Hh k Hk.
  - simpl in Hk. lia.
  - simpl in Hh. apply andb_true_iff in Hh. destruct Hh as [Hz Hrest].
    destruct (Z.eq_dec k z) as [-> | Hne]; [assumption |].
    apply (IH (z + 1) Hrest). lia.
Qed.

Lemma months_of_the_period :
  Spec.holds_from Spec.month_in_year (Z.to_nat 146097) 0 = true.
Proof. vm_compute. reflexivity. Qed.

Lemma civil_month_range (days : Z) :
  1 <= snd (civil_from_days days) <= 12.
Proof.
  unfold civil_from_days.
  set (z := days + 719468).
  assert (Hdoe : 0 <= z - z / 146097 * 146097 < 0 + Z.of_nat (Z.to_nat 146097)).
  { rewrite Z2Nat.id by lia.
    pose proof (Z.mod_pos_bound z 146097 ltac:(lia)) as Hm.
    rewrite Z.mod_eq in Hm by lia. lia. }
  pose proof (holds_from_spec _ _ _ months_of_the_period _ Hdoe) as Hc.
  unfold Spec.month_in_year in Hc.
  apply andb_true_iff in Hc. destruct Hc as [H1 H2].
  apply Z.leb_le in H1, H2.
  change (snd (civil_from_doe (z / 146097) (z - z / 146097 * 146097)))
    with (snd (civil_from_doe 0 (z - z / 146097 * 146097))).
  lia.
Qed.

Lemma MonthFromTime_range (t : Z) : 0 <= MonthFromTime t <= 11.
Proof.
  unfold MonthFromTime. pose proof (civil_month_range (Day t)). lia.
Qed.

Lemma num_to_string_int h (z : Z) :
  Z.abs z < 10 ^ 21 -> num_to_string h (Fin (inject_Z z)) = Z_to_string z.
Proof.
  intros Hz. unfold num_to_string. rewrite Qred_inject_Z.
  unfold inject_Z. cbn [Qnum Qden]. rewrite Pos.eqb_refl.
  apply Z.ltb_lt in Hz. now rewrite Hz.
Qed.

Lemma add_ints h (a b : Z) :
  Z.abs (a + b) <= 2 ^ 53 ->
  add h (Number (Fin (inject_Z a))) (int b) = int (a + b).
Proof.
  intros Hab. unfold int. rewrite add_numbers. f_equal.
  apply round_double_int; [| exact Hab]. now rewrite inject_Z_plus.
Qed.

Lemma two_digit_month (m : Z) :
  1 <= m <= 12 -> String.length (padStart0 (Z_to_string m) 2) = 2%nat.
Proof.
  intros Hm.
  assert (H : m = 1 \/ m = 2 \/ m = 3 \/ m = 4 \/ m = 5 \/ m = 6 \/ m = 7
              \/ m = 8 \/ m = 9 \/ m = 10 \/ m = 11 \/ m = 12) by lia.
  repeat (destruct H as [-> | H]; [reflexivity |]). subst. reflexivity.
Qed.

(** On a valid date the key of the month grouping is the local year, a
    dash, and the local month number written with two digits. *)
Lemma month_key_shape h (dateKey : string) (item : Props) (t : Z) :
  new_Date h (get item dateKey) = Some t ->
  Z.abs (YearFromTime (LocalTime h t)) < 10 ^ 21 ->
  exists mm,
    month_key h dateKey item
    = Z_to_string (YearFromTime (LocalTime h t)) ++ "-" ++ mm
    /\ mm = padStart0 (Z_to_string (MonthFromTime (LocalTime h t) + 1)) 2
    /\ String.length mm = 2%nat.
Proof.
  intros Hd Hy.
  pose proof (MonthFromTime_range (LocalTime h t)) as Hm.
  eexists. split; [| split; [reflexivity |]].
  - unfold month_key. rewrite Hd. unfold getFullYear, getMonth.
    rewrite add_ints by lia. unfold int. unfold to_string.
    rewrite !num_to_string_int by lia. reflexivity.
  - apply two_digit_month. lia.
Qed.

(** The donation of the 15th of January on a host five hours west. *)
Lemma month_key_shape_witness :
  exists mm,
    month_key Examples.new_york_host "donationDate" Examples.jan15
    = "2024" ++ "-" ++ mm /\ String.length mm = 2%nat.
Proof.
  destruct (month_key_shape Examples.new_york_host "donationDate" Examples.jan15
              1705276800000 eq_refl) as (mm & Hk & _ & Hl).
  - vm_compute. reflexivity.
  - exists mm. split; [exact Hk | exact Hl].
Defined.

(** The initial filters keep the three donations of the example. *)
Lemma filter_stage_keeps_exactly_witness :
  filteredData Examples.utc_host Examples.no_filters "donationDate"
    [Examples.jan15; Examples.jan31; Examples.feb01]
  = [Examples.jan15; Examples.jan31; Examples.feb01].
Proof.
  apply (proj2 (filter_stage_keeps_exactly Examples.utc_host donations
                  Examples.no_filters
                  [Examples.jan15; Examples.jan31; Examples.feb01])).
  repeat split.
  - discriminate.
  - discriminate.
  - intros key Hne [Hset _]. unfold Spec.is_set, Examples.no_filters, get in Hset.
    simpl in Hset.
    destruct (String.eqb_spec key "dateRange"); [contradiction | discriminate].
Defined.

(** Three donations for two campaigns, counted. *)
Lemma count_conservation_witness :
  exists pts counts,
    processedData Examples.utc_host database donations Examples.no_filters
      "campaign" "count"
      [ [("campaign", Str "Spring")]; [("campaign", Str "Autumn")];
        [("campaign", Str "Spring")]; Examples.jan15 ] [] [] [] [] []
    = Normal pts
    /\ map Point.value pts = map (fun n => int (Z.of_nat n)) counts
    /\ list_sum counts = 3%nat.
Proof.
  destruct (count_conservation Examples.utc_host donations Examples.no_filters
              "campaign" "count"
              [ [("campaign", Str "Spring")]; [("campaign", Str "Autumn")];
                [("campaign", Str "Spring")]; Examples.jan15 ] [] [] [] [] [])
    as (pts & counts & Hp & Hv & Hs & _).
  - discriminate.
  - repeat split; discriminate.
  - repeat constructor.
  - exists pts, counts. repeat split; assumption.
Defined.

(** * The report builder around the pipeline *)

(** ** Writing a filter *)

Lemma lookup_assign_other {A} (k k' : string) (v : A) (o : list (string * A)) :
  k' <> k -> lookup k' (assign k v o) = lookup k' o.
Proof.
  intros Hne.
  induction o as [| [k0 v0] o IH]; simpl; [reflexivity |].
  destruct (String.eqb_spec k k0) as [-> | Hk]; simpl.
  - destruct (String.eqb_spec k' k0); [contradiction | reflexivity].
  - destruct (String.eqb k' k0); [reflexivity | exact IH].
Qed.

Lemma lookup_app_other {A} (k k' : string) (v : A) (o : list (string * A)) :
  k' <> k -> lookup k' (o ++ [(k, v)])%list = lookup k' o.
Proof.
  intros Hne.
  induction o as [| [k0 v0] o IH]; simpl.
  - destruct (String.eqb_spec k' k); [contradiction | reflexivity].
  - destruct (String.eqb k' k0); [reflexivity | exact IH].
Qed.

Lemma lookup_set_same (k : string) (v : Val) (o : Props) :
  lookup k (ReportsView.set k v o) = Some v.
Proof.
  unfold ReportsView.set.
  destruct (lookup k o) as [v0 |] eqn:Hl.
  - eapply lookup_assign_same. exact Hl.
  - now apply lookup_app_new.
Qed.

Lemma lookup_set_other (k k' : string) (v : Val) (o : Props) :
  k' <> k -> lookup k' (ReportsView.set k v o) = lookup k' o.
Proof.
  intros Hne. unfold ReportsView.set.
  destruct (lookup k o); [now apply lookup_assign_other | now apply lookup_app_other].
Qed.

Lemma get_set_same (k : string) (v : Val) (o : Props) :
  get (ReportsView.set k v o) k = v.
Proof. unfold get. now rewrite lookup_set_same. Qed.

Lemma get_set_other (k k' : string) (v : Val) (o : Props) :
  k' <> k -> get (ReportsView.set k v o) k' = get o k'.
Proof. intros Hne. unfold get. now rewrite lookup_set_other. Qed.

Lemma assign_assign {A} (k : string) (v v' : A) (o : list (string * A)) :
  assign k v (assign k v' o) = assign k v o.
Proof.
  induction o as [| [k0 v0] o IH]; simpl; [reflexivity |].
  destruct (String.eqb k k0) eqn:E; simpl; rewrite E; [reflexivity | now rewrite IH].
Qed.

Lemma assign_app_new {A} (k : string) (v v' : A) (o : list (string * A)) :
  lookup k o = None -> assign k v (o ++ [(k, v')])%list = (o ++ [(k, v)])%list.
Proof.
  induction o as [| [k0 v0] o IH]; simpl.
  - now rewrite String.eqb_refl.
  - destruct (String.eqb k k0); [discriminate |]. intros Hl. now rewrite IH.
Qed.

Lemma keys_set_in (k : string) (v : Val) (o : Props) (k' : string) :
  In k' (keys (ReportsView.set k v o)) <-> k' = k \/ In k' (keys o).
Proof.
  unfold ReportsView.set.
  destruct (lookup k o) as [v0 |] eqn:Hl.
  - rewrite keys_assign. split; [auto |].
    intros [-> | Hin]; [| assumption].
    apply lookup_In in Hl. unfold keys. apply in_map_iff. now exists (k, v0).
  - unfold keys. rewrite map_app, in_app_iff. simpl. intuition auto.
Qed.

Lemma lookup_None_not_in {A} (k : string) (o : list (string * A)) :
  lookup k o = None -> ~ In k (keys o).
Proof.
  induction o as [| [k0 v0] o IH]; simpl; [tauto |].
  destruct (String.eqb_spec k k0); [discriminate |].
  intros Hl [Heq | Hin]; [congruence | now apply IH].
Qed.

(** [handleFilterChange] writes one key: the filters then read the value
    under that key and what they read before under every other key, no
    key appears twice if none did, and of two writes to a key the last
    one stands. *)
Theorem handleFilterChange_writes_one_key :
  forall key v prev,
    get (ReportsView.handleFilterChange key v prev) key = v
    /\ (forall k, k <> key ->
          get (ReportsView.handleFilterChange key v prev) k = get prev k)
    /\ (NoDup (keys prev) -> NoDup (keys (ReportsView.handleFilterChange key v prev)))
    /\ (forall v',
          ReportsView.handleFilterChange key v
            (ReportsView.handleFilterChange key v' prev)
          = ReportsView.handleFilterChange key v prev).
Proof.
  intros key v prev. unfold ReportsView.handleFilterChange.
  split; [apply get_set_same |]. split; [intros k Hk; now apply get_set_other |].
  split.
  - intros Hnd. unfold ReportsView.set.
    destruct (lookup key prev) as [v0 |] eqn:Hl.
    + now rewrite keys_assign.
    + unfold keys. rewrite map_app. simpl.
      apply NoDup_app; [assumption | repeat constructor; intros [] |].
      intros x Hin [<- | []].
      apply (lookup_None_not_in key prev); assumption.
  - intros v'. unfold ReportsView.set at 1.
    rewrite lookup_set_same. unfold ReportsView.set.
    destruct (lookup key prev) as [v0 |] eqn:Hl.
    + apply assign_assign.
    + now apply assign_app_new.
Qed.

(** ** The filter controls and the filter stage *)

Lemma lookup_without_same {A} (d : string) (o : list (string * A)) :
  lookup d (without d o) = None.
Proof.
  induction o as [| [k v] o IH]; simpl; [reflexivity |].
  destruct (String.eqb d k) eqn:E; simpl; [exact IH | now rewrite E].
Qed.

Lemma bool_eq_of_iff (a b : bool) : (a = true <-> b = true) -> a = b.
Proof. destruct a, b; intuition congruence. Qed.

Lemma filter_and {A} (f g : A -> bool) (l : list A) :
  filter (fun x => (f x && g x)%bool) l = filter g (filter f l).
Proof.
  induction l as [| x l IH]; simpl; [reflexivity |].
  destruct (f x); simpl; [destruct (g x); now rewrite IH | exact IH].
Qed.

Lemma select_value_all (filters_ : Props) (key : string) :
  ReportsView.select_value filters_ key = Str "all"
  <-> ~ Spec.constrains (get filters_ key).
Proof.
  unfold ReportsView.select_value, or_else, Spec.constrains, Spec.is_set.
  destruct (truthy (get filters_ key)) eqn:Ht.
  - split.
    + intros -> [_ Hne]. now apply Hne.
    + intros Hn. destruct (strict_eq (get filters_ key) (Str "all")) eqn:He.
      * destruct (get filters_ key) as [| | ? | [| ? | ?] | s | ? ? | ? ?];
          simpl in He; try discriminate.
        apply String.eqb_eq in He. now subst.
      * apply strict_eq_all in He. exfalso. apply Hn. now split.
  - split; [intros _ [Hs _]; discriminate | reflexivity].
Qed.

(** A select of the filters shows ['all'] exactly when the filter stage
    takes no constraint from its key; the stage then keeps what it keeps
    without that entry, and when the select shows another value every
    record the stage keeps has that value under the key. *)
Theorem select_shows_what_the_filter_uses :
  forall h dataSource filters_ key baseData,
    key <> "dateRange" ->
    (ReportsView.select_value filters_ key = Str "all"
     <-> ~ Spec.constrains (get filters_ key))
    /\ (ReportsView.select_value filters_ key = Str "all" ->
        filteredData h filters_ (dateKey_of dataSource) baseData
        = filteredData h (without key filters_) (dateKey_of dataSource) baseData)
    /\ (ReportsView.select_value filters_ key <> Str "all" ->
        forall item,
          In item (filteredData h filters_ (dateKey_of dataSource) baseData) ->
          strict_eq (get item key) (ReportsView.select_value filters_ key) = true).
Proof.
  intros h dataSource filters_ key baseData Hkey.
  split; [apply select_value_all |]. split.
  - intros Hall. apply select_value_all in Hall.
    unfold filteredData. apply filter_ext. intros item.
    apply bool_eq_of_iff. rewrite !passes_filters_spec.
    unfold Spec.meets_filters.
    rewrite (get_without key "dateRange" filters_) by congruence.
    split; intros (Hs & He & Hk); (split; [exact Hs | split; [exact He |]]).
    + intros k Hne Hc.
      destruct (String.eqb_spec k key) as [-> | Hkk].
      * unfold get in Hc. rewrite lookup_without_same in Hc.
        destruct Hc as [Hc _]. discriminate.
      * rewrite get_without in * by assumption. now apply Hk.
    + intros k Hne Hc.
      destruct (String.eqb_spec k key) as [-> | Hkk]; [contradiction |].
      rewrite <- (get_without key k filters_ Hkk) in *. now apply Hk.
  - intros Hshown item Hin.
    assert (Hc : Spec.constrains (get filters_ key)).
    { destruct (truthy (get filters_ key)) eqn:Ht.
      - split; [exact Ht |]. intros Heq. apply Hshown.
        unfold ReportsView.select_value, or_else. now rewrite Ht.
      - exfalso. apply Hshown.
        unfold ReportsView.select_value, or_else. now rewrite Ht. }
    unfold filteredData in Hin. apply filter_In in Hin. destruct Hin as [_ Hp].
    apply passes_filters_spec in Hp. destruct Hp as (_ & _ & Hk).
    unfold ReportsView.select_value, or_else.
    destruct Hc as [Hs Hne]. unfold Spec.is_set in Hs. rewrite Hs.
    apply Hk; [assumption | now split].
Qed.

(** Two projects under the initial filters and the status select. *)
Lemma select_shows_what_the_filter_uses_witness :
  ReportsView.select_value Examples.no_filters "status" = Str "all"
  /\ filteredData Examples.utc_host Examples.no_filters "startDate"
       [[("status", Str "Planning")]; [("status", Str "Completed")]]
     = filteredData Examples.utc_host (without "status" Examples.no_filters) "startDate"
         [[("status", Str "Planning")]; [("status", Str "Completed")]].
Proof.
  destruct (select_shows_what_the_filter_uses Examples.utc_host projects
              Examples.no_filters "status"
              [[("status", Str "Planning")]; [("status", Str "Completed")]])
    as (_ & Hsame & _).
  - discriminate.
  - split; [reflexivity | apply Hsame; reflexivity].
Defined.

Lemma meets_after_write h (dateKey key : string) (v : Val) (filters_ item : Props) :
  key <> "dateRange" -> Spec.constrains v ->
  Spec.meets_filters h (ReportsView.handleFilterChange key v filters_) dateKey item
  <-> Spec.meets_filters h
        (ReportsView.handleFilterChange key (Str "all") filters_) dateKey item
      /\ strict_eq (get item key) v = true.
Proof.
  intros Hkey Hv. unfold Spec.meets_filters, ReportsView.handleFilterChange.
  rewrite !(get_set_other key "dateRange") by congruence.
  split.
  - intros (Hs & He & Hk). split; [split; [exact Hs | split; [exact He |]] |].
    + intros k Hne Hc.
      destruct (String.eqb_spec k key) as [-> | Hkk].
      * rewrite get_set_same in Hc. destruct Hc as [_ Hc]. congruence.
      * rewrite get_set_other in * by assumption.
        specialize (Hk k Hne). rewrite get_set_other in Hk by assumption. now apply Hk.
    + specialize (Hk key Hkey). rewrite get_set_same in Hk. now apply Hk.
  - intros [(Hs & He & Hk) Heq]. split; [exact Hs | split; [exact He |]].
    intros k Hne Hc.
    destruct (String.eqb_spec k key) as [-> | Hkk].
    + now rewrite get_set_same.
    + rewrite get_set_other in * by assumption.
      specialize (Hk k Hne). rewrite get_set_other in Hk by assumption. now apply Hk.
Qed.

(** Choosing a value in a select narrows the report: the filter stage
    then keeps, of the records it keeps with that select on ['all'], those
    that have the chosen value under the key. *)
Theorem choosing_a_value_narrows :
  forall h dataSource filters_ key v baseData,
    key <> "dateRange" ->
    Spec.constrains v ->
    filteredData h (ReportsView.handleFilterChange key v filters_)
      (dateKey_of dataSource) baseData
    = filter (fun item => strict_eq (get item key) v)
        (filteredData h (ReportsView.handleFilterChange key (Str "all") filters_)
           (dateKey_of dataSource) baseData).
Proof.
  intros h dataSource filters_ key v baseData Hkey Hv.
  unfold filteredData. rewrite <- filter_and.
  apply filter_ext. intros item. apply bool_eq_of_iff.
  rewrite andb_true_iff, !passes_filters_spec.
  now apply meets_after_write.
Qed.

(** Completed projects, of a completed and a planned one. *)
Lemma choosing_a_value_narrows_witness :
  filteredData Examples.utc_host
    (ReportsView.handleFilterChange "status" (Str "Completed") Examples.no_filters)
    "startDate" [[("status", Str "Planning")]; [("status", Str "Completed")]]
  = [[("status", Str "Completed")]].
Proof.
  refine (eq_trans
            (choosing_a_value_narrows Examples.utc_host projects Examples.no_filters
               "status" (Str "Completed")
               [[("status", Str "Planning")]; [("status", Str "Completed")]] _ _)
            _).
  - discriminate.
  - split; [reflexivity | discriminate].
  - reflexivity.
Defined.

(** ** The reset of the selection *)

Lemma initial_filters_pass h (ref : positive) (dataSource : DataSource) (item : Props) :
  passes_filters h (ReportsView.initial_filters ref) (dateKey_of dataSource) item = true.
Proof.
  apply passes_filters_spec. unfold Spec.meets_filters, Spec.is_set.
  split; [discriminate |]. split; [discriminate |].
  intros key Hne [Hs _]. unfold Spec.is_set, ReportsView.initial_filters, get in Hs.
  simpl in Hs. destruct (String.eqb_spec key "dateRange"); [contradiction | discriminate].
Qed.

(** After the data source changes in database mode nothing is filtered
    out of the new collection, the grouping and the metric are the first
    ones offered for it, so the pipeline does not stop at the guard on
    [groupBy], and once the effect on [groupBy] has run the chart is a bar
    chart. *)
Theorem reset_shows_the_whole_collection :
  forall h ref s baseData,
    ReportsView.reportMode s = database ->
    filteredData h (ReportsView.filters (ReportsView.reset_selection ref s))
      (dateKey_of (ReportsView.dataSource s)) baseData = baseData
    /\ ReportsView.groupBy (ReportsView.reset_selection ref s) <> ""
    /\ In (ReportsView.groupBy (ReportsView.reset_selection ref s))
          (map ReportsView.value
               (ReportsView.groupOptions database (ReportsView.dataSource s)))
    /\ In (ReportsView.metric (ReportsView.reset_selection ref s))
          (map ReportsView.value
               (ReportsView.metricOptions database (ReportsView.dataSource s)))
    /\ ReportsView.chartType
         (ReportsView.sync_chartType (ReportsView.reset_selection ref s))
       = ReportsView.bar.
Proof.
  intros h ref s baseData Hmode. split.
  - change (ReportsView.filters (ReportsView.reset_selection ref s))
      with (ReportsView.initial_filters ref).
    unfold filteredData.
    induction baseData as [| item baseData IH]; cbn [filter]; [reflexivity |].
    now rewrite initial_filters_pass, IH.
  - simpl. rewrite Hmode.
    destruct (ReportsView.dataSource s); simpl;
      (split; [discriminate | split; [now left | split; [now left | reflexivity]]]).
Qed.

(** The report builder on cases after a look at donations by month with
    a filter on the priority. *)
Lemma reset_shows_the_whole_collection_witness :
  filteredData Examples.utc_host
    (ReportsView.filters
       (ReportsView.reset_selection 2
          {| ReportsView.reportMode := database; ReportsView.dataSource := cases;
             ReportsView.filters :=
               ReportsView.handleFilterChange "priority" (Str "High") Examples.no_filters;
             ReportsView.groupBy := "month"; ReportsView.metric := "count";
             ReportsView.chartType := ReportsView.line;
             ReportsView.aiSummary := ""; ReportsView.aiInsights := "";
             ReportsView.selectedFile := None |}))
    "createdAt" [Examples.priority1; Examples.priority2]
  = [Examples.priority1; Examples.priority2].
Proof.
  exact (proj1 (reset_shows_the_whole_collection Examples.utc_host 2
            {| ReportsView.reportMode := database; ReportsView.dataSource := cases;
               ReportsView.filters :=
                 ReportsView.handleFilterChange "priority" (Str "High") Examples.no_filters;
               ReportsView.groupBy := "month"; ReportsView.metric := "count";
               ReportsView.chartType := ReportsView.line;
               ReportsView.aiSummary := ""; ReportsView.aiInsights := "";
               ReportsView.selectedFile := None |}
            [Examples.priority1; Examples.priority2] eq_refl)).
Defined.

(** ** What the chart and the table show *)

(** For every metric the builder offers, the chart formats a number as
    currency exactly when the metric is [totalAmount] or [avgAmount]; the
    table, which is given the label of the metric, formats it as currency
    for these two and also for the task count of the projects. *)
Theorem table_formats_task_counts_as_currency :
  forall dataSource n,
    Forall (fun o =>
              (ReportsView.chart_shows (ReportsView.value o) (Number n)
               = ReportsView.as_currency n
               <-> ReportsView.value o = "totalAmount"
                   \/ ReportsView.value o = "avgAmount")
              /\ (ReportsView.table_shows database dataSource
                    (ReportsView.value o) (Number n)
                  = ReportsView.as_currency n
                  <-> ReportsView.value o <> "count"))
           (ReportsView.metricOptions database dataSource).
Proof.
  intros dataSource n.
  destruct dataSource; simpl;
    repeat (apply Forall_cons; [split; split |]); try apply Forall_nil; simpl;
    try (intros H; discriminate H);
    try (intros [H | H]; discriminate H);
    try (intros _; left; reflexivity); try (intros _; right; reflexivity);
    try (intros H; exfalso; apply H; reflexivity);
    try (intros _; reflexivity);
    try (intros _ H; discriminate H).
Qed.

(** The slice at any index has a fill colour, and the colours repeat
    every seven slices. *)
Theorem every_slice_has_a_fill :
  forall index,
    (exists c, ReportsView.slice_fill index = Some c)
    /\ ReportsView.slice_fill (index + 7) = ReportsView.slice_fill index.
Proof.
  intros index. unfold ReportsView.slice_fill.
  change (List.length ReportsView.COLORS) with 7%nat.
  split.
  - destruct (nth_error ReportsView.COLORS (index mod 7)) as [c |] eqn:E; [eauto |].
    apply nth_error_None in E.
    pose proof (Nat.mod_upper_bound index 7 ltac:(discriminate)) as Hlt.
    change (List.length ReportsView.COLORS) with 7%nat in E. lia.
  - replace (index + 7)%nat with (index + 1 * 7)%nat by lia.
    now rewrite Nat.Div0.mod_add.
Qed.

(** ** The request for insights *)

Lemma label_or_unknown (options : list ReportsView.SelectOption) (v fallback : string) :
  ~ In v (map ReportsView.value options) ->
  ReportsView.label_or options v fallback = fallback.
Proof.
  intros Hnin. unfold ReportsView.label_or.
  destruct (find (fun o => String.eqb (ReportsView.value o) v) options) as [o |] eqn:Hf;
    [| reflexivity].
  apply find_some in Hf. destruct Hf as [Hin Heq].
  apply String.eqb_eq in Heq. exfalso. apply Hnin. rewrite <- Heq. now apply in_map.
Qed.

(** Insights are asked for only when the pipeline returned points: never
    on an empty result, so never while no grouping is selected; the
    request carries the points as they are, and a grouping that is not
    among the options is named by its raw selector. *)
Theorem insights_only_with_data :
  forall h s donations_ activities_ projects_ cases_ clients teamMembers pts,
    ReportsView.processedData_of h s
      donations_ activities_ projects_ cases_ clients teamMembers = Normal pts ->
    (ReportsView.insights_request s pts = None <-> pts = [])
    /\ (ReportsView.groupBy s = "" -> ReportsView.insights_request s pts = None)
    /\ (forall r,
          ReportsView.insights_request s pts = Some r ->
          ReportsView.chartData r = pts
          /\ (~ In (ReportsView.groupBy s)
                   (map ReportsView.value
                      (ReportsView.groupOptions (ReportsView.reportMode s)
                         (ReportsView.dataSource s))) ->
              ReportsView.groupLabel r = ReportsView.groupBy s)).
Proof.
  intros h s donations_ activities_ projects_ cases_ clients teamMembers pts Hp.
  split; [| split].
  - destruct pts; simpl; split; congruence.
  - intros Hg. unfold ReportsView.processedData_of, processedData in Hp.
    rewrite Hg in Hp. simpl in Hp.
    destruct (ReportsView.reportMode s); injection Hp as <-; reflexivity.
  - intros r Hr. destruct pts as [| p pts]; simpl in Hr; [discriminate |].
    injection Hr as <-. simpl. split; [reflexivity |].
    intros Hnin. now apply label_or_unknown.
Qed.

(** Donations by campaign: one bucket, one request. *)
Lemma insights_only_with_data_witness :
  exists r,
    ReportsView.insights_request
      {| ReportsView.reportMode := database; ReportsView.dataSource := donations;
         ReportsView.filters := Examples.no_filters;
         ReportsView.groupBy := "campaign"; ReportsView.metric := "count";
         ReportsView.chartType := ReportsView.bar;
         ReportsView.aiSummary := ""; ReportsView.aiInsights := "";
         ReportsView.selectedFile := None |}
      [{| Point.name := Str "Spring"; Point.value := int 1 |}] = Some r
    /\ ReportsView.chartData r = [{| Point.name := Str "Spring"; Point.value := int 1 |}].
Proof.
  eexists. split; [reflexivity |].
  refine (proj1 (proj2 (proj2 (insights_only_with_data Examples.utc_host
            {| ReportsView.reportMode := database; ReportsView.dataSource := donations;
               ReportsView.filters := Examples.no_filters;
               ReportsView.groupBy := "campaign"; ReportsView.metric := "count";
               ReportsView.chartType := ReportsView.bar;
               ReportsView.aiSummary := ""; ReportsView.aiInsights := "";
               ReportsView.selectedFile := None |}
            [[("campaign", Str "Spring")]] [] [] [] [] []
            [{| Point.name := Str "Spring"; Point.value := int 1 |}] eq_refl)) _ eq_refl)).
Defined.

(** * Projects, activities and chats *)

(** ** The progress of a project *)

Lemma filterM_objects (elems : list Val) :
  Forall (fun t => match t with Obj _ _ => True | _ => False end) elems ->
  filterM (fun t => s <- Numbers.read t "status" ;; Normal (strict_eq s (Str "Done")))
          elems
  = Normal (filter (fun t => strict_eq (opt_get t "status") (Str "Done")) elems).
Proof.
  induction 1 as [| t elems Ht _ IH]; simpl; [reflexivity |].
  destruct t; try contradiction. simpl. rewrite IH. reflexivity.
Qed.

Lemma filter_length_all {A} (f : A -> bool) (l : list A) :
  List.length (filter f l) = List.length l <-> Forall (fun x => f x = true) l.
Proof.
  induction l as [| x l IH]; simpl.
  - split; [constructor | reflexivity].
  - pose proof (filter_length_le f l) as Hle.
    destruct (f x) eqn:E; simpl.
    + split.
      * intros Hl. constructor; [assumption |]. apply IH. lia.
      * intros Hall. inversion Hall; subst. f_equal. now apply IH.
    + split; [lia |]. intros Hall. inversion Hall; congruence.
Qed.

(** The quotient of the done tasks by the tasks, times 100, computed in
    doubles: it cannot leave the range from 0 to 100, and it reaches 100
    only when all are done.  The number of tasks is an array length. *)
Lemma percentage_bounds (d n : nat) :
  (d <= S n)%nat -> Z.of_nat (S n) < 2 ^ 32 ->
  exists q,
    Numbers.num_mul (num_div_len (Fin (inject_Z (Z.of_nat d))) (S n)) (Fin (inject_Z 100))
    = Fin q
    /\ (0 <= q)%Q /\ (q <= 100)%Q /\ ((q == 100)%Q <-> d = S n).
Proof.
  intros Hd Hn. cbn [num_div_len].
  set (r := (inject_Z (Z.of_nat d) / inject_Z (Z.of_nat (S n)))%Q).
  assert (Hr : (r == Z.of_nat d # Pos.of_succ_nat n)%Q).
  { unfold r, Qdiv, Qinv, Qmult, inject_Z, Qeq. simpl. lia. }
  assert (Hp : Z.pos (Pos.of_succ_nat n) = Z.of_nat (S n))
    by (rewrite Zpos_P_of_succ_nat; lia).
  destruct (Nat.eq_dec d (S n)) as [Heq | Hne].
  - assert (Hone : (r == inject_Z 1)%Q).
    { rewrite Hr. unfold Qeq, inject_Z. cbn [Qnum Qden]. lia. }
    rewrite (round_double_int r 1 Hone) by (simpl; lia).
    cbn [Numbers.num_mul].
    rewrite (round_double_int (inject_Z 1 * inject_Z 100) 100)
      by (try reflexivity; simpl; lia).
    exists (inject_Z 100). split; [reflexivity |].
    split; [discriminate |]. split; [apply Qle_refl |]. split; [auto | reflexivity].
  - destruct (round_double_within r (2 ^ 32 - 1) 32) as (v & Hv & Hv0 & Hv1);
      try lia.
    + rewrite Hr. unfold Qle. cbn [Qnum Qden]. lia.
    + rewrite Hr. unfold Qle, Qmult, inject_Z. cbn [Qnum Qden]. lia.
    + rewrite Hv. cbn [Numbers.num_mul].
      destruct (round_double_within (v * inject_Z 100) (100 * 2 ^ 26 - 1) 26)
        as (q & Hq & Hq0 & Hq1); try lia.
      * destruct v as [a b]. unfold Qle, Qmult, inject_Z in *.
        cbn [Qnum Qden] in *. lia.
      * destruct v as [a b]. unfold Qle, Qmult, inject_Z in *.
        cbn [Qnum Qden] in *. lia.
      * exists q. split; [exact Hq |]. split; [exact Hq0 |].
        destruct q as [a b]. unfold Qle, Qeq, Qmult, inject_Z in *.
        cbn [Qnum Qden] in *. repeat split; try lia.
Qed.

(** Without the guard the quotient on no task at all is NaN. *)
Lemma percentage_of_nothing :
  Numbers.num_mul (num_div_len (Fin (inject_Z 0)) 0) (Fin (inject_Z 100)) = NaN.
Proof. reflexivity. Qed.

Lemma round_of_percentage (q : Q) :
  (0 <= q)%Q -> (q <= 100)%Q -> 0 <= Qfloor (q + (1 # 2)) <= 100.
Proof.
  intros H0 H100. split.
  - change 0 with (Qfloor 0). apply Qfloor_resp_le.
    apply Qle_trans with q; [assumption |].
    rewrite <- (Qplus_0_r q) at 1. apply Qplus_le_r. discriminate.
  - pose proof (Qfloor_le (q + (1 # 2))) as Hf.
    assert (Hle : (inject_Z (Qfloor (q + (1 # 2))) <= 100 + (1 # 2))%Q).
    { eapply Qle_trans; [exact Hf |]. now apply Qplus_le_l. }
    remember (Qfloor (q + (1 # 2))) as k eqn:Hk. clear Hk Hf.
    unfold Qle, inject_Z in Hle. simpl in Hle. lia.
Qed.

(** For a project whose tasks are an array of records the completion is a
    double from 0 to 100: it is 0 when there is no task, by the guard,
    where the quotient alone is NaN, and it is 100 exactly when every task
    is done; the rounded figure beside the bar is an integer from 0 to
    100.  The number of tasks is the length of an array, below 2^32.  A
    project without tasks array makes the card throw. *)
Theorem completion_is_a_percentage :
  forall h project,
    (forall r elems,
        get project "tasks" = Arr r elems ->
        Forall (fun t => match t with Obj _ _ => True | _ => False end) elems ->
        Z.of_nat (List.length elems) < 2 ^ 32 ->
        exists q k,
          ProjectCards.completionPercentage h project = Normal (Number (Fin q))
          /\ (0 <= q)%Q /\ (q <= 100)%Q
          /\ (elems = [] ->
              (q == 0)%Q
              /\ Numbers.mul h (div_len h (int 0) (List.length elems)) (int 100)
                 = Number NaN)
          /\ (elems <> [] ->
              ((q == 100)%Q <->
               Forall (fun t => strict_eq (opt_get t "status") (Str "Done") = true)
                      elems))
          /\ ProjectCards.shown_percentage h project = Normal (Fin (inject_Z k))
          /\ 0 <= k <= 100)
    /\ (nullish (get project "tasks") = true ->
        exists msg, ProjectCards.completionPercentage h project = Throw msg).
Proof.
  intros h project. split.
  - intros r elems Htasks Hobj Hlen32.
    unfold ProjectCards.shown_percentage, ProjectCards.completionPercentage.
    rewrite Htasks.
    destruct elems as [| t elems].
    + exists 0%Q, 0. simpl. repeat split; try discriminate; try reflexivity; try lia.
      intros Hne. congruence.
    + set (l := t :: elems) in *.
      assert (Hlen : get_length (Arr r l) = Normal (int (Z.of_nat (S (List.length elems)))))
        by reflexivity.
      rewrite Hlen. cbn [bind].
      assert (Hgt : Numbers.gt_zero h (int (Z.of_nat (S (List.length elems)))) = true).
      { unfold Numbers.gt_zero, int. cbn [to_number to_primitive].
        unfold Qle_bool, inject_Z. cbn [Qnum Qden].
        destruct (Z.leb_spec (Z.of_nat (S (List.length elems)) * 1) (0 * 1));
          [lia | reflexivity]. }
      rewrite Hgt, (filterM_objects l Hobj). cbn [bind].
      set (finished := filter (fun t0 => strict_eq (opt_get t0 "status") (Str "Done")) l).
      change (List.length l) with (S (List.length elems)) in *.
      assert (Hd : (List.length finished <= S (List.length elems))%nat)
        by apply (filter_length_le _ l).
      destruct (percentage_bounds _ _ Hd Hlen32) as (q & Hq & H0 & H100 & Hfull).
      exists q, (Qfloor (q + (1 # 2))).
      unfold Numbers.mul, div_len, int. cbn [to_number to_primitive].
      rewrite Hq. split; [reflexivity |].
      split; [exact H0 |]. split; [exact H100 |].
      split; [discriminate |]. split.
      * intros _. rewrite Hfull.
        change (S (List.length elems)) with (List.length l).
        apply filter_length_all.
      * split; [reflexivity |]. now apply round_of_percentage.
  - intros Hn. unfold ProjectCards.completionPercentage.
    destruct (get project "tasks"); try discriminate; simpl; eauto.
Qed.

(** Twenty-three tasks done out of forty: the quotient rounds to the
    double below 0.575 and the product to 57.49999999999999, so the card
    shows 57. *)
Lemma completion_is_a_percentage_witness :
  exists q k,
    ProjectCards.completionPercentage Examples.utc_host
      [("tasks", Arr 1 (repeat (Obj 2 [("status", Str "Done")]) 23
                        ++ repeat (Obj 3 [("status", Str "To Do")]) 17)%list)]
    = Normal (Number (Fin q))
    /\ ProjectCards.shown_percentage Examples.utc_host
         [("tasks", Arr 1 (repeat (Obj 2 [("status", Str "Done")]) 23
                           ++ repeat (Obj 3 [("status", Str "To Do")]) 17)%list)]
       = Normal (Fin (inject_Z k))
    /\ 0 <= k <= 100.
Proof.
  destruct (proj1 (completion_is_a_percentage Examples.utc_host
              [("tasks", Arr 1 (repeat (Obj 2 [("status", Str "Done")]) 23
                                ++ repeat (Obj 3 [("status", Str "To Do")]) 17)%list)])
              1%positive
              (repeat (Obj 2 [("status", Str "Done")]) 23
               ++ repeat (Obj 3 [("status", Str "To Do")]) 17)%list
              eq_refl)
    as (q & k & Hq & _ & _ & _ & _ & Hk & Hr).
  - cbn [repeat app]. repeat constructor.
  - vm_compute. reflexivity.
  - exists q, k. exact (conj Hq (conj Hk Hr)).
Defined.

Lemma twenty_three_of_forty_shows_57 :
  ProjectCards.completionPercentage Examples.utc_host
    [("tasks", Arr 1 (repeat (Obj 2 [("status", Str "Done")]) 23
                      ++ repeat (Obj 3 [("status", Str "To Do")]) 17)%list)]
  = Normal (literal (5749999999999999 # 100000000000000))
  /\ ProjectCards.shown_percentage Examples.utc_host
       [("tasks", Arr 1 (repeat (Obj 2 [("status", Str "Done")]) 23
                         ++ repeat (Obj 3 [("status", Str "To Do")]) 17)%list)]
     = Normal (Fin (inject_Z 57)).
Proof. split; vm_compute; reflexivity. Qed.

(** ** The two selects of a list view *)

Lemma filter_filter {A} (f g : A -> bool) (l : list A) :
  filter f (filter g l) = filter (fun x => (g x && f x)%bool) l.
Proof. now rewrite filter_and. Qed.

Lemma filter_true_id {A} (f : A -> bool) (l : list A) :
  (forall x, f x = true) -> filter f l = l.
Proof.
  intros Hf. induction l as [| x l IH]; simpl; [reflexivity |].
  now rewrite Hf, IH.
Qed.

(** The two selects of the project list and of the activity feed act
    independently: filtering by both is filtering by one and then by the
    other, on ['all'] and ['all'] the list is shown as it is, and
    filtering what is already filtered changes nothing. *)
Theorem two_selects_compose :
  forall first second l,
    (ProjectCards.filteredProjects first second l
     = ProjectCards.filteredProjects first "all"
         (ProjectCards.filteredProjects "all" second l)
     /\ ProjectCards.filteredProjects "all" "all" l = l
     /\ ProjectCards.filteredProjects first second
          (ProjectCards.filteredProjects first second l)
        = ProjectCards.filteredProjects first second l)
    /\ (ActivityFeed.filteredActivities first second l
        = ActivityFeed.filteredActivities first "all"
            (ActivityFeed.filteredActivities "all" second l)
        /\ ActivityFeed.filteredActivities "all" "all" l = l
        /\ ActivityFeed.filteredActivities first second
             (ActivityFeed.filteredActivities first second l)
           = ActivityFeed.filteredActivities first second l).
Proof.
  intros first second l.
  unfold ProjectCards.filteredProjects, ActivityFeed.filteredActivities.
  rewrite !filter_filter.
  repeat split;
    try (apply filter_ext; intros x;
         rewrite ?String.eqb_refl, ?orb_true_l, ?andb_true_r, ?andb_true_l;
         try apply andb_comm;
         match goal with
         | |- (?a && ?b && (?a && ?b))%bool = _ => destruct a, b; reflexivity
         end);
    apply filter_true_id; intros x; reflexivity.
Qed.

(** ** Names of clients *)

Lemma find_first_match {A} (p : A -> bool) (before after : list A) (c : A) :
  Forall (fun b => p b = false) before -> p c = true ->
  find p (before ++ c :: after) = Some c.
Proof.
  induction 1 as [| b before Hb _ IH]; simpl; intros Hc.
  - now rewrite Hc.
  - rewrite Hb. now apply IH.
Qed.

Lemma find_no_match {A} (p : A -> bool) (l : list A) :
  Forall (fun b => p b = false) l -> find p l = None.
Proof.
  induction 1 as [| b l Hb _ IH]; simpl; [reflexivity |]. now rewrite Hb.
Qed.

(** The name a project card shows for its client is never blank: it is
    the name of the first client with the id of the project when that name
    is truthy, and [Unknown Client] when no client has the id. *)
Theorem getClientName_is_never_blank :
  forall clients clientId,
    truthy (ProjectCards.getClientName clients clientId) = true
    /\ (Forall (fun c => strict_eq (get c "id") clientId = false) clients ->
        ProjectCards.getClientName clients clientId = Str "Unknown Client")
    /\ (forall before c after,
          clients = (before ++ c :: after)%list ->
          Forall (fun b => strict_eq (get b "id") clientId = false) before ->
          strict_eq (get c "id") clientId = true ->
          truthy (get c "name") = true ->
          ProjectCards.getClientName clients clientId = get c "name").
Proof.
  intros clients clientId. unfold ProjectCards.getClientName, or_else.
  split; [| split].
  - set (found := match find _ clients with Some c => get c "name" | None => Undefined end).
    destruct (truthy found) eqn:Ht; [exact Ht | reflexivity].
  - intros Hnone. now rewrite find_no_match.
  - intros before c after -> Hbefore Hc Hname.
    rewrite (find_first_match _ before after c Hbefore Hc). now rewrite Hname.
Qed.

(** ** Labels of the report *)

Lemma or_else_not_nullish (a b : Val) :
  nullish b = false -> nullish (or_else a b) = false.
Proof.
  intros Hb. unfold or_else.
  destruct (truthy a) eqn:Ht; [| exact Hb].
  destruct a; simpl in *; congruence.
Qed.

(** The label stage never makes a label undefined or null out of a key
    that is neither; for a grouping by client a key that no client has as
    id is shown as it is, and so is the key of every grouping without
    lookup; a key that a client has is shown as the name of the first such
    client when that name is truthy. *)
Theorem label_falls_back_to_the_key :
  forall h groupBy clients teamMembers group,
    (nullish (Group.name group) = false ->
     nullish (display_name h groupBy clients teamMembers group) = false)
    /\ (Forall (fun c => strict_eq (get c "id") (Group.name group) = false) clients ->
        display_name h "clientId" clients teamMembers group = Group.name group)
    /\ (groupBy <> "clientId" -> groupBy <> "createdById" ->
        groupBy <> "assignedToId" -> groupBy <> "month" ->
        display_name h groupBy clients teamMembers group = Group.name group)
    /\ (forall before c after,
          clients = (before ++ c :: after)%list ->
          Forall (fun b => strict_eq (get b "id") (Group.name group) = false) before ->
          strict_eq (get c "id") (Group.name group) = true ->
          truthy (get c "name") = true ->
          display_name h "clientId" clients teamMembers group = get c "name").
Proof.
  intros h groupBy clients teamMembers group.
  split; [| split; [| split]].
  - intros Hn. unfold display_name.
    destruct (String.eqb groupBy "month"); [reflexivity |].
    destruct (String.eqb groupBy "createdById" || String.eqb groupBy "assignedToId")%bool;
      destruct (String.eqb groupBy "clientId");
      unfold lookup_name; repeat apply or_else_not_nullish; assumption.
  - intros Hnone. unfold display_name. simpl. unfold lookup_name, or_else.
    now rewrite find_no_match.
  - intros H1 H2 H3 H4. unfold display_name.
    destruct (String.eqb_spec groupBy "clientId"); [contradiction |].
    destruct (String.eqb_spec groupBy "createdById"); [contradiction |].
    destruct (String.eqb_spec groupBy "assignedToId"); [contradiction |].
    destruct (String.eqb_spec groupBy "month"); [contradiction |]. reflexivity.
  - intros before c after -> Hbefore Hc Hname.
    unfold display_name. simpl. unfold lookup_name, or_else.
    rewrite (find_first_match _ before after c Hbefore Hc). now rewrite Hname.
Qed.

(** A donation bucket of client [c1], who is called Ada. *)
Lemma label_falls_back_to_the_key_witness :
  display_name Examples.utc_host "clientId"
    [[("id", Str "c1"); ("name", Str "Ada")]] []
    {| Group.name := Str "c1"; Group.items := [] |} = Str "Ada"
  /\ display_name Examples.utc_host "clientId"
       [[("id", Str "c1"); ("name", Str "Ada")]] []
       {| Group.name := Str "c9"; Group.items := [] |} = Str "c9".
Proof.
  pose proof (label_falls_back_to_the_key Examples.utc_host "clientId"
                [[("id", Str "c1"); ("name", Str "Ada")]] []
                {| Group.name := Str "c1"; Group.items := [] |}) as (_ & _ & _ & Hfound).
  pose proof (label_falls_back_to_the_key Examples.utc_host "clientId"
                [[("id", Str "c1"); ("name", Str "Ada")]] []
                {| Group.name := Str "c9"; Group.items := [] |}) as (_ & Hnone & _).
  split.
  - apply (Hfound [] [("id", Str "c1"); ("name", Str "Ada")] []); try reflexivity.
    constructor.
  - apply Hnone. repeat constructor.
Defined.

(** * More on the stages of the pipeline *)

(** ** The task count *)

Lemma sum_tasks_from h (items : list Props) (a : Z) :
  Forall (fun i => exists r elems, get i "tasks" = Arr r elems) items ->
  0 <= a ->
  a + Z.of_nat
        (list_sum
           (map (fun i => match get i "tasks" with
                          | Arr _ elems => List.length elems
                          | _ => 0%nat
                          end) items)) <= 2 ^ 53 ->
  reduce (fun sum i => len <- get_length (get i "tasks") ;; Normal (add h sum len))
         items (int a)
  = Normal (int (a + Z.of_nat
                       (list_sum
                          (map (fun i => match get i "tasks" with
                                         | Arr _ elems => List.length elems
                                         | _ => 0%nat
                                         end) items)))).
Proof.
  intros Hall. revert a.
  assert (Hcons : forall (x : nat) l, list_sum (x :: l) = (x + list_sum l)%nat)
    by reflexivity.
  induction Hall as [| i items (r & elems & Hi) _ IH]; intros a Ha Hsum;
    cbn [reduce map] in *.
  - cbn. now rewrite Z.add_0_r.
  - rewrite Hcons in *. rewrite Hi in *. cbn [get_length bind]. unfold int at 1.
    rewrite Nat2Z.inj_add in *.
    rewrite add_ints by lia.
    rewrite IH by lia. do 2 f_equal. lia.
Qed.

Lemma sum_tasks_throws h (items : list Props) (acc : Val) :
  Exists (fun i => nullish (get i "tasks") = true) items ->
  exists msg,
    reduce (fun sum i => len <- get_length (get i "tasks") ;; Normal (add h sum len))
           items acc = Throw msg.
Proof.
  intros Hex. revert acc.
  induction Hex as [i items Hi | i items _ IH]; intros acc; simpl.
  - destruct (get i "tasks"); try discriminate; simpl; eauto.
  - destruct (get i "tasks"); simpl; eauto.
Qed.

(** The metric [taskCount] adds the lengths of the task arrays of the
    records of a bucket when every record has one: the sum is exact as
    long as it is at most 2^53, beyond every number of tasks that can be
    held; when one record has no tasks (undefined or null) the metric
    stage throws, whatever the other records hold. *)
Theorem taskCount_sums_or_throws :
  forall h items,
    (Forall (fun i => exists r elems, get i "tasks" = Arr r elems) items ->
     Z.of_nat
       (list_sum
          (map (fun i => match get i "tasks" with
                         | Arr _ elems => List.length elems
                         | _ => 0%nat
                         end) items)) <= 2 ^ 53 ->
     metric_value h "taskCount" items
     = Normal (int (Z.of_nat
                      (list_sum
                         (map (fun i => match get i "tasks" with
                                        | Arr _ elems => List.length elems
                                        | _ => 0%nat
                                        end) items)))))
    /\ (Exists (fun i => nullish (get i "tasks") = true) items ->
        exists msg, metric_value h "taskCount" items = Throw msg).
Proof.
  intros h items.
  change (metric_value h "taskCount" items) with (sum_tasks h items).
  unfold sum_tasks. split.
  - intros Hall Hsum. now rewrite (sum_tasks_from h items 0 Hall ltac:(lia) Hsum).
  - apply sum_tasks_throws.
Qed.

(** Two projects with two tasks and one task. *)
Lemma taskCount_sums_or_throws_witness :
  metric_value Examples.utc_host "taskCount"
    [[("tasks", Arr 1 [Null; Null])]; [("tasks", Arr 2 [Null])]] = Normal (int 3).
Proof.
  apply (proj1 (taskCount_sums_or_throws Examples.utc_host
                  [[("tasks", Arr 1 [Null; Null])]; [("tasks", Arr 2 [Null])]])).
  - repeat constructor; eexists _, _; reflexivity.
  - vm_compute. discriminate.
Defined.

(** ** Amounts kept as text *)

Lemma sum_amount_text_from h (items : list Props) (acc : Val) :
  is_string acc = true \/ Exists (fun i => exists s, get i "amount" = Str s) items ->
  exists s, fold_left (fun sum i => add h sum (get i "amount")) items acc = Str s.
Proof.
  revert acc.
  induction items as [| i items IH]; intros acc Hor; simpl.
  - destruct Hor as [Hs | Hex]; [| inversion Hex].
    destruct acc; try discriminate. eauto.
  - apply IH.
    destruct Hor as [Hs | Hex].
    + left. destruct acc; try discriminate. reflexivity.
    + inversion Hex as [i' l' (s & Hi) | i' l' Hrest]; subst.
      * left. rewrite Hi. unfold add. simpl.
        destruct (is_string (to_primitive h acc)); reflexivity.
      * now right.
Qed.

(** An amount kept as text makes the total a text: as soon as one record
    of the bucket has a string as amount, [totalAmount] is the string that
    [+] concatenates and no longer a number. *)
Theorem text_amount_makes_a_text_total :
  forall h items,
    Exists (fun i => exists s, get i "amount" = Str s) items ->
    exists s, metric_value h "totalAmount" items = Normal (Str s).
Proof.
  intros h items Hex. rewrite metric_totalAmount. unfold sum_amount.
  destruct (sum_amount_text_from h items (int 0) (or_intror Hex)) as [s Hs].
  exists s. now rewrite Hs.
Qed.

(** Amounts ["100"] and 50. *)
Lemma text_amount_makes_a_text_total_witness :
  exists s,
    metric_value Examples.utc_host "totalAmount"
      [[("amount", Str "100")]; [("amount", int 50)]] = Normal (Str s).
Proof.
  apply (text_amount_makes_a_text_total Examples.utc_host
           [[("amount", Str "100")]; [("amount", int 50)]]).
  left. now exists "100".
Defined.

(** ** One point for each key *)

Lemma first_seen_fresh (ks seen : list string) :
  NoDup (Spec.first_seen ks seen)
  /\ forall k, In k (Spec.first_seen ks seen) -> ~ In k seen.
Proof.
  revert seen.
  induction ks as [| k ks IH]; intros seen; simpl.
  - split; [constructor | contradiction].
  - destruct (existsb (String.eqb k) seen) eqn:E.
    + apply IH.
    + destruct (IH (seen ++ [k])%list) as [Hnd Hfresh].
      assert (Hk : ~ In k seen).
      { intros Hin. assert (Ht : existsb (String.eqb k) seen = true).
        { apply existsb_exists. exists k. split; [assumption | apply String.eqb_refl]. }
        congruence. }
      split.
      * constructor; [| assumption].
        intros Hin. apply (Hfresh k Hin). apply in_or_app. right. now left.
      * intros k' [<- | Hin]; [assumption |].
        intros Hs. apply (Hfresh k' Hin). apply in_or_app. now left.
Qed.

Lemma mapM_length {A B} (f : A -> Completion B) (l : list A) (ys : list B) :
  mapM f l = Normal ys -> List.length ys = List.length l.
Proof.
  intros Hm. apply mapM_Forall2 in Hm.
  induction Hm; simpl; congruence.
Qed.

(** The pipeline returns one point for each distinct property key among
    the group keys of the records that pass the filters: no key has two
    buckets and no bucket is lost on the way to the chart. *)
Theorem one_point_for_each_key :
  forall h dataSource filters groupBy metric
         donations_ activities_ projects_ cases_ clients teamMembers pts,
    groupBy <> "" ->
    processedData h database dataSource filters groupBy metric
      donations_ activities_ projects_ cases_ clients teamMembers = Normal pts ->
    List.length pts
    = List.length
        (Spec.first_seen_keys h groupBy (dateKey_of dataSource)
           (filteredData h filters (dateKey_of dataSource)
              (baseData_of dataSource donations_ activities_ projects_ cases_)))
    /\ NoDup
         (Spec.first_seen_keys h groupBy (dateKey_of dataSource)
            (filteredData h filters (dateKey_of dataSource)
               (baseData_of dataSource donations_ activities_ projects_ cases_))).
Proof.
  intros h dataSource filters groupBy metric
         donations_ activities_ projects_ cases_ clients teamMembers pts Hne Hp.
  split; [| apply first_seen_fresh].
  unfold processedData in Hp. rewrite (groupBy_nonempty groupBy Hne) in Hp.
  set (data := filteredData h filters (dateKey_of dataSource)
                 (baseData_of dataSource donations_ activities_ projects_ cases_)) in *.
  destruct (grouped h groupBy (dateKey_of dataSource) data) as [groups | msg] eqn:Hg;
    simpl in Hp; [| discriminate].
  destruct (mapM (to_point h groupBy metric clients teamMembers) (Object_values groups))
    as [pts0 | msg] eqn:Hm; simpl in Hp; [| discriminate].
  injection Hp as <-.
  rewrite <- (Permutation_length (Array_sort_perm (compare_points h) pts0)).
  rewrite (mapM_length _ _ _ Hm).
  unfold Object_values. rewrite length_map.
  rewrite <- (Permutation_length (own_entries_perm groups)).
  unfold grouped in Hg. apply reduce_keys in Hg. simpl in Hg.
  unfold Spec.first_seen_keys. rewrite <- Hg. unfold keys. now rewrite length_map.
Qed.

(** Three donations for two campaigns give two points. *)
Lemma one_point_for_each_key_witness :
  List.length
    [{| Point.name := Str "Autumn"; Point.value := int 1 |};
     {| Point.name := Str "Spring"; Point.value := int 2 |}]
  = List.length
      (Spec.first_seen_keys Examples.utc_host "campaign" "donationDate"
         [[("campaign", Str "Spring")]; [("campaign", Str "Autumn")];
          [("campaign", Str "Spring")]]).
Proof.
  exact (proj1 (one_point_for_each_key Examples.utc_host donations Examples.no_filters
                  "campaign" "count"
                  [[("campaign", Str "Spring")]; [("campaign", Str "Autumn")];
                   [("campaign", Str "Spring")]] [] [] [] [] []
                  [{| Point.name := Str "Autumn"; Point.value := int 1 |};
                   {| Point.name := Str "Spring"; Point.value := int 2 |}]
                  ltac:(discriminate) eq_refl)).
Defined.

(** ** Date bounds and records without date *)

(** As soon as a start or an end of the date range is set, every record
    the filter stage keeps has a date that parses: a record whose date
    field is missing or is not a date is dropped together with those out
    of range. *)
Theorem a_date_bound_drops_undated_records :
  forall h dataSource filters baseData item,
    Spec.is_set (opt_get (get filters "dateRange") "start")
    \/ Spec.is_set (opt_get (get filters "dateRange") "end") ->
    In item (filteredData h filters (dateKey_of dataSource) baseData) ->
    exists t, new_Date h (get item (dateKey_of dataSource)) = Some t.
Proof.
  intros h dataSource filters baseData item Hset Hin.
  unfold filteredData in Hin. apply filter_In in Hin. destruct Hin as [_ Hp].
  apply passes_filters_spec in Hp. destruct Hp as (Hs & He & _).
  destruct Hset as [Hset | Hset].
  - destruct (Hs Hset) as (t & b & Ht & _). eauto.
  - destruct (He Hset) as (t & b & Ht & _). eauto.
Qed.

(** With a start on the first of January only the dated donation stays. *)
Lemma a_date_bound_drops_undated_records_witness :
  exists t, new_Date Examples.utc_host (get Examples.jan15 "donationDate") = Some t.
Proof.
  apply (a_date_bound_drops_undated_records Examples.utc_host donations
           [("dateRange", Obj 1 [("start", Str "2024-01-01"); ("end", Str "")])]
           [Examples.no_date; Examples.jan15] Examples.jan15).
  - left. reflexivity.
  - vm_compute. left. reflexivity.
Defined.

(** ** The two inputs of the date range *)

Lemma others_after_range (item prev : Props) (range : Val) :
  (forall key, key <> "dateRange" ->
     Spec.constrains (get (ReportsView.set "dateRange" range prev) key) ->
     strict_eq (get item key) (get (ReportsView.set "dateRange" range prev) key) = true)
  <-> (forall key, key <> "dateRange" ->
         Spec.constrains (get prev key) ->
         strict_eq (get item key) (get prev key) = true).
Proof.
  split; intros H key Hne Hc; specialize (H key Hne);
    rewrite get_set_other in * by assumption; now apply H.
Qed.

Lemma meets_after_start h (dateKey text : string) (ref ref0 r : positive)
    (prev ps item : Props) :
  get prev "dateRange" = Obj r ps -> text <> "" ->
  Spec.meets_filters h (ReportsView.handleRangeChange ref "start" text prev) dateKey item
  <-> Spec.meets_filters h (ReportsView.handleRangeChange ref0 "start" "" prev) dateKey item
      /\ Spec.on_or_after h (get item dateKey) (Str text).
Proof.
  intros Hrange Htext.
  unfold Spec.meets_filters, ReportsView.handleRangeChange, ReportsView.handleFilterChange.
  rewrite !get_set_same, !others_after_range, Hrange.
  unfold ReportsView.edit_range, ReportsView.spread, opt_get.
  rewrite !get_set_same, !(get_set_other "start" "end") by discriminate.
  assert (Hset : Spec.is_set (Str text)).
  { unfold Spec.is_set. simpl. destruct (String.eqb_spec text ""); [contradiction | reflexivity]. }
  assert (Hclear : ~ Spec.is_set (Str "")) by (unfold Spec.is_set; simpl; discriminate).
  tauto.
Qed.

Lemma meets_after_end h (dateKey text : string) (ref ref0 r : positive)
    (prev ps item : Props) :
  get prev "dateRange" = Obj r ps -> text <> "" ->
  Spec.meets_filters h (ReportsView.handleRangeChange ref "end" text prev) dateKey item
  <-> Spec.meets_filters h (ReportsView.handleRangeChange ref0 "end" "" prev) dateKey item
      /\ Spec.on_or_before h (get item dateKey) (Str text).
Proof.
  intros Hrange Htext.
  unfold Spec.meets_filters, ReportsView.handleRangeChange, ReportsView.handleFilterChange.
  rewrite !get_set_same, !others_after_range, Hrange.
  unfold ReportsView.edit_range, ReportsView.spread, opt_get.
  rewrite !get_set_same, !(get_set_other "end" "start") by discriminate.
  assert (Hset : Spec.is_set (Str text)).
  { unfold Spec.is_set. simpl. destruct (String.eqb_spec text ""); [contradiction | reflexivity]. }
  assert (Hclear : ~ Spec.is_set (Str "")) by (unfold Spec.is_set; simpl; discriminate).
  tauto.
Qed.

(** Entering a start or an end date narrows the report and leaves the
    other input alone: the filter stage then keeps, of the records it
    keeps with that input empty, those whose date is a date on or after
    the start (on or before the end); the other bound of the range is the
    one it was. *)
Theorem entering_a_date_narrows :
  forall h dataSource ref ref0 text prev baseData r ps,
    get prev "dateRange" = Obj r ps ->
    text <> "" ->
    (filteredData h (ReportsView.handleRangeChange ref "start" text prev)
       (dateKey_of dataSource) baseData
     = filter (fun item =>
                 date_ge (new_Date h (get item (dateKey_of dataSource)))
                         (new_Date h (Str text)))
         (filteredData h (ReportsView.handleRangeChange ref0 "start" "" prev)
            (dateKey_of dataSource) baseData)
     /\ opt_get (get (ReportsView.handleRangeChange ref "start" text prev) "dateRange") "end"
        = get ps "end")
    /\ (filteredData h (ReportsView.handleRangeChange ref "end" text prev)
          (dateKey_of dataSource) baseData
        = filter (fun item =>
                    date_le (new_Date h (get item (dateKey_of dataSource)))
                            (new_Date h (Str text)))
            (filteredData h (ReportsView.handleRangeChange ref0 "end" "" prev)
               (dateKey_of dataSource) baseData)
        /\ opt_get (get (ReportsView.handleRangeChange ref "end" text prev) "dateRange") "start"
           = get ps "start").
Proof.
  intros h dataSource ref ref0 text prev baseData r ps Hrange Htext.
  split; split.
  - unfold filteredData. rewrite <- filter_and.
    apply filter_ext. intros item. apply bool_eq_of_iff.
    rewrite andb_true_iff, !passes_filters_spec, date_ge_on_or_after.
    now apply (meets_after_start h _ text ref ref0 r prev ps).
  - unfold ReportsView.handleRangeChange, ReportsView.handleFilterChange.
    rewrite get_set_same, Hrange. simpl. now rewrite get_set_other by discriminate.
  - unfold filteredData. rewrite <- filter_and.
    apply filter_ext. intros item. apply bool_eq_of_iff.
    rewrite andb_true_iff, !passes_filters_spec, date_le_on_or_before.
    now apply (meets_after_end h _ text ref ref0 r prev ps).
  - unfold ReportsView.handleRangeChange, ReportsView.handleFilterChange.
    rewrite get_set_same, Hrange. simpl. now rewrite get_set_other by discriminate.
Qed.

(** A start on the twentieth of January keeps the donation of the end of
    the month, an end on that day the one of the middle. *)
Lemma entering_a_date_narrows_witness :
  filteredData Examples.utc_host
    (ReportsView.handleRangeChange 2 "start" "2024-01-20" Examples.no_filters)
    "donationDate" [Examples.jan15; Examples.jan31]
  = [Examples.jan31]
  /\ filteredData Examples.utc_host
       (ReportsView.handleRangeChange 2 "end" "2024-01-20" Examples.no_filters)
       "donationDate" [Examples.jan15; Examples.jan31]
     = [Examples.jan15].
Proof.
  destruct (entering_a_date_narrows Examples.utc_host donations 2 3 "2024-01-20"
              Examples.no_filters [Examples.jan15; Examples.jan31]
              1 [("start", Str ""); ("end", Str "")] eq_refl ltac:(discriminate))
    as [[Hstart _] [Hend _]].
  split.
  - exact (eq_trans Hstart eq_refl).
  - exact (eq_trans Hend eq_refl).
Defined.

(** ** The messages of a room *)

Section SortByKey.

Context {A : Type}.
Variable key : A -> Z.

Local Abbreviation by_key := (fun x y : A => key x - key y).

Lemma sort_insert_ext (cmp cmp' : A -> A -> Z) (x : A) (l : list A) :
  (forall y, In y l -> cmp x y = cmp' x y) ->
  sort_insert cmp x l = sort_insert cmp' x l.
Proof.
  induction l as [| y l IH]; simpl; intros Hag; [reflexivity |].
  rewrite (Hag y (or_introl eq_refl)).
  destruct (0 <? cmp' x y); [| reflexivity].
  f_equal. apply IH. intros z Hz. apply Hag. now right.
Qed.

Lemma Array_sort_ext (cmp cmp' : A -> A -> Z) (l : list A) :
  (forall x y, In x l -> In y l -> cmp x y = cmp' x y) ->
  Array_sort cmp l = Array_sort cmp' l.
Proof.
  induction l as [| x l IH]; simpl; intros Hag; [reflexivity |].
  rewrite IH by (intros a b Ha Hb; apply Hag; now right).
  apply sort_insert_ext. intros y Hy. apply Hag; [now left | right].
  eapply Permutation_in; [apply Permutation_sym, Array_sort_perm | exact Hy].
Qed.

Lemma Array_sort_by_key_sorted (l : list A) :
  StronglySorted (fun a b => key a <= key b) (Array_sort by_key l).
Proof.
  apply Sorted_StronglySorted; [intros a b c; lia |].
  eapply Sorted_ind with (P := fun l => Sorted (fun a b => key a <= key b) l);
    [constructor | | apply (Array_sort_sorted by_key)].
  - intros a l' _ IH Hhd. constructor; [exact IH |].
    destruct Hhd; constructor. lia.
  - intros x y Hxy. lia.
Qed.

Lemma StronglySorted_split (R : A -> A -> Prop) (l l1 l2 l3 : list A) (a b : A) :
  StronglySorted R l -> l = (l1 ++ a :: l2 ++ b :: l3)%list -> R a b.
Proof.
  revert l.
  induction l1 as [| c l1 IH]; intros l Hs ->; simpl in Hs.
  - inversion Hs as [| a' l' _ Hall]; subst.
    rewrite Forall_forall in Hall. apply Hall. apply in_elt.
  - inversion Hs as [| c' l' Hs' _]; subst. eapply IH; [exact Hs' | reflexivity].
Qed.

Lemma sort_insert_filter (p : A -> bool) (cmp : A -> A -> Z) (x : A) (l : list A) :
  (forall y, In y l -> 0 < cmp x y -> p x = true -> p y = false) ->
  filter p (sort_insert cmp x l) = filter p (x :: l).
Proof.
  induction l as [| y l IH]; intros Hpass; [reflexivity |].
  cbn [sort_insert]. destruct (0 <? cmp x y) eqn:E; [| reflexivity].
  apply Z.ltb_lt in E.
  cbn [filter]. rewrite IH by (intros z Hz; apply Hpass; now right).
  cbn [filter]. destruct (p x) eqn:Hx; [| reflexivity].
  now rewrite (Hpass y (or_introl eq_refl) E eq_refl).
Qed.

Lemma Array_sort_by_key_stable (t : Z) (l : list A) :
  filter (fun x => key x =? t) (Array_sort by_key l) = filter (fun x => key x =? t) l.
Proof.
  induction l as [| x l IH]; [reflexivity |].
  cbn [Array_sort]. rewrite sort_insert_filter.
  - cbn [filter]. now rewrite IH.
  - intros y _ Hlt Hx. apply Z.eqb_eq in Hx. apply Z.eqb_neq. lia.
Qed.

End SortByKey.

(** The time of a message whose timestamp is a date. *)
Lemma by_time_of_dated h (a b : Props) (ta tb : Z) :
  new_Date h (get a "timestamp") = Some ta ->
  new_Date h (get b "timestamp") = Some tb ->
  TeamChat.by_time h a b = ta - tb.
Proof. intros Ha Hb. unfold TeamChat.by_time. now rewrite Ha, Hb. Qed.

(** The chat shows the messages of the active room, each one once, in the
    order of their time; messages of the same instant stay in the order
    in which they were stored.  The timestamps of the room are dates: on
    another timestamp the comparator answers NaN and the order is the
    engine's. *)
Theorem room_messages_in_time_order :
  forall h room messages,
    (forall m, In m messages ->
       strict_eq (get m "roomId") (Str room) = true ->
       exists t, new_Date h (get m "timestamp") = Some t) ->
    Permutation
      (filter (fun m => strict_eq (get m "roomId") (Str room)) messages)
      (TeamChat.filteredMessages h room messages)
    /\ (forall l1 a l2 b l3 ta tb,
          TeamChat.filteredMessages h room messages = (l1 ++ a :: l2 ++ b :: l3)%list ->
          new_Date h (get a "timestamp") = Some ta ->
          new_Date h (get b "timestamp") = Some tb ->
          ta <= tb)
    /\ (forall t,
          filter (fun m => date_ge (new_Date h (get m "timestamp")) (Some t)
                           && date_le (new_Date h (get m "timestamp")) (Some t))%bool
            (TeamChat.filteredMessages h room messages)
          = filter (fun m => date_ge (new_Date h (get m "timestamp")) (Some t)
                             && date_le (new_Date h (get m "timestamp")) (Some t))%bool
              (filter (fun m => strict_eq (get m "roomId") (Str room)) messages)).
Proof.
  intros h room messages Hdated.
  unfold TeamChat.filteredMessages.
  set (inroom := filter (fun m => strict_eq (get m "roomId") (Str room)) messages).
  set (time := fun m : Props =>
                 match new_Date h (get m "timestamp") with Some t => t | None => 0 end).
  assert (Hin : forall m, In m inroom -> new_Date h (get m "timestamp") = Some (time m)).
  { intros m Hm. apply filter_In in Hm. destruct Hm as [Hm Hroom].
    destruct (Hdated m Hm Hroom) as [t Ht]. unfold time. now rewrite Ht. }
  assert (Hsame : Array_sort (TeamChat.by_time h) inroom
                  = Array_sort (fun x y => time x - time y) inroom).
  { apply Array_sort_ext. intros x y Hx Hy.
    apply by_time_of_dated; now apply Hin. }
  rewrite Hsame.
  assert (Hin' : forall m, In m (Array_sort (fun x y => time x - time y) inroom) ->
                           new_Date h (get m "timestamp") = Some (time m)).
  { intros m Hm. apply Hin.
    eapply Permutation_in; [apply Permutation_sym, Array_sort_perm | exact Hm]. }
  assert (Hat : forall t l,
            (forall m, In m l -> new_Date h (get m "timestamp") = Some (time m)) ->
            filter (fun m => date_ge (new_Date h (get m "timestamp")) (Some t)
                             && date_le (new_Date h (get m "timestamp")) (Some t))%bool l
            = filter (fun m => time m =? t) l).
  { intros t l Hl. apply filter_ext_in. intros m Hm. rewrite (Hl m Hm). simpl.
    destruct (Z.eqb_spec (time m) t), (Z.leb_spec t (time m)), (Z.leb_spec (time m) t);
      simpl; try reflexivity; lia. }
  split; [apply Array_sort_perm |]. split.
  - intros l1 a l2 b l3 ta tb Hsplit Ha Hb.
    pose proof (StronglySorted_split (fun a b => time a <= time b) _ l1 l2 l3 a b
                  (Array_sort_by_key_sorted time inroom) Hsplit) as Hab.
    simpl in Hab. unfold time in Hab. now rewrite Ha, Hb in Hab.
  - intros t. rewrite (Hat t _ Hin'), (Hat t _ Hin).
    apply Array_sort_by_key_stable.
Qed.

(** Two messages of the room [general] stored the later one first, and
    one of another room. *)
Lemma room_messages_in_time_order_witness :
  Permutation
    (filter (fun m => strict_eq (get m "roomId") (Str "general"))
       [[("roomId", Str "general"); ("timestamp", Str "2024-01-31")];
        [("roomId", Str "board"); ("timestamp", Str "soon")];
        [("roomId", Str "general"); ("timestamp", Str "2024-01-15")]])
    (TeamChat.filteredMessages Examples.utc_host "general"
       [[("roomId", Str "general"); ("timestamp", Str "2024-01-31")];
        [("roomId", Str "board"); ("timestamp", Str "soon")];
        [("roomId", Str "general"); ("timestamp", Str "2024-01-15")]]).
Proof.
  apply (room_messages_in_time_order Examples.utc_host "general"
           [[("roomId", Str "general"); ("timestamp", Str "2024-01-31")];
            [("roomId", Str "board"); ("timestamp", Str "soon")];
            [("roomId", Str "general"); ("timestamp", Str "2024-01-15")]]).
  intros m [<- | [<- | [<- | []]]] Hroom;
    try discriminate Hroom; eexists; vm_compute; reflexivity.
Defined.

(** ** What the chat sends *)

Lemma trimStart_begins (s : string) : Numbers.begins_with_space (Numbers.trimStart s) = false.
Proof.
  induction s as [| c s IH]; simpl; [reflexivity |].
  destruct (Numbers.is_space c) eqn:E; [exact IH | simpl; exact E].
Qed.

Lemma trimStart_unmoved (s : string) :
  Numbers.begins_with_space s = false -> Numbers.trimStart s = s.
Proof. destruct s as [| c s]; simpl; [reflexivity | now intros ->]. Qed.

Lemma trimEnd_begins (s : string) :
  Numbers.begins_with_space s = false ->
  Numbers.begins_with_space (Numbers.trimEnd s) = false.
Proof.
  destruct s as [| c s]; simpl; [reflexivity |]. intros Hc.
  destruct (Numbers.trimEnd s); [rewrite Hc |]; simpl; exact Hc.
Qed.

Lemma trimEnd_ends (s : string) : Numbers.ends_with_space (Numbers.trimEnd s) = false.
Proof.
  induction s as [| c s IH]; [reflexivity |].
  cbn [Numbers.trimEnd].
  destruct (Numbers.trimEnd s) as [| d r].
  - destruct (Numbers.is_space c) eqn:E; simpl; [reflexivity | exact E].
  - exact IH.
Qed.

Lemma trimEnd_idempotent (s : string) :
  Numbers.trimEnd (Numbers.trimEnd s) = Numbers.trimEnd s.
Proof.
  induction s as [| c s IH]; [reflexivity |].
  cbn [Numbers.trimEnd].
  destruct (Numbers.trimEnd s) as [| d r] eqn:E.
  - destruct (Numbers.is_space c) eqn:Hc; simpl; [reflexivity | now rewrite Hc].
  - cbn [Numbers.trimEnd] in *. now rewrite IH.
Qed.

Lemma trim_idempotent (s : string) : Numbers.trim (Numbers.trim s) = Numbers.trim s.
Proof.
  unfold Numbers.trim.
  rewrite (trimStart_unmoved (Numbers.trimEnd (Numbers.trimStart s)))
    by apply trimEnd_begins, trimStart_begins.
  apply trimEnd_idempotent.
Qed.

(** The team chat sends a message only to an active room and only when
    the input holds more than white space; what it sends is the input
    without the white space at its two ends, the input is then cleared,
    and sending the sent text again would send the same text.  Otherwise
    nothing is sent and the input stays as it is. *)
Theorem handleSubmit_sends_trimmed_text :
  forall activeRoomId newMessage,
    match TeamChat.handleSubmit activeRoomId newMessage with
    | (Some (room, sent), input) =>
        room = activeRoomId /\ room <> ""
        /\ sent = Numbers.trim newMessage /\ sent <> ""
        /\ Numbers.begins_with_space sent = false
        /\ Numbers.ends_with_space sent = false
        /\ input = ""
        /\ TeamChat.handleSubmit activeRoomId sent = (Some (room, sent), "")
    | (None, input) =>
        input = newMessage /\ (activeRoomId = "" \/ Numbers.trim newMessage = "")
    end.
Proof.
  intros activeRoomId newMessage. unfold TeamChat.handleSubmit at 1.
  destruct (String.eqb (Numbers.trim newMessage) "") eqn:Ht; simpl.
  - split; [reflexivity |]. right. now apply String.eqb_eq.
  - destruct (String.eqb activeRoomId "") eqn:Hr; simpl.
    + split; [reflexivity |]. left. now apply String.eqb_eq.
    + repeat split.
      * now apply String.eqb_neq.
      * now apply String.eqb_neq.
      * apply trimEnd_begins, trimStart_begins.
      * apply trimEnd_ends.
      * unfold TeamChat.handleSubmit. now rewrite trim_idempotent, Ht, Hr.
Qed.

(** ** A turn of the assistant *)





(** ** Names in the activity feed *)

(** The activity feed and the project cards look a client up alike: a
    name the feed finds for an id is the name the cards show for it.
    Where the feed finds none it shows nothing, the cards show [Unknown
    Client]; without id the feed shows the empty text. *)
Theorem feed_and_cards_name_clients_alike :
  forall clients projects_ teamMembers id,
    (truthy (ActivityFeed.findName clients projects_ teamMembers id ActivityFeed.client) = true ->
     ActivityFeed.findName clients projects_ teamMembers id ActivityFeed.client
     = ProjectCards.getClientName clients id)
    /\ (truthy (ActivityFeed.findName clients projects_ teamMembers id ActivityFeed.client) = false ->
        truthy id = true ->
        ProjectCards.getClientName clients id = Str "Unknown Client")
    /\ (truthy id = false ->
        forall type,
          ActivityFeed.findName clients projects_ teamMembers id type = Str "").
Proof.
  intros clients projects_ teamMembers id.
  unfold ActivityFeed.findName, ProjectCards.getClientName, or_else.
  destruct (truthy id) eqn:Hid; simpl.
  - split; [| split; [| discriminate]].
    + intros Hname. now rewrite Hname.
    + intros Hname _. now rewrite Hname.
  - split; [discriminate |]. split; [discriminate | reflexivity].
Qed.

(** ** The filters that the controls can reach *)

Lemma offered_select (controls : list ReportsView.FilterControl) (key chosen : string) :
  ReportsView.offered controls (ReportsView.select_changed key chosen) = true ->
  exists options,
    In (ReportsView.select_control key options) controls
    /\ In chosen (map ReportsView.value (ReportsView.rendered_options key options)).
Proof.
  simpl. intros H. apply existsb_exists in H. destruct H as ([k | k options] & Hin & H).
  - discriminate.
  - apply andb_true_iff in H. destruct H as [Hk Hc].
    apply String.eqb_eq in Hk. subst k.
    exists options. split; [exact Hin |].
    change (existsb (fun o => String.eqb chosen (ReportsView.value o))
              (ReportsView.rendered_options key options) = true) in Hc.
    apply existsb_exists in Hc. destruct Hc as (o & Ho & Hv).
    apply String.eqb_eq in Hv. subst chosen.
    exact (in_map ReportsView.value _ o Ho).
Qed.

Lemma offered_date (controls : list ReportsView.FilterControl)
    (ref : positive) (bound : ReportsView.Bound) (text : string) :
  ReportsView.offered controls (ReportsView.date_changed ref bound text) = true ->
  exists key, In (ReportsView.date_control key) controls.
Proof.
  simpl. intros H. apply existsb_exists in H. destruct H as ([k | k options] & Hin & H).
  - now exists k.
  - discriminate.
Qed.

Lemma event_keeps_shape (controls : list ReportsView.FilterControl)
    (filters_ : Props) (ev : ReportsView.ControlEvent) :
  (forall options, ~ In (ReportsView.select_control "dateRange" options) controls) ->
  ReportsView.filters_in_shape controls filters_ ->
  ReportsView.offered controls ev = true ->
  ReportsView.filters_in_shape controls (ReportsView.on_event filters_ ev).
Proof.
  intros Hkeys [(r & a & b & Hrange) Hothers] Hev.
  destruct ev as [key chosen | ref bound text]; cbn [ReportsView.on_event].
  - apply offered_select in Hev. destruct Hev as (options & Hin & Hchosen).
    assert (Hne : key <> "dateRange") by (intros ->; exact (Hkeys options Hin)).
    unfold ReportsView.handleFilterChange. split.
    + exists r, a, b. rewrite get_set_other by congruence. exact Hrange.
    + intros k Hk. destruct (String.eqb_spec k key) as [-> | Hkk].
      * right. exists chosen, options. rewrite get_set_same. auto.
      * rewrite get_set_other by assumption. now apply Hothers.
  - unfold ReportsView.handleRangeChange, ReportsView.handleFilterChange. split.
    + rewrite get_set_same, Hrange. unfold ReportsView.edit_range.
      destruct bound; [exists ref, text, b | exists ref, a, text]; reflexivity.
    + intros k Hk. rewrite get_set_other by assumption. now apply Hothers.
Qed.

Lemma events_keep_shape (controls : list ReportsView.FilterControl)
    (events : list ReportsView.ControlEvent) (filters_ : Props) :
  (forall options, ~ In (ReportsView.select_control "dateRange" options) controls) ->
  ReportsView.filters_in_shape controls filters_ ->
  forallb (ReportsView.offered controls) events = true ->
  ReportsView.filters_in_shape controls (ReportsView.after_events events filters_).
Proof.
  intros Hkeys. revert filters_.
  induction events as [| ev events IH]; intros filters_ Hshape Hall; [exact Hshape |].
  cbn in Hall. apply andb_true_iff in Hall. destruct Hall as [Hev Hall].
  cbn [ReportsView.after_events fold_left]. apply IH; [| exact Hall].
  now apply event_keeps_shape.
Qed.

Lemma events_without_date_control (controls : list ReportsView.FilterControl)
    (events : list ReportsView.ControlEvent) (filters_ : Props) :
  (forall options, ~ In (ReportsView.select_control "dateRange" options) controls) ->
  (forall key, ~ In (ReportsView.date_control key) controls) ->
  forallb (ReportsView.offered controls) events = true ->
  get (ReportsView.after_events events filters_) "dateRange" = get filters_ "dateRange".
Proof.
  intros Hkeys Hnone. revert filters_.
  induction events as [| ev events IH]; intros filters_ Hall; [reflexivity |].
  cbn in Hall. apply andb_true_iff in Hall. destruct Hall as [Hev Hall].
  cbn [ReportsView.after_events fold_left].
  change (fold_left ReportsView.on_event events (ReportsView.on_event filters_ ev))
    with (ReportsView.after_events events (ReportsView.on_event filters_ ev)).
  rewrite IH by exact Hall.
  destruct ev as [key chosen | ref bound text]; cbn [ReportsView.on_event].
  - apply offered_select in Hev. destruct Hev as (options & Hin & _).
    unfold ReportsView.handleFilterChange. apply get_set_other.
    intros Heq. subst key. exact (Hkeys options Hin).
  - apply offered_date in Hev. destruct Hev as [key Hin]. destruct (Hnone key Hin).
Qed.

Lemma filterControls_keys (ActivityType ProjectStatus CasePriority : list string)
    (dataSource : DataSource) (controls : list ReportsView.FilterControl) :
  ReportsView.filterControls ActivityType ProjectStatus CasePriority database dataSource
  = Some controls ->
  (forall options, ~ In (ReportsView.select_control "dateRange" options) controls)
  /\ (dataSource = projects -> forall key, ~ In (ReportsView.date_control key) controls).
Proof.
  intros [= <-]. split.
  - intros options Hin. destruct dataSource; simpl in Hin;
      repeat (destruct Hin as [Hin | Hin]; [discriminate Hin |]); exact Hin.
  - intros -> key Hin. simpl in Hin. destruct Hin as [Hin | []]. discriminate Hin.
Qed.

(** Whatever the user does with the filter controls of a data source,
    from the reset on, the filters keep their shape: the date range stays
    an object with a text at [start] and at [end], and every other key is
    unset or holds a value that a select of the data source offers for
    it.  For projects no control reaches the date range, so it stays the
    empty one of the reset. *)
Theorem controls_keep_the_filters_in_shape :
  forall ActivityType ProjectStatus CasePriority dataSource controls ref events,
    ReportsView.filterControls ActivityType ProjectStatus CasePriority database dataSource
    = Some controls ->
    forallb (ReportsView.offered controls) events = true ->
    ReportsView.filters_in_shape controls
      (ReportsView.after_events events (ReportsView.initial_filters ref))
    /\ (dataSource = projects ->
        get (ReportsView.after_events events (ReportsView.initial_filters ref)) "dateRange"
        = Obj ref [("start", Str ""); ("end", Str "")]).
Proof.
  intros ActivityType ProjectStatus CasePriority dataSource controls ref events Hc Hall.
  destruct (filterControls_keys _ _ _ _ _ Hc) as [Hkeys Hnone].
  split.
  - apply events_keep_shape; [exact Hkeys | | exact Hall].
    split.
    + exists ref, "", "". reflexivity.
    + intros key Hne. left. unfold ReportsView.initial_filters, get. simpl.
      destruct (String.eqb_spec key "dateRange"); [contradiction | reflexivity].
  - intros Hp. rewrite (events_without_date_control controls events _ Hkeys (Hnone Hp) Hall).
    reflexivity.
Qed.

(** Activities: a type is chosen, then a start date is typed. *)
Lemma controls_keep_the_filters_in_shape_witness :
  ReportsView.filters_in_shape
    [ReportsView.dateFilter;
     ReportsView.select_control "type" (ReportsView.enum_options ["Call"; "Email"])]
    (ReportsView.after_events
       [ReportsView.select_changed "type" "Email";
        ReportsView.date_changed 2 ReportsView.start_input "2024-01-20"]
       (ReportsView.initial_filters 1)).
Proof.
  exact (proj1 (controls_keep_the_filters_in_shape
                  ["Call"; "Email"] ["Planning"] ["High"] activities
                  [ReportsView.dateFilter;
                   ReportsView.select_control "type"
                     (ReportsView.enum_options ["Call"; "Email"])]
                  1
                  [ReportsView.select_changed "type" "Email";
                   ReportsView.date_changed 2 ReportsView.start_input "2024-01-20"]
                  eq_refl eq_refl)).
Defined.
